(** * Personal finance tracker: the ledger of [cli.js] and [server.js]

    A shallow embedding of the two programs of the repository and the
    properties of their specification.

    - [cli.js] keeps the ledger in [transactions.json]; every menu action
      loads the file, works on the array and may save it back.  An action is
      embedded as a function from the answers typed at the prompts and the
      file's contents to the new contents and an outcome.
    - [server.js] keeps the ledger in the module variable [transactions];
      every route handler is embedded as a function from the request and the
      array to the new array and the response.

    The file is taken to hold a well-formed array and to be writable (the
    programs print an error and go on otherwise).  What the programs take
    from their surroundings is an argument of the embedding: the reading of
    the clock ([Date.now()]), the date format of the machine, the text of a
    number.  The runtime pieces both programs lean on (strings, [parseInt],
    [parseFloat], array slicing) come first, in [Module JS]; amounts are
    binary64 numbers, the kernel's [float].

    The properties of the specification come first (C1 to C9).  The last
    three parts hold further properties of the code (X1 to X22): of the
    routes, of the balance, and of [cli.js] with its table and its menu
    loop, where the file is what JSON gives back of what was saved; C10, on
    the delete at the prompt, is there with the table that the delete shows
    first. *)

From Stdlib Require Import ZArith Lia Ascii String List Sorted.
From Stdlib Require Import Floats.PrimFloat Floats.SpecFloat Floats.FloatOps.
From Stdlib Require Import Floats.FloatAxioms.
From stdpp Require Import base list strings gmap pretty.

Set Warnings "-inexact-float,-register-all".

Local Open Scope Z_scope.

(* ================================================================== *)
(** * The JavaScript runtime, as far as the two programs use it *)
(* ================================================================== *)

Module JS.

(** ** Strings

    A string is its sequence of code units; this module has the strings
    whose code units are below 256 (Basic Latin and Latin-1), which is where
    [ascii] lives.  [Module Utf16] below has texts of 16-bit code units, as
    far as the search needs them. *)

Definition code (c : ascii) : Z := Z.of_N (N_of_ascii c).

Definition inRange (lo hi : Z) (c : ascii) : bool :=
  (lo <=? code c) && (code c <=? hi).

(** WhiteSpace and LineTerminator of the language: TAB, LF, VT, FF, CR,
    SP and NBSP. *)
Definition isWhiteSpace (c : ascii) : bool :=
  inRange 9 13 c || (code c =? 32) || (code c =? 160).

Fixpoint trimStart (s : string) : string :=
  match s with
  | String c s' => if isWhiteSpace c then trimStart s' else s
  | EmptyString => EmptyString
  end.

Fixpoint trimEnd (s : string) : string :=
  match s with
  | String c s' =>
      match trimEnd s' with
      | EmptyString => if isWhiteSpace c then EmptyString else String c EmptyString
      | r => String c r
      end
  | EmptyString => EmptyString
  end.

(** [String.prototype.trim] *)
Definition trim (s : string) : string := trimEnd (trimStart s).

(** Upper-case letters: A-Z and, in Latin-1, À-Þ without the
    multiplication sign. *)
Definition isUpper (c : ascii) : bool :=
  inRange 65 90 c || (inRange 192 222 c && negb (code c =? 215)).

Definition lowerChar (c : ascii) : ascii :=
  if isUpper c then ascii_of_N (Z.to_N (code c + 32)) else c.

(** [String.prototype.toLowerCase] on the strings of this module.  With
    all code units below 256 it works code unit by code unit and keeps the
    length: the capital letters go 32 up and nothing else moves.  On other
    texts it does not (a capital sigma at the end of a word becomes the
    final sigma, and some letters become two code units);
    [Utf16.toLowerCase] has the part of that which the tables of this file
    cover, and is this function on the strings of this module
    ([toLowerCase_latin1]). *)
Fixpoint toLowerCase (s : string) : string :=
  match s with
  | String c s' => String (lowerChar c) (toLowerCase s')
  | EmptyString => EmptyString
  end.

(** [s.startsWith(q)] *)
Fixpoint startsWith (s q : string) : bool :=
  match q, s with
  | EmptyString, _ => true
  | String a q', String b s' => Ascii.eqb a b && startsWith s' q'
  | String _ _, EmptyString => false
  end.

(** [String.prototype.includes]: [q] occurs somewhere in [s]. *)
Fixpoint includes (s q : string) : bool :=
  startsWith s q ||
  match s with
  | String _ s' => includes s' q
  | EmptyString => false
  end.

(** [Array.prototype.join] on strings. *)
Fixpoint join (sep : string) (l : list string) : string :=
  match l with
  | [] => EmptyString
  | [x] => x
  | x :: l' => x +:+ sep +:+ join sep l'
  end.

(** ** Integral numbers: what [parseInt] returns

    [parseInt] yields NaN or an integer.  The integer is kept exact; the
    runtime rounds it to a double beyond 2^53, which none of the comparisons
    and index computations below can observe, and it keeps a sign on zero,
    which they cannot observe either. *)

Inductive integral : Type :=
  | NaN
  | Int (z : Z).

(** [x === k], [x < k], [x > k], [-x], [x - k] and truthiness. *)
Definition strictEq (x : integral) (k : Z) : bool :=
  match x with Int z => z =? k | NaN => false end.

Definition lt (x : integral) (k : Z) : bool :=
  match x with Int z => z <? k | NaN => false end.

Definition gt (x : integral) (k : Z) : bool :=
  match x with Int z => k <? z | NaN => false end.

Definition neg (x : integral) : integral :=
  match x with Int z => Int (- z) | NaN => NaN end.

Definition minus (x : integral) (k : Z) : integral :=
  match x with Int z => Int (z - k) | NaN => NaN end.

Definition toBoolean (x : integral) : bool :=
  match x with Int z => negb (z =? 0) | NaN => false end.

(** [x || d] *)
Definition orElse (x d : integral) : integral :=
  if toBoolean x then x else d.

(** ToIntegerOrInfinity: NaN counts as 0. *)
Definition toIntegerOrInfinity (x : integral) : Z :=
  match x with Int z => z | NaN => 0 end.

(** The value of a digit in radix up to 36. *)
Definition digitValue (c : ascii) : option Z :=
  if inRange 48 57 c then Some (code c - 48)
  else if inRange 97 122 c then Some (code c - 87)
  else if inRange 65 90 c then Some (code c - 55)
  else None.

(** The longest run of radix-[R] digits at the front of [s], as a number;
    [acc] is [None] until a digit has been read. *)
Fixpoint digits (R : Z) (s : string) (acc : option Z) : option Z :=
  match s with
  | String c s' =>
      match digitValue c with
      | Some d =>
          if d <? R then digits R s' (Some (R * default 0 acc + d)) else acc
      | None => acc
      end
  | EmptyString => acc
  end.

(** [parseInt(s)] with no radix: leading white space, a sign, an optional
    [0x] prefix, then digits; NaN when there is no digit. *)
Definition parseInt (s : string) : integral :=
  let S0 := trimStart s in
  let '(sign, S1) :=
    match S0 with
    | String "-" r => (-1, r)
    | String "+" r => (1, r)
    | _ => (1, S0)
    end in
  let '(R, S2) :=
    match S1 with
    | String "0" (String "x" r) => (16, r)
    | String "0" (String "X" r) => (16, r)
    | _ => (10, S1)
    end in
  match digits R S2 None with
  | Some m => Int (sign * m)
  | None => NaN
  end.

(** ** Numbers

    A number is an IEEE-754 binary64 value, the kernel's [float]. *)

(** The longest run of decimal digits at the front of [s]: the number they
    spell after [acc], how many were read after [cnt], and the rest. *)
Fixpoint readDigits (s : string) (acc cnt : Z) : Z * Z * string :=
  match s with
  | String c s' =>
      if inRange 48 57 c
      then readDigits s' (10 * acc + (code c - 48)) (cnt + 1)
      else (acc, cnt, s)
  | EmptyString => (acc, cnt, s)
  end.

(** The double nearest to [m * 10^e10] (ties to even), for [m >= 0], with
    the sign [sgn]. *)
Definition ofDecimal (sgn : bool) (m e10 : Z) : float :=
  SF2Prim
    match m with
    | Zpos p =>
        if 0 <=? e10
        then binary_normalize prec emax (cond_Zopp sgn (m * 10 ^ e10)) 0 sgn
        else SFdiv prec emax (S754_finite sgn p 0)
                   (S754_finite false (Z.to_pos (10 ^ (- e10))) 0)
    | _ => S754_zero sgn
    end.

(** [parseFloat(s)]: leading white space, a sign, then the longest prefix
    that is [Infinity] or a decimal literal (digits, a fraction, an exponent
    that has at least one digit); NaN when there is none. *)
Definition parseFloat (s : string) : float :=
  let S0 := trimStart s in
  let '(sgn, S1) :=
    match S0 with
    | String "-" r => (true, r)
    | String "+" r => (false, r)
    | _ => (false, S0)
    end in
  if startsWith S1 "Infinity" then (if sgn then neg_infinity else infinity)
  else
    let '(mi, ni, S2) := readDigits S1 0 0 in
    let '(m, nf, S3) :=
      match S2 with
      | String "." r => readDigits r mi 0
      | _ => (mi, 0, S2)
      end in
    if ni + nf =? 0 then nan
    else
      let exponentOf r :=
        let '(eneg, r') :=
          match r with
          | String "-" t => (true, t)
          | String "+" t => (false, t)
          | _ => (false, r)
          end in
        let '(ev, en, _) := readDigits r' 0 0 in
        if en =? 0 then 0 else if eneg then - ev else ev in
      let e :=
        match S3 with
        | String "e" r => exponentOf r
        | String "E" r => exponentOf r
        | _ => 0
        end in
      ofDecimal sgn m (e - nf).

(** An argument that is [undefined] is first turned into the string
    ["undefined"]. *)
Definition toStringArg (o : option string) : string :=
  default "undefined" o.

(** ** Arrays *)

(** A relative index, clamped as [slice] and [splice] clamp it. *)
Definition clampIndex (len rel : Z) : Z :=
  if rel <? 0 then Z.max (len + rel) 0 else Z.min rel len.

(** [a.slice(start)] *)
Definition slice {A} (a : list A) (start : integral) : list A :=
  let len := Z.of_nat (length a) in
  let k := clampIndex len (toIntegerOrInfinity start) in
  drop (Z.to_nat k) a.

(** [a.splice(start, deleteCount)]: the removed elements, and the array
    that is left. *)
Definition splice {A} (a : list A) (start : integral) (deleteCount : Z)
    : list A * list A :=
  let len := Z.of_nat (length a) in
  let k := clampIndex len (toIntegerOrInfinity start) in
  let dc := Z.min (Z.max deleteCount 0) (len - k) in
  (take (Z.to_nat dc) (drop (Z.to_nat k) a),
   take (Z.to_nat k) a ++ drop (Z.to_nat (k + dc)) a).

(** [a.findIndex(p)]: the first index whose element satisfies [p], or -1. *)
Fixpoint findIndexFrom {A} (p : A → bool) (a : list A) (i : Z) : Z :=
  match a with
  | [] => -1
  | x :: a' => if p x then i else findIndexFrom p a' (i + 1)
  end.

Definition findIndex {A} (p : A → bool) (a : list A) : Z :=
  findIndexFrom p a 0.

End JS.

(* ================================================================== *)
(** * The data model *)
(* ================================================================== *)

(** The arithmetic on amounts.  The programs run on binary64; the interface
    lets the balance identity be stated for an exact arithmetic as well. *)
Class Arith (num : Type) : Type := {
  zero : num;
  add : num → num → num;
  sub : num → num → num
}.

(** What node computes. *)
#[export] Instance binary64 : Arith float := {|
  zero := 0%float;
  add := PrimFloat.add;
  sub := PrimFloat.sub
|}.

(** Amounts counted in whole units (cents, say), with no rounding. *)
#[export] Instance wholeUnits : Arith Z := {|
  zero := 0;
  add := Z.add;
  sub := Z.sub
|}.

(** An arithmetic is exact when it is a commutative group: no rounding,
    no overflow, no NaN. *)
Class Exact (num : Type) `{Arith num} : Type := {
  opp : num → num;
  add_assoc : ∀ a b c, add a (add b c) = add (add a b) c;
  add_comm : ∀ a b, add a b = add b a;
  add_zero_l : ∀ a, add zero a = a;
  add_opp_r : ∀ a, add a (opp a) = zero;
  sub_add_opp : ∀ a b, sub a b = add a (opp b)
}.

(** A transaction as [cli.js] writes it to [transactions.json].  The
    aggregate routes of [server.js] read [type] and [amount] of their
    records only, and are given on the same record. *)
Record transaction (num : Type) : Type := {
  primeId : Z;
  description : string;
  amount : num;
  type : string
}.
Arguments primeId {num} _.
Arguments description {num} _.
Arguments amount {num} _.
Arguments type {num} _.

(** The double quote and the line feed. *)
Definition dq : string := String "034" EmptyString.
Definition lf : string := String "010" EmptyString.

(* ================================================================== *)
(** * [cli.js] *)
(* ================================================================== *)

Module Cli.
Import JS.

Section Ledger.
Context {num : Type}.

Section Balance.
Context `{Arith num}.

(** [calculateBalance], lines 49-53. *)
Definition calculateBalance (transactions : list (transaction num)) : num :=
  fold_left
    (fun balance transaction =>
       if String.eqb (type transaction) "income"
       then add balance (amount transaction)
       else sub balance (amount transaction))
    transactions zero.

(** What [viewBalance] (lines 124-134) prints, before formatting. *)
Record balanceReport : Type := {
  shownBalance : num;
  shownIncome : num;
  shownExpenses : num
}.

Definition viewBalance (file : list (transaction num)) : balanceReport :=
  let transactions := file in
  let balance := calculateBalance transactions in
  let income :=
    fold_left (fun sum t => add sum (amount t))
      (List.filter (fun t => String.eqb (type t) "income") transactions)
      zero in
  let expenses :=
    fold_left (fun sum t => add sum (amount t))
      (List.filter (fun t => String.eqb (type t) "expense") transactions)
      zero in
  {| shownBalance := balance; shownIncome := income;
     shownExpenses := expenses |}.
End Balance.

(** [searchTransactions], lines 137-156: the [results] array.  When it is
    empty the action prints "No transactions found matching your search."
    and goes back to the menu like in the other case. *)
Definition searchTransactions (query : string)
    (file : list (transaction num)) : list (transaction num) :=
  let transactions := file in
  List.filter
    (fun transaction =>
       includes (toLowerCase (description transaction)) (toLowerCase query))
    transactions.

(** How the callback of [deleteTransaction] ends. *)
Inductive deleteOutcome : Type :=
  | Cancelled                          (* id === 0: back to the menu *)
  | InvalidId                          (* "Invalid transaction ID." *)
  | Deleted (deleted : transaction num) (* "Transaction ... deleted successfully." *)
  | TypeError.                         (* [deleted] is undefined *)

(** The callback of the question that [deleteTransaction] asks, lines
    161-175: from the answer [idStr] and the array that is loaded to the
    array it is left with (saved in the last two cases) and the outcome.
    [deleteTransaction] itself, which shows the table before it asks (line
    160), is [File.deleteTransaction] below. *)
Definition deleteAnswer (idStr : string)
    (file : list (transaction num))
    : list (transaction num) * deleteOutcome :=
  let id := parseInt idStr in
  if strictEq id 0 then (file, Cancelled)
  else
    let transactions := file in
    if lt id 1 || gt id (Z.of_nat (length transactions))
    then (file, InvalidId)
    else
      let '(removed, transactions) := splice transactions (minus id 1) 1 in
      (* saveTransactions(transactions) comes before deleted.description *)
      match removed with
      | deleted :: _ => (transactions, Deleted deleted)
      | [] => (transactions, TypeError)
      end.

Section Csv.
(** [new Date(primeId).toLocaleDateString()] depends on the locale of
    the machine, and [`${amount}`] on the number type. *)
Variable toLocaleDateString : Z → string.
Variable numberToString : num → string.

(** One line of the file, lines 187-189. *)
Definition csvRow (t : transaction num) : string :=
  toLocaleDateString (primeId t) +:+ "," +:+ dq +:+ description t +:+ dq
    +:+ "," +:+ numberToString (amount t) +:+ "," +:+ type t.

(** [csvContent], line 186-189. *)
Definition csvContent (transactions : list (transaction num)) : string :=
  "Date,Description,Amount,Type" +:+ lf +:+ join lf (map csvRow transactions).

(** [exportToCSV], lines 179-195: the text written to the file, or
    nothing when there are "No transactions to export." *)
Definition exportToCSV (file : list (transaction num)) : option string :=
  let transactions := file in
  if (length transactions =? 0)%nat then None
  else Some (csvContent transactions).
End Csv.
End Ledger.

(** How [addTransaction] ends. *)
Inductive addOutcome : Type :=
  | InvalidAmount   (* "Invalid amount. Please enter a positive number." *)
  | Added.          (* "... added successfully!" *)

(** [addTransaction], lines 98-121, from the two answers, the clock and the
    file's contents to the file's new contents and the outcome. *)
Definition addTransaction (type description amountStr : string) (now : Z)
    (file : list (transaction float))
    : list (transaction float) * addOutcome :=
  let amount := parseFloat amountStr in
  if is_nan amount || (amount <=? 0)%float then (file, InvalidAmount)
  else
    let transactions := file in
    let transaction :=
      {| primeId := now; description := trim description;
         amount := amount; type := type |} in
    (transactions ++ [transaction], Added).

End Cli.

(* ================================================================== *)
(** * Texts of 16-bit code units, and the search of [cli.js] on them *)
(* ================================================================== *)

(** The descriptions and the queries of [cli.js] are strings of the
    language, of 16-bit code units; the record [transaction] keeps those of
    Latin-1.  This module has the search on any text, with the lower case
    as far as its tables go, to tell where the two agree and where the
    lower case of the language goes its own way. *)

Module Utf16.

(** A string of the language: a sequence of 16-bit code units. *)
Definition text : Type := list N.

(** The code units of a string of [JS]. *)
Fixpoint units (s : string) : text :=
  match s with
  | String c s' => N_of_ascii c :: units s'
  | EmptyString => []
  end.

Local Open Scope N_scope.

(** [s.startsWith(q)] and [s.includes(q)] *)
Fixpoint startsWith (s q : text) : bool :=
  match q, s with
  | [], _ => true
  | a :: q', b :: s' => (a =? b) && startsWith s' q'
  | _ :: _, [] => false
  end.

Fixpoint includes (s q : text) : bool :=
  startsWith s q ||
  match s with
  | _ :: s' => includes s' q
  | [] => false
  end.

(** The Greek capital letters alpha and sigma, the two small letters, and
    the small sigma that ends a word. *)
Definition Alpha : N := 913.
Definition Sigma : N := 931.
Definition alpha : N := 945.
Definition finalSigma : N := 962.
Definition sigma : N := 963.

(** The code units that the tables below have: Basic Latin, Latin-1 and
    the five Greek letters. *)
Definition covered (c : N) : bool :=
  (c <? 256) || (c =? Alpha) || (c =? Sigma) || (c =? alpha)
  || (c =? finalSigma) || (c =? sigma).

(** The property Cased of Unicode on these code units: A-Z and a-z, the two
    ordinal indicators and the micro sign, the letters of Latin-1, and the
    Greek letters. *)
Definition cased (c : N) : bool :=
  ((65 <=? c) && (c <=? 90)) || ((97 <=? c) && (c <=? 122))
  || (c =? 170) || (c =? 181) || (c =? 186)
  || ((192 <=? c) && (c <=? 214)) || ((216 <=? c) && (c <=? 246))
  || ((248 <=? c) && (c <=? 255))
  || (c =? Alpha) || (c =? Sigma) || (c =? alpha) || (c =? finalSigma)
  || (c =? sigma).

(** The property Case_Ignorable of Unicode on these code units: the
    apostrophe, the full stop, the colon, the circumflex, the grave accent,
    the diaeresis, the soft hyphen, the macron, the acute accent, the
    middle dot and the cedilla. *)
Definition caseIgnorable (c : N) : bool :=
  existsb (N.eqb c) [39; 46; 58; 94; 96; 168; 173; 175; 180; 183; 184].

(** Going away from a place in a text: case-ignorable code units, if any,
    and then a cased letter. *)
Fixpoint reachesCased (s : text) : bool :=
  match s with
  | c :: s' => cased c || (caseIgnorable c && reachesCased s')
  | [] => false
  end.

(** The condition Final_Sigma of Unicode's SpecialCasing, for a sigma with
    the text [before] in front of it, nearest code unit first, and the text
    [after] behind it. *)
Definition isFinalSigma (before after : text) : bool :=
  reachesCased before && negb (reachesCased after).

(** The lower case of a code unit at its place: 32 above for the capital
    letters A-Z, for those of Latin-1 (192-222 but the multiplication
    sign) and for the capital alpha; one of the two small sigmas for the
    capital sigma. *)
Definition lowerAt (before : text) (c : N) (after : text) : N :=
  if c =? Sigma then (if isFinalSigma before after then finalSigma else sigma)
  else if ((65 <=? c) && (c <=? 90))
          || ((192 <=? c) && (c <=? 222) && negb (c =? 215))
          || (c =? Alpha)
  then c + 32
  else c.

Fixpoint lowerFrom (before s : text) : text :=
  match s with
  | c :: s' => lowerAt before c s' :: lowerFrom (c :: before) s'
  | [] => []
  end.

(** [String.prototype.toLowerCase] on the texts whose code units the tables
    have; no answer on the others. *)
Definition toLowerCase (s : text) : option text :=
  if forallb covered s then Some (lowerFrom [] s) else None.

Section Search.
Context {T : Type}.
(** The lower case of the language, as far as it is known, and the
    description of a transaction. *)
Variable toLowerCase : text → option text.
Variable descriptionOf : T → text.

(** The test of the [filter], line 141. *)
Definition matchesQuery (query : text) (transaction : T) : option bool :=
  d ← toLowerCase (descriptionOf transaction);
  q ← toLowerCase query;
  Some (includes d q).

(** [searchTransactions], lines 139-142: the [results] array. *)
Fixpoint searchTransactions (query : text) (transactions : list T)
    : option (list T) :=
  match transactions with
  | [] => Some []
  | transaction :: rest =>
      match matchesQuery query transaction, searchTransactions query rest with
      | Some keep, Some results =>
          Some (if keep then transaction :: results else results)
      | _, _ => None
      end
  end.
End Search.

End Utf16.

(* ================================================================== *)
(** * [server.js] *)
(* ================================================================== *)

Module Server.
Import JS.

(** A JSON value, as [express.json()] hands it over. *)
Inductive value : Type :=
  | VNull
  | VBool (b : bool)
  | VNum (n : float)
  | VStr (s : string)
  | VArr (l : list value)
  | VObj (m : gmap string value).

(** A response: the status and the JSON body, if any. *)
Record response : Type := {
  status : Z;
  body : option value
}.

(** [t.id === id], for the [id] of the route, a string. *)
Definition hasId (id : string) (t : gmap string value) : bool :=
  match t !! "id" with
  | Some (VStr s) => String.eqb s id
  | _ => false
  end.

(** The answer of lines 34 and 46. *)
Definition notFound : response :=
  {| status := 404;
     body := Some (VObj {["error" := VStr "Transaction not found"]}) |}.

(** GET /api/transactions, lines 14-16. *)
Definition getTransactions (transactions : list (gmap string value))
    : list (gmap string value) * response :=
  (transactions, {| status := 200; body := Some (VArr (VObj <$> transactions)) |}).

(** POST /api/transactions, lines 18-23; [now] is what [Date.now()] reads. *)
Definition postTransaction (now : Z) (reqBody : gmap string value)
    (transactions : list (gmap string value))
    : list (gmap string value) * response :=
  let transaction := <["id" := VStr (pretty now)]> reqBody in
  (transactions ++ [transaction],
   {| status := 201; body := Some (VObj transaction) |}).

(** PUT /api/transactions/:id, lines 25-36.  In the spread the fields of
    the body win over the fields of the record. *)
Definition putTransaction (id : string) (updatedTransaction : gmap string value)
    (transactions : list (gmap string value))
    : list (gmap string value) * response :=
  let index := findIndex (hasId id) transactions in
  if negb (index =? -1) then
    let merged :=
      updatedTransaction ∪ default ∅ (transactions !! Z.to_nat index) in
    (<[Z.to_nat index := merged]> transactions,
     {| status := 200; body := Some (VObj merged) |})
  else (transactions, notFound).

(** DELETE /api/transactions/:id, lines 38-48. *)
Definition deleteTransaction (id : string)
    (transactions : list (gmap string value))
    : list (gmap string value) * response :=
  let index := findIndex (hasId id) transactions in
  if negb (index =? -1) then
    ((splice transactions (Int index) 1).2, {| status := 204; body := None |})
  else (transactions, notFound).

(** GET /api/transactions/recent, lines 74-78: the array sent back;
    [limit] is [req.query.limit]. *)
Definition recent {A} (limit : option string) (transactions : list A) : list A :=
  let limit := orElse (parseInt (toStringArg limit)) (Int 10) in
  slice transactions (neg limit).

Definition getRecent (limit : option string)
    (transactions : list (gmap string value))
    : list (gmap string value) * response :=
  (transactions,
   {| status := 200; body := Some (VArr (VObj <$> recent limit transactions)) |}).

Section Aggregates.
Context {num : Type} `{Arith num}.

(** GET /api/balance, lines 51-58: the [balance] sent back. *)
Definition getBalance (transactions : list (transaction num)) : num :=
  fold_left
    (fun balance t =>
       if String.eqb (type t) "income" then add balance (amount t)
       else sub balance (amount t))
    transactions zero.

(** GET /api/summary, lines 60-72. *)
Record summary : Type := {
  totalIncome : num;
  totalExpense : num;
  balance : num;
  transactionCount : nat;
  currency : string
}.

Definition getSummary (transactions : list (transaction num)) : summary :=
  let totalIncome :=
    fold_left (fun sum t => add sum (amount t))
      (List.filter (fun t => String.eqb (type t) "income") transactions)
      zero in
  let totalExpense :=
    fold_left (fun sum t => add sum (amount t))
      (List.filter (fun t => String.eqb (type t) "expense") transactions)
      zero in
  let balance := sub totalIncome totalExpense in
  {| totalIncome := totalIncome; totalExpense := totalExpense;
     balance := balance; transactionCount := length transactions;
     currency := "USD" |}.
End Aggregates.

(** The requests that change the ledger, and a run of the server on a
    sequence of them. *)
Inductive request : Type :=
  | POST (now : Z) (reqBody : gmap string value)
  | PUT (id : string) (reqBody : gmap string value)
  | DELETE (id : string).

Definition handle (r : request) (transactions : list (gmap string value))
    : list (gmap string value) * response :=
  match r with
  | POST now reqBody => postTransaction now reqBody transactions
  | PUT id reqBody => putTransaction id reqBody transactions
  | DELETE id => deleteTransaction id transactions
  end.

Definition run (rs : list request) (transactions : list (gmap string value))
    : list (gmap string value) :=
  fold_left (fun ts r => (handle r ts).1) rs transactions.

End Server.

(* ================================================================== *)
(** * The vocabulary of the properties, and sample ledgers *)
(* ================================================================== *)

(** ** Ledgers of the prompt *)

(** An income and an expense, as [addTransaction] builds them. *)
Definition income {num} (now : Z) (d : string) (a : num) : transaction num :=
  {| primeId := now; description := d; amount := a; type := "income" |}.

Definition expense {num} (now : Z) (d : string) (a : num) : transaction num :=
  {| primeId := now; description := d; amount := a; type := "expense" |}.

(** Every transaction is an income or an expense. *)
Definition wellTyped {num} (ts : list (transaction num)) : Prop :=
  Forall (fun t => type t = "income" ∨ type t = "expense") ts.

(** Closes [wellTyped] on a ledger that is written out. *)
Ltac typed :=
  unfold wellTyped;
  repeat (constructor; [(left; reflexivity) || (right; reflexivity)|]);
  constructor.

(** Salary and rent, in whole units. *)
Definition salaryAndRent : list (transaction Z) :=
  [income 1 "Salary" 1000; expense 2 "Rent" 400].

(** Salary and rent again, in binary64. *)
Definition salaryAndRent64 : list (transaction float) :=
  [income 1 "Salary" 1000%float; expense 2 "Rent" 400%float].

(** Three small amounts in binary64. *)
Definition threeDimes : list (transaction float) :=
  [income 1 "Refund" 0.1%float; expense 2 "Coffee" 0.3%float;
   income 3 "Tip" 0.2%float].

(** A purchase of 5-inch nails for 12, typed at the prompt with the inch
    sign: 5, a double quote, a space and nails. *)
Definition nails : transaction float :=
  expense 1700000000000 ("5" +:+ dq +:+ " nails") 12%float.

(** ** Whole amounts *)

(** The integers are an exact arithmetic. *)
#[export] Instance wholeUnits_exact : Exact Z.
Proof.
  refine {| opp := Z.opp |}; cbn; intros; lia.
Defined.

(** The double that is the integer [z], as the specification of binary64
    writes it. *)
Definition wholeSF (z : Z) : spec_float := binary_normalize prec emax z 0 false.

(** The mantissa of 53 bits of a positive integer below 2^53. *)
Definition mantissa53 (q : positive) : positive :=
  Z.to_pos (Z.pos q * 2 ^ (53 - Z.pos (digits2_pos q))).

(** The double [x] is the integer [z]. *)
Definition whole (x : float) (z : Z) : Prop := Prim2SF x = wholeSF z.

(** The amounts of the ledger are the whole numbers [zs], none negative. *)
Definition wholeAmounts (ts : list (transaction float)) (zs : list Z) : Prop :=
  Forall2 (fun t z => whole (amount t) z ∧ 0 <= z) ts zs.

(** The sum of whole numbers. *)
Definition total (zs : list Z) : Z := fold_right Z.add 0 zs.

(** ** Sums that do not round *)

(** A double that is a number, counted in units of 2^-1074, the smallest
    positive double: an integer.  Infinity and NaN have none. *)
Definition scaledSF (x : spec_float) : option Z :=
  match x with
  | S754_zero _ => Some 0
  | S754_finite s m e => Some (cond_Zopp s (Z.pos m * 2 ^ (e + 1074)))
  | S754_infinity _ | S754_nan => None
  end.

Definition scaled (x : float) : option Z := scaledSF (Prim2SF x).

(** [x + y] does not round: it is the sum of the two numbers. *)
Definition addsExactly (x y : float) : bool :=
  match scaled x, scaled y, scaled (x + y) with
  | Some a, Some b, Some c => c =? a + b
  | _, _, _ => false
  end.

(** [x - y] does not round. *)
Definition subtractsExactly (x y : float) : bool :=
  match scaled x, scaled y, scaled (x - y) with
  | Some a, Some b, Some c => c =? a - b
  | _, _, _ => false
  end.

(** No step of the [reduce] of [calculateBalance] rounds, from the balance
    [balance] on. *)
Fixpoint balanceExact (balance : float) (ts : list (transaction float)) : bool :=
  match ts with
  | [] => true
  | t :: rest =>
      if String.eqb (type t) "income"
      then addsExactly balance (amount t)
           && balanceExact (balance + amount t) rest
      else subtractsExactly balance (amount t)
           && balanceExact (balance - amount t) rest
  end.

(** No step of the [reduce] of a total rounds, from the sum [sum] on. *)
Fixpoint sumExact (sum : float) (ts : list (transaction float)) : bool :=
  match ts with
  | [] => true
  | t :: rest => addsExactly sum (amount t) && sumExact (sum + amount t) rest
  end.

(** Nothing rounds on a ledger: no step of the balance, no step of the two
    totals, and not the subtraction of the one total from the other. *)
Definition nothingRounds (ts : list (transaction float)) : bool :=
  balanceExact 0 ts
  && sumExact 0 (List.filter (fun t => String.eqb (type t) "income") ts)
  && sumExact 0 (List.filter (fun t => String.eqb (type t) "expense") ts)
  && subtractsExactly (Server.totalIncome (Server.getSummary ts))
                      (Server.totalExpense (Server.getSummary ts)).

(** A half in, a quarter out. *)
Definition halves : list (transaction float) :=
  [income 1 "tip" 0.5%float; expense 2 "stamp" 0.25%float].

(** The double is the zero with the minus sign. *)
Definition minusZero (x : float) : Prop := Prim2SF x = S754_zero true.

(** ** What the prompt checks *)

(** The guard of [addTransaction], line 102. *)
Definition rejectedAmount (amount : float) : bool :=
  is_nan amount || (amount <=? 0)%float.

(** A string of white space only. *)
Fixpoint blank (s : string) : bool :=
  match s with
  | String c s' => JS.isWhiteSpace c && blank s'
  | EmptyString => true
  end.

(** ** The same text, case aside *)

(** A capital letter with its small letter. *)
Definition letters (capital small : ascii) : ascii * ascii := (capital, small).

(** The capital and the small letters of Basic Latin and Latin-1, pair by
    pair: A-Z with a-z, and the capital letters 192-222 of Latin-1, without
    the multiplication sign 215, with the small letters 224-254, without
    the division sign 247. *)
Definition letterPairs : list (ascii * ascii) :=
  [letters "A" "a"; letters "B" "b"; letters "C" "c"; letters "D" "d";
   letters "E" "e"; letters "F" "f"; letters "G" "g"; letters "H" "h";
   letters "I" "i"; letters "J" "j"; letters "K" "k"; letters "L" "l";
   letters "M" "m"; letters "N" "n"; letters "O" "o"; letters "P" "p";
   letters "Q" "q"; letters "R" "r"; letters "S" "s"; letters "T" "t";
   letters "U" "u"; letters "V" "v"; letters "W" "w"; letters "X" "x";
   letters "Y" "y"; letters "Z" "z"; letters "192" "224";
   letters "193" "225"; letters "194" "226"; letters "195" "227";
   letters "196" "228"; letters "197" "229"; letters "198" "230";
   letters "199" "231"; letters "200" "232"; letters "201" "233";
   letters "202" "234"; letters "203" "235"; letters "204" "236";
   letters "205" "237"; letters "206" "238"; letters "207" "239";
   letters "208" "240"; letters "209" "241"; letters "210" "242";
   letters "211" "243"; letters "212" "244"; letters "213" "245";
   letters "214" "246"; letters "216" "248"; letters "217" "249";
   letters "218" "250"; letters "219" "251"; letters "220" "252";
   letters "221" "253"; letters "222" "254"].

(** Two code units are the same letter when they are equal or are the
    capital and the small form of one letter. *)
Definition sameLetter (a b : ascii) : Prop :=
  a = b ∨ In (a, b) letterPairs ∨ In (b, a) letterPairs.

(** Two texts are the same up to case: letter by letter. *)
Fixpoint sameText (s t : string) : Prop :=
  match s, t with
  | EmptyString, EmptyString => True
  | String a s', String b t' => sameLetter a b ∧ sameText s' t'
  | _, _ => False
  end.

(** The query [q] occurs in the description [d], case aside: some stretch
    of [d] is the same text as [q]. *)
Definition occursIgnoringCase (q d : string) : Prop :=
  ∃ pre mid post, d = pre +:+ mid +:+ post ∧ sameText mid q.

(** The 256 code units of this model, and the test for the same letter:
    what the table is checked with. *)
Definition allAscii : list ascii := ascii_of_nat <$> seq 0 256.

(** [sameLetter], as a test. *)
Definition sameLetterb (a b : ascii) : bool :=
  Ascii.eqb a b
  || existsb (fun p => Ascii.eqb p.1 a && Ascii.eqb p.2 b) letterPairs
  || existsb (fun p => Ascii.eqb p.1 b && Ascii.eqb p.2 a) letterPairs.

(** ** Ledgers of the server *)

Import Server.

(** A record carries the id [id] when its [id] field is that string. *)
Definition carries (id : string) (t : gmap string value) : Prop :=
  t !! "id" = Some (VStr id).

(** Sample bodies and a ledger of one record, with the id of its POST. *)
Definition rentBody : gmap string value :=
  {[ "description" := VStr "Rent"; "amount" := VNum 400%float;
     "type" := VStr "expense" ]}.

(** The record that the POST of [rentBody] at 1700000000000 stores. *)
Definition rentRecord : gmap string value :=
  <["id" := VStr "1700000000000"]> rentBody.

Definition rentLedger : list (gmap string value) :=
  (postTransaction 1700000000000 rentBody []).1.

(** [n] records, posted at the clock readings 1 to [n]. *)
Definition ledgerOf (n : nat) : list (gmap string value) :=
  run ((fun k => POST (Z.of_nat k) ∅) <$> seq 1 n) [].

(** ** Runs and sessions *)

(** What a run of the routes reads off the clock, one reading per POST. *)
Definition stamps (rs : list request) : list Z :=
  omap (fun r => match r with POST now _ => Some now | _ => None end) rs.

(** The ids the run gives out. *)
Definition issued (rs : list request) : list string := pretty <$> stamps rs.

(** The clock reads more at every POST than at the POSTs before. *)
Definition clockAdvances (rs : list request) : Prop :=
  StronglySorted Z.lt (stamps rs).

(** No PUT of the run has an [id] field in its body. *)
Definition keepsIds (rs : list request) : Prop :=
  Forall (fun r => match r with
                   | PUT _ reqBody => reqBody !! "id" = None
                   | _ => True
                   end) rs.

(** The [id] field of each record of a ledger. *)
Definition idsOf (ts : list (gmap string value)) : list (option value) :=
  (fun t => t !! "id") <$> ts.

(** A run and a session for the example: two POSTs a millisecond apart, a
    PUT of an amount, the delete of the first record, and a third POST. *)
Definition sampleRun : list request :=
  [ POST 1700000000000 rentBody;
    POST 1700000000001 {[ "description" := VStr "Salary" ]};
    PUT "1700000000001" {[ "amount" := VNum 1000%float ]};
    DELETE "1700000000000";
    POST 1700000000002 ∅ ].

(** A session at the menu of [cli.js]: adds and deletes, one after the
    other on the file. *)
Inductive action : Type :=
  | Add (ty description amountStr : string) (now : Z)
  | Delete (idStr : string).

(** One action on the file, and a session from a file on.  A session
    follows the ids: of a delete it has the callback of the question, the
    table that [deleteTransaction] shows first being taken as shown, and
    it keeps the amounts as they were read.  [mainMenu] below has the
    table and the file as JSON gives it back. *)
Definition act (a : action) (file : list (transaction float))
    : list (transaction float) :=
  match a with
  | Add ty description amountStr now =>
      (Cli.addTransaction ty description amountStr now file).1
  | Delete idStr => (Cli.deleteAnswer idStr file).1
  end.

Definition session (acts : list action) (file : list (transaction float))
    : list (transaction float) :=
  fold_left (fun f a => act a f) acts file.

(** What a session reads off the clock, one reading per add. *)
Definition readings (acts : list action) : list Z :=
  omap (fun a => match a with Add _ _ _ now => Some now | _ => None end) acts.

(** Two adds a millisecond apart, then the delete of the first line. *)
Definition sampleSession : list action :=
  [ Add "income" "Salary" "1000" 1700000000000;
    Add "expense" "Rent" "400" 1700000000001;
    Delete "1" ].

(** ** Reading a field of the export *)

(** How a reader of CSV (RFC 4180) takes a field that opened with a double
    quote, from the text after that quote: the field runs to the first
    double quote that is not doubled, a doubled one standing for one; the
    result is the field and the text after its closing quote.  The
    repository has no reader of its own; this is the one its export is
    meant for. *)
Fixpoint readQuoted (s : string) : option (string * string) :=
  match s with
  | EmptyString => None
  | String c s' =>
      if Ascii.eqb c "034" then
        match s' with
        | String c' s'' =>
            if Ascii.eqb c' "034"
            then (fun fr => (String "034" fr.1, fr.2)) <$> readQuoted s''
            else Some (EmptyString, s')
        | EmptyString => Some (EmptyString, EmptyString)
        end
      else (fun fr => (String c fr.1, fr.2)) <$> readQuoted s'
  end.

(** A text without double quote. *)
Fixpoint quoteFree (s : string) : bool :=
  match s with
  | String c s' => negb (Ascii.eqb c "034") && quoteFree s'
  | EmptyString => true
  end.

(** What the rows of a ledger are to give back: description, amount and
    type of each. *)
Definition contents {num} (ts : list (transaction num))
    : list (string * num * string) :=
  (fun t => (description t, amount t, type t)) <$> ts.

(* ================================================================== *)
(** * More of [cli.js]: the file, the table and the menu *)
(* ================================================================== *)

(** ** The file between two actions

    [saveTransactions] (lines 33-40) writes [JSON.stringify] of the array,
    and the next [loadTransactions] (lines 22-30) parses what was written.
    Texts and finite numbers come back as they were, the zero without its
    sign; JSON has no infinity and no NaN, and [null] is written for them.
    So an amount that was loaded is a number or [null]. *)

Definition toJSON (amount : option float) : option float :=
  match amount with
  | Some x =>
      if is_nan x || is_infinity x then None
      else if is_zero x then Some 0%float
      else Some x
  | None => None
  end.

(** What [loadTransactions] gives after [saveTransactions(transactions)]. *)
Definition saveTransactions (transactions : list (transaction (option float)))
    : list (transaction (option float)) :=
  (fun t => {| primeId := primeId t; description := description t;
               amount := toJSON (amount t); type := type t |})
    <$> transactions.

(** The transaction that [addTransaction] builds, among loaded ones. *)
Definition built (t : transaction float) : transaction (option float) :=
  {| primeId := primeId t; description := description t;
     amount := Some (amount t); type := type t |}.

(** The amounts as the sums take them: [null] counts as 0 in [balance +
    amount] and [balance - amount]. *)
Definition numeric (t : transaction (option float)) : transaction float :=
  {| primeId := primeId t; description := description t;
     amount := default 0%float (amount t); type := type t |}.

(** [addTransaction] on the file: the transaction is pushed on the array
    that was loaded, and the array is saved; a refused amount leaves the
    file alone.  What is pushed does not depend on the array. *)
Definition addToFile (type description amountStr : string) (now : Z)
    (file : list (transaction (option float)))
    : list (transaction (option float)) :=
  match Cli.addTransaction type description amountStr now [] with
  | (pushed, Cli.Added) => saveTransactions (file ++ (built <$> pushed))
  | (_, Cli.InvalidAmount) => file
  end.

(** ** The table *)

(** [n] spaces, and [s.padEnd(n)]: [s] filled with spaces up to [n] code
    units, [s] itself when it has that many. *)
Fixpoint spaces (n : nat) : string :=
  match n with
  | O => EmptyString
  | S n' => String " " (spaces n')
  end.

Definition padEnd (n : nat) (s : string) : string :=
  s +:+ spaces (n - String.length s).

(** [c.repeat(n)] for one code unit. *)
Fixpoint repeat1 (c : ascii) (n : nat) : string :=
  match n with
  | O => EmptyString
  | S n' => String c (repeat1 c n')
  end.

(** What [console.log] prints for several arguments: the arguments with a
    space in between. *)
Definition logged (args : list string) : string := JS.join " " args.

(** [forEach] with a callback that prints a line or throws: the lines
    printed, and whether it threw. *)
Fixpoint printEach {A} (line : nat → A → option string) (index : nat)
    (l : list A) : list string * bool :=
  match l with
  | [] => ([], false)
  | x :: l' =>
      match line index x with
      | Some text =>
          let '(texts, threw) := printEach line (S index) l' in
          (text :: texts, threw)
      | None => ([], true)
      end
  end.

(** The first two cells of a line of the table that depend on the
    transaction only through its place and its description. *)
Definition idCell (index : nat) : string := padEnd 5 (pretty (index + 1)%nat).

Definition descriptionCell {num} (transaction : transaction num) : string :=
  padEnd 20 (String.substring 0 18 (description transaction)).

Section Table.
(** [new Date(primeId).toLocaleDateString()] comes from the machine, and
    [formatCurrency] of a number rests on [toFixed].  [formatCurrency(null)]
    throws a TypeError: [amount.toFixed] of [null], line 45. *)
Variable toLocaleDateString : Z → string.
Variable formatCurrency : float → string.

(** The line that [viewTransactions] prints for the transaction at
    [index], lines 82-90, unless [formatCurrency] throws. *)
Definition tableRow (index : nat) (transaction : transaction (option float))
    : option string :=
  let date := toLocaleDateString (primeId transaction) in
  match amount transaction with
  | Some number =>
      let amount := formatCurrency number in
      Some (logged [idCell index; padEnd 12 date; descriptionCell transaction;
                    padEnd 10 amount; type transaction])
  | None => None
  end.

(** [viewTransactions], lines 70-95: what it prints, one string for each
    call of [console.log], and whether it threw. *)
Definition viewTransactions (file : list (transaction (option float)))
    : list string * bool :=
  let transactions := file in
  if (length transactions =? 0)%nat then (["No transactions found."], false)
  else
    let heading :=
      [lf +:+ "All Transactions:";
       logged [padEnd 5 "ID"; padEnd 12 "Date"; padEnd 20 "Description";
               padEnd 10 "Amount"; "Type"];
       repeat1 "-" 60] in
    let '(rows, threw) := printEach tableRow 0 transactions in
    if threw then (heading ++ rows, true)
    else
      let balance := Cli.calculateBalance (numeric <$> transactions) in
      (heading ++ rows ++ [lf +:+ "Current Balance: " +:+ formatCurrency balance],
       false).

(** The line of a result of the search, line 151. *)
Definition resultLine (index : nat) (transaction : transaction (option float))
    : option string :=
  let date := toLocaleDateString (primeId transaction) in
  match amount transaction with
  | Some number =>
      let amount := formatCurrency number in
      Some (pretty (index + 1)%nat +:+ ". " +:+ date +:+ " - "
            +:+ description transaction +:+ " - " +:+ amount
            +:+ " (" +:+ type transaction +:+ ")")
  | None => None
  end.

(** What [searchTransactions] prints, lines 144-153, and whether it
    threw. *)
Definition searchPrinted (query : string)
    (file : list (transaction (option float))) : list string * bool :=
  let results := Cli.searchTransactions query file in
  if (length results =? 0)%nat
  then (["No transactions found matching your search."], false)
  else
    let '(lines, threw) := printEach resultLine 0 results in
    ((lf +:+ "Found " +:+ pretty (length results) +:+ " transaction(s):")
       :: lines, threw).
End Table.

(** ** Deleting, with the table first *)

Module File.

(** How [deleteTransaction] ends: with the exception of the table, before
    the question is asked, or as its callback ends. *)
Inductive deleteRun : Type :=
  | ThrownByView
  | Answered (outcome : @Cli.deleteOutcome (option float)).

Section Delete.
Variable toLocaleDateString : Z → string.
Variable formatCurrency : float → string.

(** [deleteTransaction], lines 159-176, from the answer [idStr] and the
    file's contents to the file's new contents and how it ends.
    [viewTransactions()] comes first, line 160; when it throws the question
    is not asked and the file stays as it is.  The callback saves the array
    in the two cases that reach line 172. *)
Definition deleteTransaction (idStr : string)
    (file : list (transaction (option float)))
    : list (transaction (option float)) * deleteRun :=
  if (viewTransactions toLocaleDateString formatCurrency file).2
  then (file, ThrownByView)
  else
    match Cli.deleteAnswer idStr file with
    | (transactions, Cli.Deleted deleted) =>
        (saveTransactions transactions, Answered (Cli.Deleted deleted))
    | (transactions, Cli.TypeError) =>
        (saveTransactions transactions, Answered Cli.TypeError)
    | (_, outcome) => (file, Answered outcome)
    end.
End Delete.

End File.

(** ** The menu *)

(** How far the program is: at the menu or at a question, closed by the
    choice 8, or stopped by an exception. *)
Inductive progress : Type :=
  | Prompting
  | Closed
  | Crashed.

(** The file, the texts that the exports wrote, and how far the program
    is. *)
Record desk : Type := {
  ledger : list (transaction (option float));
  written : list string;
  standing : progress
}.

Section Menu.
Variable toLocaleDateString : Z → string.
Variable formatCurrency : float → string.
(** The text of an amount in a template, [null] for [null]. *)
Variable numberToString : option float → string.

(** [mainMenu], lines 198-234, with the questions of the actions it
    starts.  The input is the lines typed, each with what the clock reads
    when its callback runs.  A choice is compared as it is typed; an action
    whose answers have not all come leaves the program at its question; an
    exception in a callback stops the program. *)
Fixpoint mainMenu (inputs : list (string * Z))
    (file : list (transaction (option float))) (out : list string) : desk :=
  let waiting := {| ledger := file; written := out; standing := Prompting |} in
  let thrown := {| ledger := file; written := out; standing := Crashed |} in
  match inputs with
  | [] => waiting
  | (choice, _) :: rest =>
      if String.eqb choice "1" then
        if (viewTransactions toLocaleDateString formatCurrency file).2
        then thrown
        else mainMenu rest file out
      else if String.eqb choice "2" then
        match rest with
        | (description, _) :: (amountStr, now) :: rest' =>
            mainMenu rest' (addToFile "income" description amountStr now file) out
        | _ => waiting
        end
      else if String.eqb choice "3" then
        match rest with
        | (description, _) :: (amountStr, now) :: rest' =>
            mainMenu rest' (addToFile "expense" description amountStr now file) out
        | _ => waiting
        end
      else if String.eqb choice "4" then mainMenu rest file out
      else if String.eqb choice "5" then
        match rest with
        | (query, _) :: rest' =>
            if (searchPrinted toLocaleDateString formatCurrency query file).2
            then thrown
            else mainMenu rest' file out
        | [] => waiting
        end
      else if String.eqb choice "6" then
        (* [deleteTransaction] starts with [viewTransactions()] *)
        if (viewTransactions toLocaleDateString formatCurrency file).2
        then thrown
        else
          match rest with
          | (idStr, _) :: rest' =>
              match Cli.deleteAnswer idStr file with
              | (transactions, Cli.Deleted _) =>
                  mainMenu rest' (saveTransactions transactions) out
              | (transactions, Cli.TypeError) =>
                  {| ledger := saveTransactions transactions; written := out;
                     standing := Crashed |}
              | (_, _) => mainMenu rest' file out
              end
          | [] => waiting
          end
      else if String.eqb choice "7" then
        match Cli.exportToCSV toLocaleDateString numberToString file with
        | Some csvContent => mainMenu rest file (out ++ [csvContent])
        | None => mainMenu rest file out
        end
      else if String.eqb choice "8" then
        {| ledger := file; written := out; standing := Closed |}
      else mainMenu rest file out
  end.

(** The course of [mainMenu], case by case: from the lines typed, the file
    and the texts written, to where the program ends up. *)
Inductive course :
    list (string * Z) → list (transaction (option float)) → list string
    → desk → Prop :=
  | course_waits file out :
      course [] file out
        {| ledger := file; written := out; standing := Prompting |}
  | course_waits_add choice at_ rest file out :
      choice = "2" ∨ choice = "3" → (length rest < 2)%nat →
      course ((choice, at_) :: rest) file out
        {| ledger := file; written := out; standing := Prompting |}
  | course_waits_ask choice at_ file out :
      choice = "5"
      ∨ (choice = "6"
         ∧ (viewTransactions toLocaleDateString formatCurrency file).2 = false) →
      course [(choice, at_)] file out
        {| ledger := file; written := out; standing := Prompting |}
  | course_passes choice at_ rest file out d :
      choice ∉ ["1"; "2"; "3"; "5"; "6"; "7"; "8"] →
      course rest file out d →
      course ((choice, at_) :: rest) file out d
  | course_views at_ rest file out d :
      (viewTransactions toLocaleDateString formatCurrency file).2 = false →
      course rest file out d →
      course (("1", at_) :: rest) file out d
  | course_view_throws choice at_ rest file out :
      choice = "1" ∨ choice = "6" →
      (viewTransactions toLocaleDateString formatCurrency file).2 = true →
      course ((choice, at_) :: rest) file out
        {| ledger := file; written := out; standing := Crashed |}
  | course_adds choice ty at_ description at1 amountStr now rest file out d :
      (choice = "2" ∧ ty = "income") ∨ (choice = "3" ∧ ty = "expense") →
      course rest (addToFile ty description amountStr now file) out d →
      course ((choice, at_) :: (description, at1) :: (amountStr, now) :: rest)
        file out d
  | course_searches at_ query at1 rest file out d :
      (searchPrinted toLocaleDateString formatCurrency query file).2 = false →
      course rest file out d →
      course (("5", at_) :: (query, at1) :: rest) file out d
  | course_search_throws at_ query at1 rest file out :
      (searchPrinted toLocaleDateString formatCurrency query file).2 = true →
      course (("5", at_) :: (query, at1) :: rest) file out
        {| ledger := file; written := out; standing := Crashed |}
  | course_deletes at_ idStr at1 rest file out deleted d :
      (viewTransactions toLocaleDateString formatCurrency file).2 = false →
      (Cli.deleteAnswer idStr file).2 = Cli.Deleted deleted →
      course rest (saveTransactions (Cli.deleteAnswer idStr file).1) out d →
      course (("6", at_) :: (idStr, at1) :: rest) file out d
  | course_keeps at_ idStr at1 rest file out d :
      (viewTransactions toLocaleDateString formatCurrency file).2 = false →
      (Cli.deleteAnswer idStr file).2 = Cli.Cancelled
      ∨ (Cli.deleteAnswer idStr file).2 = Cli.InvalidId →
      course rest file out d →
      course (("6", at_) :: (idStr, at1) :: rest) file out d
  | course_delete_throws at_ idStr at1 rest file out :
      (viewTransactions toLocaleDateString formatCurrency file).2 = false →
      (Cli.deleteAnswer idStr file).2 = Cli.TypeError →
      course (("6", at_) :: (idStr, at1) :: rest) file out
        {| ledger := saveTransactions (Cli.deleteAnswer idStr file).1;
           written := out; standing := Crashed |}
  | course_exports at_ rest file out csvContent d :
      Cli.exportToCSV toLocaleDateString numberToString file = Some csvContent →
      course rest file (out ++ [csvContent]) d →
      course (("7", at_) :: rest) file out d
  | course_exports_nothing at_ rest file out d :
      Cli.exportToCSV toLocaleDateString numberToString file = None →
      course rest file out d →
      course (("7", at_) :: rest) file out d
  | course_exits at_ rest file out :
      course (("8", at_) :: rest) file out
        {| ledger := file; written := out; standing := Closed |}.
End Menu.

(** ** Vocabulary for the further properties *)

(** A transaction has the amount [null]. *)
Definition nullAmount {A} (t : transaction (option A)) : bool :=
  match amount t with
  | None => true
  | Some _ => false
  end.

(** What the prompt lets into the file: an income or an expense, with a
    trimmed description, and an amount that passed the guard and is finite,
    or [null]. *)
Definition promptMade (t : transaction (option float)) : Prop :=
  (type t = "income" ∨ type t = "expense")
  ∧ JS.trim (description t) = description t
  ∧ match amount t with
    | Some number =>
        rejectedAmount number = false ∧ is_infinity number = false
    | None => True
    end.

(** What [exportToCSV] writes from a file of the prompt. *)
Definition exportOf (toLocaleDateString : Z → string)
    (numberToString : option float → string) (text : string) : Prop :=
  ∃ ts, ts ≠ [] ∧ Forall promptMade ts
        ∧ text = Cli.csvContent toLocaleDateString numberToString ts.

(** The whole number that a double is, when it is one. *)
Definition unitsOf (x : float) : Z :=
  match Prim2SF x with
  | S754_finite s m e => cond_Zopp s (Z.shiftl (Z.pos m) e)
  | _ => 0
  end.

(** The amount of [t] is a whole number, not negative. *)
Definition wholeAmount (t : transaction float) : Prop :=
  whole (amount t) (unitsOf (amount t)) ∧ 0 <= unitsOf (amount t).

(** The sum of the amounts that [keep] keeps, in whole numbers. *)
Definition sumUnits (keep : transaction float → bool)
    (ts : list (transaction float)) : Z :=
  foldr (fun t acc => (if keep t then unitsOf (amount t) else 0) + acc) 0 ts.

Definition isIncome {num} (t : transaction num) : bool :=
  String.eqb (type t) "income".

Definition isExpense {num} (t : transaction num) : bool :=
  String.eqb (type t) "expense".

(** Neither an income nor an expense. *)
Definition isOther {num} (t : transaction num) : bool :=
  negb (isIncome t) && negb (isExpense t).

(** The sum of the amounts of the transactions that [keep] keeps, as the
    two totals are computed. *)
Definition totalOf {num} `{Arith num} (keep : transaction num → bool)
    (ts : list (transaction num)) : num :=
  fold_left (fun sum t => add sum (amount t)) (List.filter keep ts) zero.

(** The string [s] has no code unit [c]. *)
Fixpoint lacks (c : ascii) (s : string) : bool :=
  match s with
  | String a s' => negb (Ascii.eqb a c) && lacks c s'
  | EmptyString => true
  end.

(** The four texts of a row of the export. *)
Definition cells {num} (toLocaleDateString : Z → string)
    (numberToString : num → string) (t : transaction num)
    : string * string * string * string :=
  (toLocaleDateString (primeId t), description t,
   numberToString (amount t), type t).

(** A row that can be told apart from its neighbours: no line feed in any
    of its texts, and no comma in the date, the amount and the type. *)
Definition tidy {num} (toLocaleDateString : Z → string)
    (numberToString : num → string) (t : transaction num) : Prop :=
  lacks "010" (toLocaleDateString (primeId t)) = true
  ∧ lacks "010" (description t) = true
  ∧ lacks "010" (numberToString (amount t)) = true
  ∧ lacks "010" (type t) = true
  ∧ lacks "," (toLocaleDateString (primeId t)) = true
  ∧ lacks "," (numberToString (amount t)) = true
  ∧ lacks "," (type t) = true.

(** A session for the examples: an income, an expense with a blank around
    its description, a look at the table, an export, the delete of the
    first line, and the exit. *)
Definition sampleInputs : list (string * Z) :=
  [ ("2", 1); ("Salary", 2); ("1000", 1700000000000);
    ("3", 4); (" Rent ", 5); ("400", 1700000000001);
    ("1", 7); ("7", 8); ("6", 9); ("1", 10); ("8", 11); ("2", 12) ].

(* ================================================================== *)
(** * Balance and totals *)
(* ================================================================== *)

Section ExactArithmetic.
Context {num : Type} `{Exact num}.

Lemma add_zero_r a : add a zero = a.
Proof. rewrite add_comm. apply add_zero_l. Qed.

Lemma add_opp_l a : add (opp a) a = zero.
Proof. rewrite add_comm. apply add_opp_r. Qed.

(** An inverse is unique. *)
Lemma opp_unique a b : add a b = zero → b = opp a.
Proof.
  intros E.
  rewrite <- (add_zero_l b), <- (add_opp_l a), <- add_assoc, E.
  apply add_zero_r.
Qed.

Lemma opp_add a b : opp (add a b) = add (opp a) (opp b).
Proof.
  symmetry. apply opp_unique.
  rewrite (add_comm (opp a)), add_assoc, <- (add_assoc a b (opp b)).
  rewrite add_opp_r, add_zero_r. apply add_opp_r.
Qed.

Lemma sub_zero_zero : sub zero zero = zero.
Proof. rewrite sub_add_opp. apply add_opp_r. Qed.

(** Crediting a balance is crediting its income side. *)
Lemma credit_income i e a : add (sub i e) a = sub (add i a) e.
Proof.
  rewrite !sub_add_opp, <- !add_assoc. f_equal. apply add_comm.
Qed.

(** Debiting a balance is crediting its expense side. *)
Lemma debit_expense i e a : sub (sub i e) a = sub i (add e a).
Proof. rewrite !sub_add_opp, opp_add. symmetry. apply add_assoc. Qed.

(** The fold of [calculateBalance] from a balance [sub i e] keeps pace
    with the two folds over the filtered arrays from [i] and [e]. *)
Lemma balance_fold (ts : list (transaction num)) : ∀ i e,
  wellTyped ts →
  fold_left
    (fun balance t =>
       if String.eqb (type t) "income" then add balance (amount t)
       else sub balance (amount t))
    ts (sub i e)
  = sub
      (fold_left (fun sum t => add sum (amount t))
         (List.filter (fun t => String.eqb (type t) "income") ts) i)
      (fold_left (fun sum t => add sum (amount t))
         (List.filter (fun t => String.eqb (type t) "expense") ts) e).
Proof.
  induction ts as [|t ts IH]; intros i e Hty; [reflexivity|].
  apply Forall_cons in Hty as [Ht Hty]. cbn [fold_left List.filter].
  destruct Ht as [-> | ->]; cbn [String.eqb Ascii.eqb Bool.eqb fold_left].
  - rewrite credit_income. apply IH, Hty.
  - rewrite debit_expense. apply IH, Hty.
Qed.
End ExactArithmetic.

(** The identity in an exact arithmetic. *)
Lemma balance_identity_exact {num : Type} `{Exact num}
    (ts : list (transaction num)) :
  wellTyped ts →
  Cli.calculateBalance ts
  = sub (Server.totalIncome (Server.getSummary ts))
        (Server.totalExpense (Server.getSummary ts)).
Proof.
  intros Hty. pose proof (balance_fold ts zero zero Hty) as E.
  rewrite sub_zero_zero in E. exact E.
Qed.

(** ** Whole amounts in binary64 *)

Section Binary64.

Lemma digits2_size p : digits2_pos p = Pos.size p.
Proof. induction p as [p IH | p IH |]; cbn; congruence. Qed.

Lemma digits_bounds p :
  2 ^ (Z.pos (digits2_pos p) - 1) <= Z.pos p < 2 ^ Z.pos (digits2_pos p).
Proof.
  rewrite digits2_size.
  pose proof (Pos.size_gt p) as Hgt. pose proof (Pos.size_le p) as Hle.
  apply Pos2Z.pos_lt_pos in Hgt. apply Pos2Z.pos_le_pos in Hle.
  rewrite Pos2Z.inj_pow in Hgt, Hle.
  replace (Z.pos (Pos.size p)) with (Z.succ (Z.pos (Pos.size p) - 1)) in Hle at 1 by lia.
  rewrite Z.pow_succ_r in Hle by lia.
  change (Z.pos p~0) with (2 * Z.pos p) in Hle. lia.
Qed.

Lemma digits_unique p d :
  2 ^ (d - 1) <= Z.pos p < 2 ^ d → Z.pos (digits2_pos p) = d.
Proof.
  intros [Hlo Hhi]. pose proof (digits_bounds p) as [Hlo' Hhi'].
  destruct (Z.lt_trichotomy (Z.pos (digits2_pos p)) d) as [H | [H | H]];
    [exfalso | exact H | exfalso].
  - assert (2 ^ Z.pos (digits2_pos p) <= 2 ^ (d - 1))
      by (apply Z.pow_le_mono_r; lia).
    lia.
  - assert (2 ^ d <= 2 ^ (Z.pos (digits2_pos p) - 1)).
    { destruct (Z.le_gt_cases 0 d).
      - apply Z.pow_le_mono_r; lia.
      - rewrite (Z.pow_neg_r 2 d) in Hhi by lia. lia. }
    lia.
Qed.

Lemma digits_shift q k :
  0 <= k →
  Z.pos (digits2_pos (Z.to_pos (Z.pos q * 2 ^ k))) = Z.pos (digits2_pos q) + k.
Proof.
  intros Hk. apply digits_unique.
  pose proof (digits_bounds q) as [Hlo Hhi].
  assert (0 < 2 ^ k) by (apply Z.pow_pos_nonneg; lia).
  rewrite Z2Pos.id by lia.
  replace (Z.pos (digits2_pos q) + k - 1) with (Z.pos (digits2_pos q) - 1 + k) by lia.
  rewrite !Z.pow_add_r by lia. nia.
Qed.


Lemma iter_pos_comm {A} (f : A → A) n : ∀ x,
  f (SpecFloat.iter_pos f n x) = SpecFloat.iter_pos f n (f x).
Proof.
  induction n as [n IH | n IH |]; intros x; [| |reflexivity].
  - change (f (SpecFloat.iter_pos f n (SpecFloat.iter_pos f n (f x)))
            = SpecFloat.iter_pos f n (SpecFloat.iter_pos f n (f (f x)))).
    rewrite !IH. reflexivity.
  - change (f (SpecFloat.iter_pos f n (SpecFloat.iter_pos f n x))
            = SpecFloat.iter_pos f n (SpecFloat.iter_pos f n (f x))).
    rewrite !IH. reflexivity.
Qed.

Lemma iter_pos_succ {A} (f : A → A) n : ∀ x,
  SpecFloat.iter_pos f (Pos.succ n) x = SpecFloat.iter_pos f n (f x).
Proof.
  induction n as [n IH | n IH |]; intros x; [|reflexivity..].
  change (SpecFloat.iter_pos f (Pos.succ n) (SpecFloat.iter_pos f (Pos.succ n) x)
          = SpecFloat.iter_pos f n (SpecFloat.iter_pos f n (f (f x)))).
  rewrite !IH, iter_pos_comm. reflexivity.
Qed.

(** Shifting out the zeros that a shift to the left put in is exact. *)
Lemma shr_exact n : ∀ q,
  SpecFloat.iter_pos shr_1 n
    {| shr_m := Z.pos (Pos.iter xO q n); shr_r := false; shr_s := false |}
  = {| shr_m := Z.pos q; shr_r := false; shr_s := false |}.
Proof.
  induction n as [|n IH] using Pos.peano_ind; intros q; [reflexivity|].
  rewrite iter_pos_succ, Pos.iter_succ. cbn [shr_1 orb]. apply IH.
Qed.

Lemma iter_xO_pow q n : Z.pos (Pos.iter xO q n) = Z.pos q * 2 ^ Z.pos n.
Proof.
  induction n as [|n IH] using Pos.peano_ind.
  - cbn. lia.
  - rewrite Pos.iter_succ, Pos2Z.inj_succ, Z.pow_succ_r by lia.
    change (Z.pos (Pos.iter xO q n)~0) with (2 * Z.pos (Pos.iter xO q n)).
    lia.
Qed.

Lemma fexp64 e : fexp prec emax e = Z.max (e - 53) (-1074).
Proof. reflexivity. Qed.

(** Rounding a mantissa of 53 bits followed by [j] zeros is exact. *)
Lemma binary_round_aux_exact s (X mz : positive) ez j :
  Z.pos (digits2_pos X) = 53 → 0 <= j →
  Z.pos mz = Z.pos X * 2 ^ j →
  -1074 <= ez + j <= 971 →
  binary_round_aux prec emax s (Z.pos mz) ez loc_Exact
  = S754_finite s X (ez + j).
Proof.
  intros HX Hj Hmz Hrange.
  assert (Hd : Z.pos (digits2_pos mz) = 53 + j).
  { replace mz with (Z.to_pos (Z.pos X * 2 ^ j)) by (rewrite <- Hmz; reflexivity).
    rewrite digits_shift by exact Hj. lia. }
  assert (Hfirst : shr_fexp prec emax (Z.pos mz) ez loc_Exact
                   = ({| shr_m := Z.pos X; shr_r := false; shr_s := false |},
                      ez + j)).
  { unfold shr_fexp. cbn [Zdigits2 shr_record_of_loc].
    rewrite Hd, fexp64.
    replace (Z.max (53 + j + ez - 53) (-1074) - ez) with j by lia.
    destruct j as [|p|p]; [| |lia].
    - cbn [shr]. rewrite Z.add_0_r. do 3 f_equal. lia.
    - cbn [shr]. f_equal.
      replace mz with (Pos.iter xO X p)
        by (apply Pos2Z.inj; rewrite iter_xO_pow; lia).
      apply shr_exact. }
  assert (Hsecond : shr_fexp prec emax (Z.pos X) (ez + j) loc_Exact
                    = ({| shr_m := Z.pos X; shr_r := false; shr_s := false |},
                       ez + j)).
  { unfold shr_fexp. cbn [Zdigits2 shr_record_of_loc].
    rewrite HX, fexp64.
    replace (Z.max (53 + (ez + j) - 53) (-1074) - (ez + j)) with 0 by lia.
    reflexivity. }
  unfold binary_round_aux. rewrite Hfirst.
  cbn [shr_m loc_of_shr_record round_nearest_even]. rewrite Hsecond.
  cbn [shr_m].
  destruct (Z.leb_spec (ez + j) (emax - prec)) as [_|H]; [reflexivity|].
  change (emax - prec) with 971 in H. lia.
Qed.

Lemma mantissa53_digits q :
  Z.pos (digits2_pos q) <= 53 → Z.pos (digits2_pos (mantissa53 q)) = 53.
Proof.
  intros Hq. unfold mantissa53. rewrite digits_shift by lia. lia.
Qed.

Lemma mantissa53_val q :
  Z.pos (digits2_pos q) <= 53 →
  Z.pos (mantissa53 q) = Z.pos q * 2 ^ (53 - Z.pos (digits2_pos q)).
Proof.
  intros Hq. unfold mantissa53.
  assert (0 < 2 ^ (53 - Z.pos (digits2_pos q))) by (apply Z.pow_pos_nonneg; lia).
  rewrite Z2Pos.id by lia. reflexivity.
Qed.

(** The normal form of a number [q * 2^(k + e)] whose [q] has at most 53
    bits: the mantissa of 53 bits of [q], and the exponent that goes with
    it. *)
Lemma binary_round_normal s (M q : positive) k e :
  0 <= k → Z.pos M = Z.pos q * 2 ^ k →
  Z.pos (digits2_pos q) <= 53 →
  -1074 <= Z.pos (digits2_pos q) + k + e - 53 <= 971 →
  binary_round prec emax s M e
  = S754_finite s (mantissa53 q) (Z.pos (digits2_pos q) + k + e - 53).
Proof.
  intros Hk HM Hq Hrange.
  set (d := Z.pos (digits2_pos q)) in *.
  assert (Hd : 1 <= d) by (subst d; lia).
  assert (HdM : Z.pos (digits2_pos M) = d + k).
  { replace M with (Z.to_pos (Z.pos q * 2 ^ k)) by (rewrite <- HM; reflexivity).
    apply digits_shift, Hk. }
  pose proof (mantissa53_digits q Hq) as HX.
  pose proof (mantissa53_val q Hq) as HXv. fold d in HXv.
  unfold binary_round. rewrite HdM, fexp64.
  replace (Z.max (d + k + e - 53) (-1074)) with (d + k + e - 53) by lia.
  unfold shl_align.
  destruct (d + k + e - 53 - e) as [|p|p] eqn:Hcase.
  - replace (d + k + e - 53) with (e + 0) by lia.
    apply binary_round_aux_exact; [exact HX | lia | | lia].
    rewrite HM, HXv, Z.pow_0_r, Z.mul_1_r. f_equal. f_equal. lia.
  - replace (d + k + e - 53) with (e + Z.pos p) by lia.
    apply binary_round_aux_exact; [exact HX | lia | | lia].
    rewrite HM, HXv, <- Z.mul_assoc, <- Z.pow_add_r by lia.
    f_equal. f_equal. lia.
  - replace (d + k + e - 53) with (d + k + e - 53 + 0) at 2 by lia.
    apply binary_round_aux_exact; [exact HX | lia | | lia].
    rewrite iter_xO_pow, HM, HXv, Z.pow_0_r, Z.mul_1_r.
    rewrite <- Z.mul_assoc, <- Z.pow_add_r by lia. f_equal. f_equal. lia.
Qed.

Lemma digits_le_53 q : Z.pos q < 2 ^ 53 → Z.pos (digits2_pos q) <= 53.
Proof.
  intros Hq. pose proof (digits_bounds q) as [Hlo _].
  destruct (Z.le_gt_cases (Z.pos (digits2_pos q)) 53) as [H|H]; [exact H|].
  assert (2 ^ 53 <= 2 ^ (Z.pos (digits2_pos q) - 1))
    by (apply Z.pow_le_mono_r; lia).
  lia.
Qed.

(** An integer [c] below 2^53 in size, scaled by [2^k] and given the
    exponent [-k], normalizes to the double that is [c]. *)
Lemma normalize_scaled c k :
  0 <= k → Z.abs c < 2 ^ 53 →
  binary_normalize prec emax (c * 2 ^ k) (- k) false = wholeSF c.
Proof.
  intros Hk Hc. assert (H2 : 0 < 2 ^ k) by (apply Z.pow_pos_nonneg; lia).
  unfold wholeSF, binary_normalize.
  destruct c as [|q|q].
  - reflexivity.
  - assert (Hq : Z.pos (digits2_pos q) <= 53) by (apply digits_le_53; lia).
    pose proof (digits_bounds q).
    destruct (Z.pos q * 2 ^ k) as [|M|M] eqn:HM; [lia| |lia].
    rewrite (binary_round_normal false M q k (- k)) by (auto; lia).
    rewrite (binary_round_normal false q q 0 0) by (auto; lia).
    f_equal. lia.
  - assert (Hq : Z.pos (digits2_pos q) <= 53) by (apply digits_le_53; lia).
    pose proof (digits_bounds q).
    destruct (Z.neg q * 2 ^ k) as [|M|M] eqn:HM; [lia|lia|].
    rewrite (binary_round_normal true M q k (- k)) by (auto; lia).
    rewrite (binary_round_normal true q q 0 0) by (auto; lia).
    f_equal. lia.
Qed.

(** The shape of the double that is a non-zero integer below 2^53. *)
Lemma wholeSF_pos q :
  Z.pos q < 2 ^ 53 →
  wholeSF (Z.pos q)
  = S754_finite false (mantissa53 q) (Z.pos (digits2_pos q) - 53)
  ∧ wholeSF (Z.neg q)
    = S754_finite true (mantissa53 q) (Z.pos (digits2_pos q) - 53).
Proof.
  intros Hq%digits_le_53. pose proof (digits_bounds q).
  unfold wholeSF, binary_normalize.
  rewrite !(binary_round_normal _ q q 0 0) by (auto; lia).
  split; f_equal; lia.
Qed.

Lemma shl_align_val m e e' :
  e' <= e → Z.pos (shl_align m e e').1 = Z.pos m * 2 ^ (e - e').
Proof.
  intros He. unfold shl_align.
  destruct (e' - e) as [|p|p] eqn:Hcase; cbn [fst]; [| lia |].
  - replace (e - e') with 0 by lia. lia.
  - rewrite iter_xO_pow. f_equal. f_equal. lia.
Qed.

(** The sign and the size of an integer make the integer. *)
Lemma cond_Zopp_abs (c : Z) : cond_Zopp (c <? 0) (Z.abs c) = c.
Proof. unfold cond_Zopp. destruct (Z.ltb_spec c 0); lia. Qed.

(** Aligning the double that is [c] on an exponent [- k] below its own
    gives [c * 2^k]. *)
Lemma aligned_whole (c : Z) s m e k :
  c ≠ 0 → Z.abs c < 2 ^ 53 → wholeSF c = S754_finite s m e →
  e = Z.pos (digits2_pos (Z.to_pos (Z.abs c))) - 53
  ∧ (- k <= e → cond_Zopp s (Z.pos (shl_align m e (- k)).1) = c * 2 ^ k).
Proof.
  intros Hc Hb E.
  destruct c as [|q|q]; [congruence| |].
  - destruct (wholeSF_pos q Hb) as [Hq _]. rewrite Hq in E.
    injection E as <- <- <-. split; [reflexivity|]. intros Hk.
    rewrite shl_align_val by lia. cbn [cond_Zopp].
    rewrite mantissa53_val by (apply digits_le_53; lia).
    rewrite <- Z.mul_assoc, <- Z.pow_add_r by (pose proof (digits_le_53 q Hb); lia).
    f_equal. f_equal. lia.
  - destruct (wholeSF_pos q Hb) as [_ Hq]. rewrite Hq in E.
    injection E as <- <- <-. split; [reflexivity|]. intros Hk.
    rewrite shl_align_val by lia. cbn [cond_Zopp].
    rewrite mantissa53_val by (apply digits_le_53; lia).
    rewrite <- Z.mul_assoc, <- Z.pow_add_r
      by (pose proof (digits_le_53 q Hb); lia).
    rewrite <- Z.mul_opp_l. change (- Z.pos q) with (Z.neg q).
    f_equal. f_equal. lia.
Qed.

Lemma wholeSF_zero : wholeSF 0 = S754_zero false.
Proof. reflexivity. Qed.

Lemma wholeSF_finite c :
  c ≠ 0 → Z.abs c < 2 ^ 53 → ∃ s m e, wholeSF c = S754_finite s m e.
Proof.
  intros Hc Hb. destruct c as [|q|q]; [congruence| |].
  - destruct (wholeSF_pos q Hb) as [-> _]. eauto.
  - destruct (wholeSF_pos q Hb) as [_ ->]. eauto.
Qed.

(** Adding two integers in binary64 is exact while the three of them
    stay below 2^53 in size. *)
Lemma SFadd_whole a b :
  Z.abs a < 2 ^ 53 → Z.abs b < 2 ^ 53 → Z.abs (a + b) < 2 ^ 53 →
  SFadd prec emax (wholeSF a) (wholeSF b) = wholeSF (a + b).
Proof.
  intros Ha Hb Hab.
  destruct (Z.eq_dec a 0) as [-> | Ha0]; destruct (Z.eq_dec b 0) as [-> | Hb0].
  - reflexivity.
  - destruct (wholeSF_finite b Hb0 Hb) as (s & m & e & E).
    rewrite Z.add_0_l, wholeSF_zero, E. reflexivity.
  - destruct (wholeSF_finite a Ha0 Ha) as (s & m & e & E).
    rewrite Z.add_0_r, wholeSF_zero, E. reflexivity.
  - destruct (wholeSF_finite a Ha0 Ha) as (sa & ma & ea & Ea).
    destruct (wholeSF_finite b Hb0 Hb) as (sb & mb & eb & Eb).
    rewrite Ea, Eb. cbn [SFadd].
    set (k := - Z.min ea eb).
    destruct (aligned_whole a sa ma ea k Ha0 Ha Ea) as [Hea Hva].
    destruct (aligned_whole b sb mb eb k Hb0 Hb Eb) as [Heb Hvb].
    assert (Hk : 0 <= k).
    { pose proof (digits_le_53 (Z.to_pos (Z.abs a)) ltac:(lia)).
      pose proof (digits_le_53 (Z.to_pos (Z.abs b)) ltac:(lia)). lia. }
    replace (Z.min ea eb) with (- k) by lia.
    rewrite Hva, Hvb by lia.
    rewrite <- Z.mul_add_distr_r. apply normalize_scaled; assumption.
Qed.

Lemma SFsub_whole a b :
  Z.abs a < 2 ^ 53 → Z.abs b < 2 ^ 53 → Z.abs (a - b) < 2 ^ 53 →
  SFsub prec emax (wholeSF a) (wholeSF b) = wholeSF (a - b).
Proof.
  intros Ha Hb Hab.
  destruct (Z.eq_dec a 0) as [-> | Ha0]; destruct (Z.eq_dec b 0) as [-> | Hb0].
  - reflexivity.
  - rewrite Z.sub_0_l, wholeSF_zero.
    destruct b as [|q|q]; [congruence| |];
      rewrite ?Pos2Z.opp_pos, ?Pos2Z.opp_neg;
      destruct (wholeSF_pos q Hb) as [E F]; rewrite E, F; reflexivity.
  - destruct (wholeSF_finite a Ha0 Ha) as (s & m & e & E).
    rewrite Z.sub_0_r, wholeSF_zero, E. reflexivity.
  - destruct (wholeSF_finite a Ha0 Ha) as (sa & ma & ea & Ea).
    destruct (wholeSF_finite b Hb0 Hb) as (sb & mb & eb & Eb).
    rewrite Ea, Eb. cbn [SFsub].
    set (k := - Z.min ea eb).
    destruct (aligned_whole a sa ma ea k Ha0 Ha Ea) as [Hea Hva].
    destruct (aligned_whole b sb mb eb k Hb0 Hb Eb) as [Heb Hvb].
    assert (Hk : 0 <= k).
    { pose proof (digits_le_53 (Z.to_pos (Z.abs a)) ltac:(lia)).
      pose proof (digits_le_53 (Z.to_pos (Z.abs b)) ltac:(lia)). lia. }
    replace (Z.min ea eb) with (- k) by lia.
    rewrite Hva, Hvb by lia.
    rewrite <- Z.mul_sub_distr_r. apply normalize_scaled; assumption.
Qed.

End Binary64.

Lemma whole_add x y a b :
  whole x a → whole y b →
  Z.abs a < 2 ^ 53 → Z.abs b < 2 ^ 53 → Z.abs (a + b) < 2 ^ 53 →
  whole (x + y)%float (a + b).
Proof.
  unfold whole. intros Hx Hy Ha Hb Hab. rewrite add_spec, Hx, Hy.
  apply SFadd_whole; assumption.
Qed.

Lemma whole_sub x y a b :
  whole x a → whole y b →
  Z.abs a < 2 ^ 53 → Z.abs b < 2 ^ 53 → Z.abs (a - b) < 2 ^ 53 →
  whole (x - y)%float (a - b).
Proof.
  unfold whole. intros Hx Hy Ha Hb Hab. rewrite sub_spec, Hx, Hy.
  apply SFsub_whole; assumption.
Qed.

Lemma whole_inj x y z : whole x z → whole y z → x = y.
Proof. unfold whole. intros Hx Hy. apply Prim2SF_inj. congruence. Qed.

Lemma total_nonneg ts zs : wholeAmounts ts zs → 0 <= total zs.
Proof.
  unfold total. induction 1 as [|t z ts zs [_ Hz] _ IH]; cbn; lia.
Qed.

(** The three folds go along on whole numbers: from a balance [i - e],
    an income [i] and an expense [e], they end on [I - E], [I] and [E]. *)
Lemma whole_folds ts zs :
  wholeAmounts ts zs → wellTyped ts →
  ∀ xb xi xe i e,
    whole xb (i - e) → whole xi i → whole xe e →
    0 <= i → 0 <= e → i + e + total zs < 2 ^ 53 →
    ∃ I E,
      whole
        (fold_left
           (fun balance t =>
              if String.eqb (type t) "income" then add balance (amount t)
              else sub balance (amount t)) ts xb) (I - E)
      ∧ whole
          (fold_left (fun sum t => add sum (amount t))
             (List.filter (fun t => String.eqb (type t) "income") ts) xi) I
      ∧ whole
          (fold_left (fun sum t => add sum (amount t))
             (List.filter (fun t => String.eqb (type t) "expense") ts) xe) E
      ∧ 0 <= I ∧ 0 <= E ∧ I + E < 2 ^ 53.
Proof.
  induction 1 as [|t z ts zs [Ht Hz] Hrest IH]; intros Hty xb xi xe i e Hb Hi He Hi0 He0 Hsum.
  - exists i, e. cbn in *. repeat split; try assumption; lia.
  - apply Forall_cons in Hty as [Hk Hty].
    pose proof (total_nonneg _ _ Hrest) as Hnn.
    cbn [total fold_right] in Hsum. fold (total zs) in Hsum.
    cbn [fold_left List.filter].
    destruct Hk as [-> | ->]; cbn [String.eqb Ascii.eqb Bool.eqb fold_left].
    + apply (IH Hty _ _ _ (i + z) e); try lia; try assumption.
      * replace (i + z - e) with (i - e + z) by lia.
        apply whole_add; try assumption; lia.
      * apply whole_add; try assumption; lia.
    + apply (IH Hty _ _ _ i (e + z)); try lia; try assumption.
      * replace (i - (e + z)) with (i - e - z) by lia.
        apply whole_sub; try assumption; lia.
      * apply whole_add; try assumption; lia.
Qed.

(** The identity in binary64, for whole amounts. *)
Lemma balance_identity_whole (ts : list (transaction float)) (zs : list Z) :
  wellTyped ts → wholeAmounts ts zs → total zs < 2 ^ 53 →
  Cli.calculateBalance ts
  = sub (Server.totalIncome (Server.getSummary ts))
        (Server.totalExpense (Server.getSummary ts)).
Proof.
  intros Hty Hw Hsum.
  destruct (whole_folds ts zs Hw Hty 0%float 0%float 0%float 0 0)
    as (I & E & Hb & Hi & He & HI & HE & HIE);
    try reflexivity; try lia.
  apply (whole_inj _ _ (I - E)); [exact Hb|].
  apply whole_sub; try assumption; lia.
Qed.

(** ** Sums that do not round in binary64 *)

Section NoRounding.

Lemma valid_finite x s m e :
  Prim2SF x = S754_finite s m e →
  -1074 <= e
  ∧ Z.pos (digits2_pos m) <= 53
  ∧ (e = -1074 ∨ Z.pos (digits2_pos m) = 53).
Proof.
  intros E. pose proof (Prim2SF_valid x) as V. rewrite E in V.
  cbn [valid_binary] in V. unfold bounded, canonical_mantissa in V.
  apply andb_true_iff in V as [V _]. apply Z.eqb_eq in V.
  rewrite fexp64 in V.
  assert (V' : Z.max (Z.pos (digits2_pos m) + e - 53) (-1074) = e) by exact V.
  clear V E. lia.
Qed.

Lemma canonical_unique m1 e1 m2 e2 :
  -1074 <= e1 → Z.pos (digits2_pos m1) <= 53 →
  -1074 <= e2 → (e2 = -1074 ∨ Z.pos (digits2_pos m2) = 53) →
  Z.pos m1 * 2 ^ (e1 + 1074) = Z.pos m2 * 2 ^ (e2 + 1074) →
  e2 <= e1.
Proof.
  intros H1 D1 H2 D2 E.
  destruct (Z.le_gt_cases e2 e1) as [H|H]; [exact H|exfalso].
  destruct D2 as [->|D2]; [lia|].
  replace (e2 + 1074) with ((e2 - e1) + (e1 + 1074)) in E by lia.
  rewrite (Z.pow_add_r 2 (e2 - e1) (e1 + 1074)) in E by lia.
  assert (P : 0 < 2 ^ (e1 + 1074)) by (apply Z.pow_pos_nonneg; lia).
  rewrite Z.mul_assoc in E. apply Z.mul_reg_r in E; [|lia].
  pose proof (digits_bounds m1) as [_ B1].
  pose proof (digits_bounds m2) as [B2 _]. rewrite D2 in B2.
  assert (2 ^ Z.pos (digits2_pos m1) <= 2 ^ 53)
    by (apply Z.pow_le_mono_r; lia).
  assert (2 ^ 1 <= 2 ^ (e2 - e1)) by (apply Z.pow_le_mono_r; lia).
  change (2 ^ 1) with 2 in *. change (53 - 1) with 52 in B2.
  change (2 ^ 53) with (2 * 2 ^ 52) in *. nia.
Qed.

(** Two doubles that are the same number are the same double, the two
    zeros apart. *)
Lemma scaled_inj x y a :
  scaled x = Some a → scaled y = Some a →
  ¬ minusZero x → ¬ minusZero y → x = y.
Proof.
  unfold scaled, minusZero. intros Hx Hy Nx Ny. apply Prim2SF_inj.
  destruct (Prim2SF x) as [sx| | |sx mx ex] eqn:Ex;
    destruct (Prim2SF y) as [sy| | |sy my ey] eqn:Ey;
    cbn [scaledSF] in Hx, Hy; try discriminate.
  - destruct sx, sy; congruence.
  - exfalso. apply valid_finite in Ey as (He & _ & _).
    assert (0 < 2 ^ (ey + 1074)) by (apply Z.pow_pos_nonneg; lia).
    injection Hx as <-. injection Hy as Hy. destruct sy; cbn in Hy; nia.
  - exfalso. apply valid_finite in Ex as (He & _ & _).
    assert (0 < 2 ^ (ex + 1074)) by (apply Z.pow_pos_nonneg; lia).
    injection Hy as <-. injection Hx as Hx. destruct sx; cbn in Hx; nia.
  - apply valid_finite in Ex as (Hex & Dx & Cx).
    apply valid_finite in Ey as (Hey & Dy & Cy).
    injection Hx as Hx. injection Hy as Hy. subst a.
    assert (Px : 0 < 2 ^ (ex + 1074)) by (apply Z.pow_pos_nonneg; lia).
    assert (Py : 0 < 2 ^ (ey + 1074)) by (apply Z.pow_pos_nonneg; lia).
    assert (Hs : sx = sy) by (destruct sx, sy; cbn in Hy; try reflexivity; nia).
    subst sy.
    assert (Hm : Z.pos mx * 2 ^ (ex + 1074) = Z.pos my * 2 ^ (ey + 1074))
      by (destruct sx; cbn in Hy; lia).
    assert (He : ex = ey).
    { pose proof (canonical_unique mx ex my ey Hex Dx Hey Cy Hm).
      pose proof (canonical_unique my ey mx ex Hey Dy Hex Cx (eq_sym Hm)).
      lia. }
    subst ey. apply Z.mul_reg_r in Hm; [|lia]. congruence.
Qed.

Lemma scaledSF_aligned s m e e' :
  -1074 <= e' <= e →
  scaledSF (S754_finite s m e)
  = Some (cond_Zopp s (Z.pos (shl_align m e e').1) * 2 ^ (e' + 1074)).
Proof.
  intros He. cbn [scaledSF]. f_equal.
  rewrite shl_align_val by lia.
  replace (e + 1074) with ((e - e') + (e' + 1074)) by lia.
  rewrite (Z.pow_add_r 2 (e - e') (e' + 1074)) by lia.
  destruct s; cbn [cond_Zopp]; lia.
Qed.

(** A sum that does not round is [-0] only when its first term is. *)
Lemma add_minusZero x y :
  addsExactly x y = true → ¬ minusZero x → ¬ minusZero (x + y).
Proof.
  unfold addsExactly, minusZero. intros Hex Nx Hz.
  destruct (scaled x) as [a|] eqn:Ha; [|discriminate].
  destruct (scaled y) as [b|] eqn:Hb; [|discriminate].
  destruct (scaled (x + y)) as [c|] eqn:Hc; [|discriminate].
  apply Z.eqb_eq in Hex. subst c.
  unfold scaled in Hc. rewrite Hz in Hc. injection Hc as Hc.
  rewrite add_spec in Hz. unfold SF64add in Hz. unfold scaled in Ha, Hb.
  destruct (Prim2SF x) as [sx| | |sx mx ex] eqn:Ex;
    destruct (Prim2SF y) as [sy| | |sy my ey] eqn:Ey;
    try discriminate Ha; try discriminate Hb;
    cbn [SFadd] in Hz; try discriminate Hz.
  - destruct sx, sy; congruence.
  - pose proof (valid_finite x _ _ _ Ex) as (Hx & _).
    pose proof (valid_finite y _ _ _ Ey) as (Hy & _).
    rewrite (scaledSF_aligned sx mx ex (Z.min ex ey)) in Ha by lia.
    rewrite (scaledSF_aligned sy my ey (Z.min ex ey)) in Hb by lia.
    injection Ha as <-. injection Hb as <-.
    assert (P : 0 < 2 ^ (Z.min ex ey + 1074)) by (apply Z.pow_pos_nonneg; lia).
    rewrite <- Z.mul_add_distr_r in Hc.
    assert (S0 : cond_Zopp sx (Z.pos (shl_align mx ex (Z.min ex ey)).1)
                 + cond_Zopp sy (Z.pos (shl_align my ey (Z.min ex ey)).1) = 0)
      by nia.
    rewrite S0 in Hz. discriminate Hz.
Qed.

Lemma sub_minusZero x y :
  subtractsExactly x y = true → ¬ minusZero x → ¬ minusZero (x - y).
Proof.
  unfold subtractsExactly, minusZero. intros Hex Nx Hz.
  destruct (scaled x) as [a|] eqn:Ha; [|discriminate].
  destruct (scaled y) as [b|] eqn:Hb; [|discriminate].
  destruct (scaled (x - y)) as [c|] eqn:Hc; [|discriminate].
  apply Z.eqb_eq in Hex. subst c.
  unfold scaled in Hc. rewrite Hz in Hc. injection Hc as Hc.
  rewrite sub_spec in Hz. unfold SF64sub in Hz. unfold scaled in Ha, Hb.
  destruct (Prim2SF x) as [sx| | |sx mx ex] eqn:Ex;
    destruct (Prim2SF y) as [sy| | |sy my ey] eqn:Ey;
    try discriminate Ha; try discriminate Hb;
    cbn [SFsub] in Hz; try discriminate Hz.
  - destruct sx, sy; congruence.
  - pose proof (valid_finite x _ _ _ Ex) as (Hx & _).
    pose proof (valid_finite y _ _ _ Ey) as (Hy & _).
    rewrite (scaledSF_aligned sx mx ex (Z.min ex ey)) in Ha by lia.
    rewrite (scaledSF_aligned sy my ey (Z.min ex ey)) in Hb by lia.
    injection Ha as <-. injection Hb as <-.
    assert (P : 0 < 2 ^ (Z.min ex ey + 1074)) by (apply Z.pow_pos_nonneg; lia).
    rewrite <- Z.mul_sub_distr_r in Hc.
    assert (S0 : cond_Zopp sx (Z.pos (shl_align mx ex (Z.min ex ey)).1)
                 - cond_Zopp sy (Z.pos (shl_align my ey (Z.min ex ey)).1) = 0)
      by nia.
    rewrite S0 in Hz. discriminate Hz.
Qed.

Lemma addsExactly_scaled x y a :
  addsExactly x y = true → scaled x = Some a →
  ∃ b, scaled y = Some b ∧ scaled (x + y) = Some (a + b).
Proof.
  unfold addsExactly. intros H Ha. rewrite Ha in H.
  destruct (scaled y) as [b|]; [|discriminate].
  destruct (scaled (x + y)) as [c|]; [|discriminate].
  apply Z.eqb_eq in H. subst c. eauto.
Qed.

Lemma subtractsExactly_scaled x y a :
  subtractsExactly x y = true → scaled x = Some a →
  ∃ b, scaled y = Some b ∧ scaled (x - y) = Some (a - b).
Proof.
  unfold subtractsExactly. intros H Ha. rewrite Ha in H.
  destruct (scaled y) as [b|]; [|discriminate].
  destruct (scaled (x - y)) as [c|]; [|discriminate].
  apply Z.eqb_eq in H. subst c. eauto.
Qed.

(** The three folds go along on the numbers: from a balance [i - e], an
    income [i] and an expense [e], none of them [-0], they end on [I - E],
    [I] and [E], none of them [-0]. *)
Lemma exact_folds (ts : list (transaction float)) :
  wellTyped ts →
  ∀ xb xi xe i e,
    scaled xb = Some (i - e) → scaled xi = Some i → scaled xe = Some e →
    ¬ minusZero xb → ¬ minusZero xi → ¬ minusZero xe →
    balanceExact xb ts = true →
    sumExact xi (List.filter (fun t => String.eqb (type t) "income") ts) = true →
    sumExact xe (List.filter (fun t => String.eqb (type t) "expense") ts) = true →
    ∃ I E,
      scaled
        (fold_left
           (fun balance t =>
              if String.eqb (type t) "income" then add balance (amount t)
              else sub balance (amount t)) ts xb) = Some (I - E)
      ∧ scaled
          (fold_left (fun sum t => add sum (amount t))
             (List.filter (fun t => String.eqb (type t) "income") ts) xi)
        = Some I
      ∧ scaled
          (fold_left (fun sum t => add sum (amount t))
             (List.filter (fun t => String.eqb (type t) "expense") ts) xe)
        = Some E
      ∧ ¬ minusZero
          (fold_left
             (fun balance t =>
                if String.eqb (type t) "income" then add balance (amount t)
                else sub balance (amount t)) ts xb)
      ∧ ¬ minusZero
          (fold_left (fun sum t => add sum (amount t))
             (List.filter (fun t => String.eqb (type t) "income") ts) xi).
Proof.
  induction ts as [|t ts IH]; intros Hty xb xi xe i e Hb Hi He Nb Ni Ne Xb Xi Xe.
  - exists i, e. cbn. auto.
  - apply Forall_cons in Hty as [Hk Hty].
    cbn [balanceExact List.filter] in Xb, Xi, Xe.
    cbn [fold_left List.filter].
    destruct Hk as [Hk | Hk]; rewrite Hk in *;
      cbn [String.eqb Ascii.eqb Bool.eqb fold_left sumExact] in *.
    + apply andb_true_iff in Xb as [Xb1 Xb2].
      apply andb_true_iff in Xi as [Xi1 Xi2].
      destruct (addsExactly_scaled _ _ _ Xb1 Hb) as (a & Ha & Hb').
      destruct (addsExactly_scaled _ _ _ Xi1 Hi) as (a' & Ha' & Hi').
      assert (a' = a) by congruence. subst a'.
      apply (IH Hty _ _ _ (i + a) e); try assumption.
      * refine (eq_trans Hb' _). f_equal. lia.
      * apply add_minusZero; assumption.
      * apply add_minusZero; assumption.
    + apply andb_true_iff in Xb as [Xb1 Xb2].
      apply andb_true_iff in Xe as [Xe1 Xe2].
      destruct (subtractsExactly_scaled _ _ _ Xb1 Hb) as (a & Ha & Hb').
      destruct (addsExactly_scaled _ _ _ Xe1 He) as (a' & Ha' & He').
      assert (a' = a) by congruence. subst a'.
      apply (IH Hty _ _ _ i (e + a)); try assumption.
      * refine (eq_trans Hb' _). f_equal. lia.
      * apply sub_minusZero; assumption.
      * apply add_minusZero; assumption.
Qed.

End NoRounding.

(** The identity in binary64, when nothing rounds. *)
Lemma balance_identity_unrounded (ts : list (transaction float)) :
  wellTyped ts → nothingRounds ts = true →
  Cli.calculateBalance ts
  = sub (Server.totalIncome (Server.getSummary ts))
        (Server.totalExpense (Server.getSummary ts)).
Proof.
  intros Hty Hn. unfold nothingRounds in Hn.
  apply andb_true_iff in Hn as [Hn Xs].
  apply andb_true_iff in Hn as [Hn Xe].
  apply andb_true_iff in Hn as [Xb Xi].
  assert (Z0 : ¬ minusZero 0%float) by (unfold minusZero; vm_compute; discriminate).
  destruct (exact_folds ts Hty 0%float 0%float 0%float 0 0)
    as (I & E & Hb & Hi & He & Nb & Ni);
    try reflexivity; try assumption.
  destruct (subtractsExactly_scaled _ _ _ Xs Hi) as (E' & He' & Hs).
  assert (HE : Some E' = Some E) by exact (eq_trans (eq_sym He') He).
  injection HE as ->.
  apply (scaled_inj _ _ (I - E)); [exact Hb | exact Hs | exact Nb |].
  apply sub_minusZero; assumption.
Qed.

(** ** Whole amounts do not round *)

Lemma whole_scaled x z :
  whole x z → Z.abs z < 2 ^ 53 → scaled x = Some (z * 2 ^ 1074).
Proof.
  unfold whole, scaled. intros -> Hz.
  destruct z as [|q|q]; [reflexivity| |].
  - destruct (wholeSF_pos q Hz) as [-> _]. cbn [scaledSF cond_Zopp].
    pose proof (digits_le_53 q Hz) as Hd.
    rewrite mantissa53_val by exact Hd.
    rewrite <- Z.mul_assoc, <- Z.pow_add_r by lia.
    replace (53 - Z.pos (digits2_pos q) + (Z.pos (digits2_pos q) - 53 + 1074))
      with 1074 by lia.
    reflexivity.
  - destruct (wholeSF_pos q Hz) as [_ ->]. cbn [scaledSF cond_Zopp].
    pose proof (digits_le_53 q Hz) as Hd.
    rewrite mantissa53_val by exact Hd.
    rewrite <- Z.mul_assoc, <- Z.pow_add_r by lia.
    replace (53 - Z.pos (digits2_pos q) + (Z.pos (digits2_pos q) - 53 + 1074))
      with 1074 by lia.
    reflexivity.
Qed.

Lemma whole_addsExactly x y a b :
  whole x a → whole y b →
  Z.abs a < 2 ^ 53 → Z.abs b < 2 ^ 53 → Z.abs (a + b) < 2 ^ 53 →
  addsExactly x y = true.
Proof.
  intros Hx Hy Ha Hb Hab. unfold addsExactly.
  rewrite (whole_scaled x a Hx Ha), (whole_scaled y b Hy Hb).
  rewrite (whole_scaled _ _ (whole_add x y a b Hx Hy Ha Hb Hab) Hab).
  apply Z.eqb_eq. lia.
Qed.

Lemma whole_subtractsExactly x y a b :
  whole x a → whole y b →
  Z.abs a < 2 ^ 53 → Z.abs b < 2 ^ 53 → Z.abs (a - b) < 2 ^ 53 →
  subtractsExactly x y = true.
Proof.
  intros Hx Hy Ha Hb Hab. unfold subtractsExactly.
  rewrite (whole_scaled x a Hx Ha), (whole_scaled y b Hy Hb).
  rewrite (whole_scaled _ _ (whole_sub x y a b Hx Hy Ha Hb Hab) Hab).
  apply Z.eqb_eq. lia.
Qed.

(** No step of the three folds rounds on whole amounts. *)
Lemma whole_steps ts zs :
  wholeAmounts ts zs → wellTyped ts →
  ∀ xb xi xe i e,
    whole xb (i - e) → whole xi i → whole xe e →
    0 <= i → 0 <= e → i + e + total zs < 2 ^ 53 →
    balanceExact xb ts = true
    ∧ sumExact xi (List.filter (fun t => String.eqb (type t) "income") ts)
      = true
    ∧ sumExact xe (List.filter (fun t => String.eqb (type t) "expense") ts)
      = true.
Proof.
  induction 1 as [|t z ts zs [Ht Hz] Hrest IH];
    intros Hty xb xi xe i e Hb Hi He Hi0 He0 Hsum.
  - repeat split.
  - apply Forall_cons in Hty as [Hk Hty].
    pose proof (total_nonneg _ _ Hrest) as Hnn.
    cbn [total fold_right] in Hsum. fold (total zs) in Hsum.
    cbn [balanceExact List.filter].
    destruct Hk as [Hk | Hk]; rewrite Hk;
      cbn [String.eqb Ascii.eqb Bool.eqb sumExact].
    + rewrite (whole_addsExactly xb (amount t) (i - e) z) by (assumption || lia).
      rewrite (whole_addsExactly xi (amount t) i z) by (assumption || lia).
      cbn [andb].
      apply (IH Hty _ _ _ (i + z) e); try lia; try assumption.
      * replace (i + z - e) with (i - e + z) by lia.
        apply whole_add; try assumption; lia.
      * apply whole_add; try assumption; lia.
    + rewrite (whole_subtractsExactly xb (amount t) (i - e) z)
        by (assumption || lia).
      rewrite (whole_addsExactly xe (amount t) e z) by (assumption || lia).
      cbn [andb].
      apply (IH Hty _ _ _ i (e + z)); try lia; try assumption.
      * replace (i - (e + z)) with (i - e - z) by lia.
        apply whole_sub; try assumption; lia.
      * apply whole_add; try assumption; lia.
Qed.

(** Nothing rounds on whole amounts, none negative, with a sum below
    2^53. *)
Lemma whole_nothingRounds (ts : list (transaction float)) (zs : list Z) :
  wellTyped ts → wholeAmounts ts zs → total zs < 2 ^ 53 →
  nothingRounds ts = true.
Proof.
  intros Hty Hw Hsum.
  destruct (whole_steps ts zs Hw Hty 0%float 0%float 0%float 0 0)
    as (Xb & Xi & Xe); try reflexivity; try lia.
  destruct (whole_folds ts zs Hw Hty 0%float 0%float 0%float 0 0)
    as (I & E & Hb & Hi & He & HI & HE & HIE);
    try reflexivity; try lia.
  unfold nothingRounds. rewrite Xb, Xi, Xe. cbn [andb].
  apply (whole_subtractsExactly _ _ I E); try assumption; lia.
Qed.

(** A half and a quarter do not round; the tenths of the counterexample
    do. *)
Lemma rounding_samples :
  nothingRounds halves = true ∧ nothingRounds threeDimes = false
  ∧ nothingRounds salaryAndRent64 = true.
Proof. repeat split; vm_compute; reflexivity. Qed.

(** The [balance] of the summary is the difference of its two totals in
    any arithmetic: line 63 computes it so. *)
Lemma summary_balance_by_definition {num : Type} `{Arith num}
    (ts : list (transaction num)) :
  Server.balance (Server.getSummary ts)
  = sub (Server.totalIncome (Server.getSummary ts))
        (Server.totalExpense (Server.getSummary ts)).
Proof. reflexivity. Qed.

(** C1, as the code has it.  When every transaction is an income or an
    expense and no addition or subtraction rounds, the balance of
    [calculateBalance] (and of GET /api/balance, and of [viewBalance]) is
    the income total minus the expense total of GET /api/summary, which is
    the [balance] field of the summary.  Nothing rounds in an exact
    arithmetic.  In binary64 nothing rounds when every step of the running
    balance, every step of the two totals and the last subtraction give
    the sum or the difference of the two numbers ([nothingRounds]); that is
    so when the amounts are whole numbers, none negative, with a sum below
    2^53, and for other amounts as well: a half in and a quarter out. *)
Theorem balance_is_income_minus_expense {num : Type} `{Exact num}
    (ts : list (transaction num))
    (ts64 : list (transaction float)) (zs : list Z) :
  (wellTyped ts →
   Cli.calculateBalance ts
   = sub (Server.totalIncome (Server.getSummary ts))
         (Server.totalExpense (Server.getSummary ts)))
  ∧ (wellTyped ts64 → wholeAmounts ts64 zs → total zs < 2 ^ 53 →
     Cli.calculateBalance ts64
     = (Server.totalIncome (Server.getSummary ts64)
        - Server.totalExpense (Server.getSummary ts64))%float
     ∧ Cli.calculateBalance ts64 = Server.balance (Server.getSummary ts64)
     ∧ Server.getBalance ts64 = Server.balance (Server.getSummary ts64)
     ∧ Cli.shownBalance (Cli.viewBalance ts64)
       = (Cli.shownIncome (Cli.viewBalance ts64)
          - Cli.shownExpenses (Cli.viewBalance ts64))%float)
  ∧ (wellTyped ts64 → nothingRounds ts64 = true →
     Cli.calculateBalance ts64
     = (Server.totalIncome (Server.getSummary ts64)
        - Server.totalExpense (Server.getSummary ts64))%float
     ∧ Cli.calculateBalance ts64 = Server.balance (Server.getSummary ts64)
     ∧ Server.getBalance ts64 = Server.balance (Server.getSummary ts64)
     ∧ Cli.shownBalance (Cli.viewBalance ts64)
       = (Cli.shownIncome (Cli.viewBalance ts64)
          - Cli.shownExpenses (Cli.viewBalance ts64))%float)
  ∧ (wellTyped ts64 → wholeAmounts ts64 zs → total zs < 2 ^ 53 →
     nothingRounds ts64 = true).
Proof.
  split; [apply balance_identity_exact|].
  split; [|split].
  - intros Hty Hw Hsum.
    pose proof (balance_identity_whole ts64 zs Hty Hw Hsum) as E.
    repeat split; exact E.
  - intros Hty Hn.
    pose proof (balance_identity_unrounded ts64 Hty Hn) as E.
    repeat split; exact E.
  - apply whole_nothingRounds.
Qed.

Lemma balance_is_income_minus_expense_witness :
  Cli.calculateBalance salaryAndRent = 600
  ∧ Cli.calculateBalance salaryAndRent64 = 600%float
  ∧ Server.totalIncome (Server.getSummary salaryAndRent64) = 1000%float
  ∧ Server.totalExpense (Server.getSummary salaryAndRent64) = 400%float
  ∧ Cli.calculateBalance salaryAndRent
    = sub (Server.totalIncome (Server.getSummary salaryAndRent))
          (Server.totalExpense (Server.getSummary salaryAndRent))
  ∧ Cli.calculateBalance salaryAndRent64
    = (Server.totalIncome (Server.getSummary salaryAndRent64)
       - Server.totalExpense (Server.getSummary salaryAndRent64))%float
  ∧ nothingRounds halves = true
  ∧ Cli.calculateBalance halves = 0.25%float
  ∧ Cli.calculateBalance halves
    = (Server.totalIncome (Server.getSummary halves)
       - Server.totalExpense (Server.getSummary halves))%float
  ∧ nothingRounds salaryAndRent64 = true.
Proof.
  assert (Hty : wellTyped salaryAndRent) by typed.
  assert (Hty64 : wellTyped salaryAndRent64) by typed.
  assert (Hhalves : wellTyped halves) by typed.
  assert (Hw : wholeAmounts salaryAndRent64 [1000; 400]).
  { repeat constructor; try (vm_compute; reflexivity); discriminate. }
  assert (Hsum : total [1000; 400] < 2 ^ 53) by reflexivity.
  assert (Hn : nothingRounds halves = true) by (vm_compute; reflexivity).
  destruct (balance_is_income_minus_expense salaryAndRent salaryAndRent64
              [1000; 400]) as (E & F & _ & W).
  destruct (balance_is_income_minus_expense salaryAndRent halves [])
    as (_ & _ & G & _).
  split; [reflexivity|]. split; [vm_compute; reflexivity|].
  split; [vm_compute; reflexivity|]. split; [vm_compute; reflexivity|].
  split; [exact (E Hty)|]. split; [exact (proj1 (F Hty64 Hw Hsum))|].
  split; [exact Hn|]. split; [vm_compute; reflexivity|].
  split; [exact (proj1 (G Hhalves Hn)) | exact (W Hty64 Hw Hsum)].
Defined.

(** C1, as the specification states it, fails in binary64: the running
    balance of 0.1 in, 0.3 out, 0.2 in is 2.7755575615628914e-17, while
    income minus expense is 5.551115123125783e-17. *)
Lemma balance_identity_fails_in_binary64 :
  wellTyped threeDimes
  ∧ Cli.calculateBalance threeDimes = 2.7755575615628914e-17%float
  ∧ sub (Server.totalIncome (Server.getSummary threeDimes))
        (Server.totalExpense (Server.getSummary threeDimes))
    = 5.551115123125783e-17%float
  ∧ PrimFloat.eqb (Cli.calculateBalance threeDimes)
      (sub (Server.totalIncome (Server.getSummary threeDimes))
           (Server.totalExpense (Server.getSummary threeDimes))) = false
  ∧ Cli.calculateBalance threeDimes
    ≠ sub (Server.totalIncome (Server.getSummary threeDimes))
          (Server.totalExpense (Server.getSummary threeDimes)).
Proof.
  split; [typed|].
  split; [vm_compute; reflexivity|].
  split; [vm_compute; reflexivity|].
  split; [vm_compute; reflexivity|].
  intros E.
  assert (F : PrimFloat.eqb (Cli.calculateBalance threeDimes)
                (sub (Server.totalIncome (Server.getSummary threeDimes))
                     (Server.totalExpense (Server.getSummary threeDimes)))
              = true).
  { rewrite <- E. vm_compute. reflexivity. }
  vm_compute in F. discriminate F.
Qed.

(* ================================================================== *)
(** * Adding a transaction at the prompt *)
(* ================================================================== *)

Lemma addTransaction_rejected ty description amountStr now file :
  rejectedAmount (JS.parseFloat amountStr) = true →
  Cli.addTransaction ty description amountStr now file
  = (file, Cli.InvalidAmount).
Proof.
  unfold Cli.addTransaction, rejectedAmount. intros ->. reflexivity.
Qed.

Lemma addTransaction_accepted ty description amountStr now file :
  rejectedAmount (JS.parseFloat amountStr) = false →
  Cli.addTransaction ty description amountStr now file
  = (file ++ [{| primeId := now; description := JS.trim description;
                 amount := JS.parseFloat amountStr; type := ty |}],
     Cli.Added).
Proof.
  unfold Cli.addTransaction, rejectedAmount. intros ->. reflexivity.
Qed.

Lemma trimStart_blank s : blank (JS.trimStart s) = blank s.
Proof.
  induction s as [|c s IH]; [reflexivity|]. cbn.
  destruct (JS.isWhiteSpace c) eqn:Hc; cbn; [exact IH|].
  rewrite Hc. reflexivity.
Qed.

Lemma trimEnd_empty s : JS.trimEnd s = EmptyString ↔ blank s = true.
Proof.
  induction s as [|c s IH]; [split; reflexivity|]. cbn.
  destruct (JS.trimEnd s) as [|d r].
  - rewrite (proj1 IH eq_refl), andb_true_r.
    destruct (JS.isWhiteSpace c); split; congruence.
  - destruct (blank s); [destruct IH as [_ IH]; discriminate (IH eq_refl)|].
    rewrite andb_false_r. split; discriminate.
Qed.

(** A description is empty after trimming exactly when it is blank. *)
Lemma trim_empty s : JS.trim s = EmptyString ↔ blank s = true.
Proof. unfold JS.trim. rewrite trimEnd_empty, trimStart_blank. reflexivity. Qed.

(* ================================================================== *)
(** * Deleting by position at the prompt *)
(* ================================================================== *)

(** [splice(NaN, 1)] starts at the index 0. *)
Lemma splice_first {A} (x : A) (l : list A) :
  JS.splice (x :: l) JS.NaN 1 = ([x], l).
Proof.
  unfold JS.splice. cbn [JS.toIntegerOrInfinity JS.clampIndex Z.ltb Z.compare].
  replace (Z.min 0 (Z.of_nat (length (x :: l)))) with 0 by (cbn; lia).
  replace (Z.min (Z.max 1 0) (Z.of_nat (length (x :: l)) - 0)) with 1
    by (cbn [length]; lia).
  cbn. rewrite take_0, drop_0. reflexivity.
Qed.

(* ================================================================== *)
(** * The routes that address a record by its id *)
(* ================================================================== *)

Lemma hasId_carries id t : hasId id t = true ↔ carries id t.
Proof.
  unfold hasId, carries.
  destruct (t !! "id") as [[| | | s | |]|]; try (split; congruence).
  rewrite String.eqb_eq. split; congruence.
Qed.

Lemma hasId_not_carries id t : hasId id t = false ↔ ¬ carries id t.
Proof.
  rewrite <- hasId_carries. destruct (hasId id t); split; congruence.
Qed.

Section FindIndex.
Context {A : Type} (p : A → bool).

Lemma findIndexFrom_none (a : list A) : ∀ i,
  Forall (fun y => p y = false) a → JS.findIndexFrom p a i = -1.
Proof.
  induction a as [|y a IH]; intros i Ha; [reflexivity|].
  apply Forall_cons in Ha as [Hy Ha]. cbn. rewrite Hy. apply IH, Ha.
Qed.

Lemma findIndexFrom_first (pre : list A) x post : ∀ i,
  Forall (fun y => p y = false) pre → p x = true →
  JS.findIndexFrom p (pre ++ x :: post) i = i + Z.of_nat (length pre).
Proof.
  induction pre as [|y pre IH]; intros i Hpre Hx; cbn.
  - rewrite Hx. lia.
  - apply Forall_cons in Hpre as [Hy Hpre]. rewrite Hy, IH by assumption. lia.
Qed.

(** Either no element satisfies [p], or the array splits at the first one
    that does. *)
Lemma first_match (a : list A) :
  Forall (fun y => p y = false) a
  ∨ ∃ pre x post,
      a = pre ++ x :: post ∧ Forall (fun y => p y = false) pre ∧ p x = true.
Proof.
  induction a as [|y a [IH | (pre & x & post & -> & Hpre & Hx)]].
  - left. constructor.
  - destruct (p y) eqn:Hy.
    + right. exists [], y, a. repeat split; [constructor | exact Hy].
    + left. constructor; assumption.
  - destruct (p y) eqn:Hy.
    + right. exists [], y, (pre ++ x :: post).
      repeat split; [constructor | exact Hy].
    + right. exists (y :: pre), x, post.
      repeat split; [constructor; assumption | exact Hx].
Qed.
End FindIndex.

Lemma splice_one {A} (pre : list A) x post :
  JS.splice (pre ++ x :: post) (JS.Int (Z.of_nat (length pre))) 1
  = ([x], pre ++ post).
Proof.
  unfold JS.splice, JS.clampIndex. cbn [JS.toIntegerOrInfinity].
  rewrite length_app. cbn [length].
  destruct (Z.ltb_spec (Z.of_nat (length pre)) 0) as [?|_]; [lia|].
  replace (Z.min (Z.of_nat (length pre)) (Z.of_nat (length pre + S (length post))))
    with (Z.of_nat (length pre)) by lia.
  replace (Z.min (Z.max 1 0) _) with 1 by lia.
  replace (Z.to_nat (Z.of_nat (length pre) + 1)) with (length pre + 1)%nat by lia.
  rewrite Nat2Z.id, drop_app_length, take_app_length, drop_app_add.
  reflexivity.
Qed.

Lemma not_carried_no_match id (ts : list (gmap string value)) :
  Forall (fun t => ¬ carries id t) ts → Forall (fun t => hasId id t = false) ts.
Proof.
  intros H. eapply Forall_impl; [exact H|]. intros t. apply hasId_not_carries.
Qed.

(** DELETE on an id that no record carries. *)
Lemma delete_absent id ts :
  Forall (fun t => ¬ carries id t) ts →
  deleteTransaction id ts = (ts, notFound).
Proof.
  intros H%not_carried_no_match. unfold deleteTransaction, JS.findIndex.
  rewrite findIndexFrom_none by exact H. reflexivity.
Qed.

(** DELETE on the id of [t], the first record to carry it. *)
Lemma delete_present id pre t post :
  Forall (fun u => ¬ carries id u) pre → carries id t →
  deleteTransaction id (pre ++ t :: post)
  = (pre ++ post, {| status := 204; body := None |}).
Proof.
  intros Hpre%not_carried_no_match Ht%hasId_carries.
  unfold deleteTransaction, JS.findIndex.
  rewrite findIndexFrom_first by assumption. rewrite Z.add_0_l.
  destruct (Z.eqb_spec (Z.of_nat (length pre)) (-1)) as [?|_]; [lia|].
  cbn [negb]. rewrite splice_one. reflexivity.
Qed.

(** PUT on an id that no record carries. *)
Lemma put_absent id reqBody ts :
  Forall (fun t => ¬ carries id t) ts →
  putTransaction id reqBody ts = (ts, notFound).
Proof.
  intros H%not_carried_no_match. unfold putTransaction, JS.findIndex.
  rewrite findIndexFrom_none by exact H. reflexivity.
Qed.

(** PUT on the id of [old], the first record to carry it. *)
Lemma put_present id reqBody pre old post :
  Forall (fun u => ¬ carries id u) pre → carries id old →
  putTransaction id reqBody (pre ++ old :: post)
  = (pre ++ (reqBody ∪ old) :: post,
     {| status := 200; body := Some (VObj (reqBody ∪ old)) |}).
Proof.
  intros Hpre%not_carried_no_match Hold%hasId_carries.
  unfold putTransaction, JS.findIndex.
  rewrite findIndexFrom_first by assumption. rewrite Z.add_0_l.
  destruct (Z.eqb_spec (Z.of_nat (length pre)) (-1)) as [?|_]; [lia|].
  cbn [negb]. rewrite Nat2Z.id.
  rewrite list_lookup_middle by reflexivity. cbn [default].
  rewrite insert_app_r_alt by lia. rewrite Nat.sub_diag. reflexivity.
Qed.

(** Any ledger is in one of the two cases. *)
Lemma carried_or_not id (ts : list (gmap string value)) :
  Forall (fun t => ¬ carries id t) ts
  ∨ ∃ pre t post,
      ts = pre ++ t :: post ∧ Forall (fun u => ¬ carries id u) pre
      ∧ carries id t.
Proof.
  destruct (first_match (hasId id) ts) as [H | (pre & t & post & -> & Hpre & Ht)].
  - left. eapply Forall_impl; [exact H|]. intros t. apply hasId_not_carries.
  - right. exists pre, t, post. repeat split.
    + eapply Forall_impl; [exact Hpre|]. intros u. apply hasId_not_carries.
    + apply hasId_carries, Ht.
Qed.

(** C3, as the code has it.  DELETE on an id that no record carries answers
    404 and leaves the ledger as it is; on an id that some record carries it
    removes the first such record, keeps the others in their order, and
    answers 204 with no body: the removed record is not sent back.  Every
    ledger is in one of the two cases. *)
Theorem delete_by_id (id : string) (ts : list (gmap string value)) :
  (Forall (fun t => ¬ carries id t) ts →
   deleteTransaction id ts = (ts, notFound)
   ∧ length (deleteTransaction id ts).1 = length ts)
  ∧ (∀ pre t post,
       ts = pre ++ t :: post →
       Forall (fun u => ¬ carries id u) pre → carries id t →
       deleteTransaction id ts
       = (pre ++ post, {| status := 204; body := None |})
       ∧ S (length (deleteTransaction id ts).1) = length ts)
  ∧ (Forall (fun t => ¬ carries id t) ts
     ∨ ∃ pre t post,
         ts = pre ++ t :: post ∧ Forall (fun u => ¬ carries id u) pre
         ∧ carries id t).
Proof.
  split; [|split].
  - intros H. rewrite delete_absent by exact H. split; reflexivity.
  - intros pre t post -> Hpre Ht.
    rewrite delete_present by assumption. split; [reflexivity|].
    cbn [fst]. rewrite !length_app. cbn [length]. lia.
  - apply carried_or_not.
Qed.

Lemma delete_by_id_witness :
  deleteTransaction "1600000000000" rentLedger = (rentLedger, notFound)
  ∧ deleteTransaction "1700000000000" rentLedger
    = ([], {| status := 204; body := None |}).
Proof.
  split.
  - refine (proj1 (proj1 (delete_by_id "1600000000000" rentLedger) _)).
    repeat constructor. intros H. vm_compute in H. discriminate H.
  - refine (proj1 (proj1 (proj2 (delete_by_id "1700000000000" rentLedger))
                     [] rentRecord [] eq_refl _ _)).
    + constructor.
    + vm_compute. reflexivity.
Defined.

(** C3, as the specification states it, fails: the record removed by
    DELETE is not returned. *)
Lemma delete_sends_no_record :
  carries "1700000000000" rentRecord
  ∧ rentLedger = [rentRecord]
  ∧ deleteTransaction "1700000000000" rentLedger
    = ([], {| status := 204; body := None |})
  ∧ body (deleteTransaction "1700000000000" rentLedger).2
    ≠ Some (VObj rentRecord).
Proof.
  assert (E : deleteTransaction "1700000000000" rentLedger
              = ([], {| status := 204; body := None |})).
  { apply (delete_present "1700000000000" [] rentRecord []);
      [constructor | vm_compute; reflexivity]. }
  split; [vm_compute; reflexivity|]. split; [reflexivity|].
  split; [exact E|]. rewrite E. discriminate.
Qed.

(** C4, as the code has it.  PUT on the id of [old], the first record to
    carry it, puts in its place the record merged with every field of the
    body, whatever its name: a field the body supplies has the body's value,
    a field it does not supply keeps the record's value.  So the id stays
    exactly when the body has no [id] field or has the id of the record in
    it, and a body with another [id] sets the id to that.  The other records
    stay as they are. *)
Theorem update_merges_body (id : string) (reqBody : gmap string value)
    (pre : list (gmap string value)) (old : gmap string value)
    (post : list (gmap string value)) :
  Forall (fun u => ¬ carries id u) pre → carries id old →
  putTransaction id reqBody (pre ++ old :: post)
  = (pre ++ (reqBody ∪ old) :: post,
     {| status := 200; body := Some (VObj (reqBody ∪ old)) |})
  ∧ (∀ k v, reqBody !! k = Some v → (reqBody ∪ old) !! k = Some v)
  ∧ (∀ k, reqBody !! k = None → (reqBody ∪ old) !! k = old !! k)
  ∧ (reqBody !! "id" = None → carries id (reqBody ∪ old))
  ∧ ((reqBody ∪ old) !! "id" = old !! "id"
     ↔ reqBody !! "id" = None ∨ reqBody !! "id" = old !! "id").
Proof.
  intros Hpre Hold. split; [apply put_present; assumption|].
  split; [|split; [|split]].
  - intros k v Hk. apply lookup_union_Some_l, Hk.
  - intros k Hk. apply lookup_union_r, Hk.
  - intros Hk. unfold carries. rewrite lookup_union_r by exact Hk. exact Hold.
  - destruct (reqBody !! "id") as [v|] eqn:Hk.
    + rewrite (lookup_union_Some_l _ _ _ _ Hk). split.
      * intros E. right. exact E.
      * intros [E | E]; [discriminate E | exact E].
    + rewrite lookup_union_r by exact Hk. split; [left|]; reflexivity.
Qed.

Lemma update_merges_body_witness :
  putTransaction "1700000000000" {[ "amount" := VNum 450%float ]} rentLedger
  = ([ {[ "amount" := VNum 450%float ]} ∪ rentRecord ],
     {| status := 200;
        body := Some (VObj ({[ "amount" := VNum 450%float ]} ∪ rentRecord)) |})
  ∧ ({[ "amount" := VNum 450%float ]} ∪ rentRecord) !! "id"
    = Some (VStr "1700000000000").
Proof.
  assert (Hid : carries "1700000000000" rentRecord) by (vm_compute; reflexivity).
  destruct (update_merges_body "1700000000000" {[ "amount" := VNum 450%float ]}
              [] rentRecord [] ltac:(constructor) Hid) as (E & _ & _ & K & _).
  split; [exact E|]. apply K. vm_compute. reflexivity.
Defined.

(** C4, as the specification states it, fails: a body with an [id] field
    changes the id of the record, and a field that is none of description,
    amount and type is merged as well. *)
Lemma update_overwrites_id :
  carries "1700000000000" rentRecord
  ∧ rentLedger = [rentRecord]
  ∧ ∃ t, (putTransaction "1700000000000"
            {[ "id" := VStr "42"; "paid" := VBool true ]} rentLedger).1 = [t]
         ∧ t !! "id" = Some (VStr "42")
         ∧ t !! "id" ≠ rentRecord !! "id"
         ∧ t !! "paid" = Some (VBool true)
         ∧ rentRecord !! "paid" = None.
Proof.
  split; [vm_compute; reflexivity|]. split; [reflexivity|].
  eexists. split; [vm_compute; reflexivity|].
  repeat split; try (vm_compute; reflexivity).
  vm_compute. discriminate.
Qed.

(* ================================================================== *)
(** * What is checked before a transaction is stored *)
(* ================================================================== *)

(** POST stores the body as it comes, with its id. *)
Lemma post_appends now reqBody ts :
  postTransaction now reqBody ts
  = (ts ++ [<["id" := VStr (pretty now)]> reqBody],
     {| status := 201;
        body := Some (VObj (<["id" := VStr (pretty now)]> reqBody)) |}).
Proof. reflexivity. Qed.

Lemma post_keeps_field (now : Z) (reqBody : gmap string value) k :
  k ≠ "id" → (<["id" := VStr (pretty now)]> reqBody) !! k = reqBody !! k.
Proof. intros Hk. apply lookup_insert_ne. congruence. Qed.

(** [Infinity] passes the guard of the prompt. *)
Lemma infinity_is_taken ty description now file :
  Cli.addTransaction ty description "Infinity" now file
  = (file ++ [{| primeId := now; description := JS.trim description;
                 amount := infinity; type := ty |}], Cli.Added).
Proof. apply addTransaction_accepted. vm_compute. reflexivity. Qed.

(** C2, as the code has it.  At the prompt, an add whose amount
    [parseFloat] turns into NaN, zero or a negative number is refused and
    the file stays as it is.  PUT checks nothing: it merges the body into
    the record whatever its [amount] is, and answers 200. *)
Theorem amount_is_checked_at_the_prompt_only
    (ty description amountStr : string) (now : Z)
    (file : list (transaction float))
    (id : string) (reqBody : gmap string value) (v : value)
    (pre : list (gmap string value)) (old : gmap string value)
    (post : list (gmap string value)) :
  rejectedAmount (JS.parseFloat amountStr) = true →
  reqBody !! "amount" = Some v →
  Forall (fun u => ¬ carries id u) pre → carries id old →
  Cli.addTransaction ty description amountStr now file
  = (file, Cli.InvalidAmount)
  ∧ (∃ t, putTransaction id reqBody (pre ++ old :: post)
          = (pre ++ t :: post, {| status := 200; body := Some (VObj t) |})
          ∧ t !! "amount" = Some v).
Proof.
  intros Hbad Hv Hpre Hold. split.
  - apply addTransaction_rejected, Hbad.
  - eexists. split; [apply put_present; assumption|].
    apply lookup_union_Some_l, Hv.
Qed.

Lemma amount_is_checked_at_the_prompt_only_witness :
  Cli.addTransaction "expense" "Rent" "-5" 1700000000000 [] = ([], Cli.InvalidAmount)
  ∧ ∃ t, putTransaction "1700000000000" {[ "amount" := VNum (-5)%float ]} rentLedger
         = ([t], {| status := 200; body := Some (VObj t) |})
         ∧ t !! "amount" = Some (VNum (-5)%float).
Proof.
  destruct (amount_is_checked_at_the_prompt_only "expense" "Rent" "-5"
              1700000000000 [] "1700000000000"
              {[ "amount" := VNum (-5)%float ]} (VNum (-5)%float)
              [] rentRecord [])
    as (E & F).
  - vm_compute. reflexivity.
  - vm_compute. reflexivity.
  - constructor.
  - vm_compute. reflexivity.
  - split; [exact E | exact F].
Defined.

(** C2, as the specification states it, fails: [update(id, {amount:-5})]
    answers 200 and the record's amount is -5 from then on. *)
Lemma update_takes_negative_amount :
  carries "1700000000000" rentRecord
  ∧ rentLedger = [rentRecord]
  ∧ rentRecord !! "amount" = Some (VNum 400%float)
  ∧ ∃ t, putTransaction "1700000000000" {[ "amount" := VNum (-5)%float ]}
           rentLedger
         = ([t], {| status := 200; body := Some (VObj t) |})
         ∧ t !! "amount" = Some (VNum (-5)%float)
         ∧ (-5 <=? 0)%float = true
         ∧ [t] ≠ rentLedger.
Proof.
  split; [vm_compute; reflexivity|]. split; [reflexivity|].
  split; [vm_compute; reflexivity|].
  eexists. split; [vm_compute; reflexivity|].
  split; [vm_compute; reflexivity|]. split; [vm_compute; reflexivity|].
  intros E.
  assert (F : ∀ l : list (gmap string value), l = rentLedger →
              (l !! 0%nat) ≫= (.!! "amount") = Some (VNum 400%float)).
  { intros l ->. vm_compute. reflexivity. }
  specialize (F _ E).
  apply (f_equal (fun o => match o with
                           | Some (VNum n) => (n <? 0)%float
                           | _ => false
                           end)) in F.
  vm_compute in F. discriminate F.
Qed.

(** C9, as the code has it.  A description that trims to nothing does not
    stop an add: at the prompt the transaction is stored with the empty
    description as soon as the amount passes, and is refused for its amount
    only; POST stores the description untrimmed. *)
Theorem blank_description_is_stored
    (ty description amountStr : string) (now : Z)
    (file : list (transaction float))
    (reqBody : gmap string value) (ts : list (gmap string value)) :
  JS.trim description = EmptyString →
  (rejectedAmount (JS.parseFloat amountStr) = false →
   Cli.addTransaction ty description amountStr now file
   = (file ++ [{| primeId := now; description := EmptyString;
                  amount := JS.parseFloat amountStr; type := ty |}],
      Cli.Added))
  ∧ (rejectedAmount (JS.parseFloat amountStr) = true →
     Cli.addTransaction ty description amountStr now file
     = (file, Cli.InvalidAmount))
  ∧ (reqBody !! "description" = Some (VStr description) →
     ∃ t, postTransaction now reqBody ts
          = (ts ++ [t], {| status := 201; body := Some (VObj t) |})
          ∧ t !! "description" = Some (VStr description)).
Proof.
  intros Hd. split; [|split].
  - intros Hok. rewrite addTransaction_accepted by exact Hok.
    rewrite Hd. reflexivity.
  - apply addTransaction_rejected.
  - intros Hb. eexists. split; [apply post_appends|].
    rewrite post_keeps_field by discriminate. exact Hb.
Qed.

Lemma blank_description_is_stored_witness :
  JS.trim "  " = EmptyString
  ∧ Cli.addTransaction "income" "  " "10" 1700000000000 []
    = ([{| primeId := 1700000000000; description := EmptyString;
           amount := JS.parseFloat "10"; type := "income" |}], Cli.Added).
Proof.
  split; [reflexivity|].
  refine (proj1 (blank_description_is_stored "income" "  " "10" 1700000000000
                   [] ∅ [] eq_refl) _).
  vm_compute. reflexivity.
Defined.

(** C9, as the specification states it, fails:
    [add({description:"  ", amount:10, type:"income"})] is taken, and the
    ledger has one more transaction, with an empty description. *)
Lemma blank_description_is_not_refused :
  JS.trim "  " = EmptyString
  ∧ Cli.addTransaction "income" "  " "10" 1700000000000 []
    = ([{| primeId := 1700000000000; description := EmptyString;
           amount := 10%float; type := "income" |}], Cli.Added)
  ∧ (∃ t, postTransaction 1700000000000
            {[ "description" := VStr "  "; "amount" := VNum 10%float;
               "type" := VStr "income" ]} []
          = ([t], {| status := 201; body := Some (VObj t) |})
          ∧ t !! "description" = Some (VStr "  ")).
Proof.
  split; [reflexivity|]. split; [vm_compute; reflexivity|].
  eexists. split; [reflexivity|]. vm_compute. reflexivity.
Qed.

(* ================================================================== *)
(** * The most recent transactions *)
(* ================================================================== *)

(** ** A limit written in decimal reads as the integer it spells *)

Lemma digitValue_char (d : N) :
  (d < 10)%N → JS.digitValue (pretty_N_char d) = Some (Z.of_N d).
Proof.
  intros Hd.
  assert (d = 0 ∨ d = 1 ∨ d = 2 ∨ d = 3 ∨ d = 4 ∨ d = 5 ∨ d = 6 ∨ d = 7
          ∨ d = 8 ∨ d = 9)%N as H by lia.
  repeat destruct H as [-> | H]; try subst d; reflexivity.
Qed.

Lemma digits_pretty_go (x : N) : ∀ s acc,
  (0 < x)%N → default 0 acc = 0 →
  JS.digits 10 (pretty_N_go x s) acc = JS.digits 10 s (Some (Z.of_N x)).
Proof.
  induction (N.lt_wf_0 x) as [x _ IH]. intros s acc Hx Hacc.
  rewrite pretty_N_go_step by exact Hx.
  assert (Hm : (x `mod` 10 < 10)%N) by (apply N.mod_lt; lia).
  destruct (N.eq_dec (x `div` 10)%N 0%N) as [E | E].
  - rewrite E, pretty_N_go_0. cbn [JS.digits].
    rewrite digitValue_char by exact Hm.
    destruct (Z.ltb_spec (Z.of_N (x `mod` 10)) 10) as [_|?]; [|lia].
    rewrite Hacc. f_equal. f_equal.
    pose proof (N.div_mod x 10%N ltac:(lia)) as K. rewrite E in K.
    set (m := (x `mod` 10)%N) in *. clearbody m. lia.
  - assert (Hq : (0 < x `div` 10)%N) by (apply N.neq_0_lt_0, E).
    assert (Hlt : (x `div` 10 < x)%N) by (apply N.div_lt; [exact Hx | reflexivity]).
    rewrite (IH _ Hlt _ _ Hq Hacc).
    cbn [JS.digits]. rewrite digitValue_char by exact Hm.
    destruct (Z.ltb_spec (Z.of_N (x `mod` 10)) 10) as [_|?]; [|lia].
    cbn [default]. f_equal. f_equal.
    pose proof (N.div_mod x 10%N ltac:(lia)) as K.
    set (m := (x `mod` 10)%N) in *. set (q := (x `div` 10)%N) in *.
    clearbody m q. unfold id. lia.
Qed.

Lemma pretty_go_head (x : N) : ∀ s,
  (0 < x)%N →
  ∃ d r, pretty_N_go x s = String (pretty_N_char d) r ∧ (0 < d < 10)%N.
Proof.
  induction (N.lt_wf_0 x) as [x _ IH]. intros s Hx.
  rewrite pretty_N_go_step by exact Hx.
  destruct (N.eq_dec (x `div` 10)%N 0%N) as [E | E].
  - rewrite E, pretty_N_go_0. exists (x `mod` 10)%N, s. split; [reflexivity|].
    pose proof (N.div_mod x 10%N ltac:(lia)) as K. rewrite E in K.
    pose proof (N.mod_lt x 10%N ltac:(lia)).
    set (m := (x `mod` 10)%N) in *. clearbody m. lia.
  - apply IH; [apply N.div_lt; [exact Hx | reflexivity] | apply N.neq_0_lt_0, E].
Qed.


Lemma parseInt_leading_digit (d : N) (r : string) :
  (0 < d < 10)%N →
  JS.parseInt (String (pretty_N_char d) r)
  = match JS.digits 10 (String (pretty_N_char d) r) None with
    | Some m => JS.Int (1 * m)
    | None => JS.NaN
    end
  ∧ JS.parseInt (String "-" (String (pretty_N_char d) r))
    = match JS.digits 10 (String (pretty_N_char d) r) None with
      | Some m => JS.Int (-1 * m)
      | None => JS.NaN
      end.
Proof.
  intros Hd.
  assert (d = 1 ∨ d = 2 ∨ d = 3 ∨ d = 4 ∨ d = 5 ∨ d = 6 ∨ d = 7
          ∨ d = 8 ∨ d = 9)%N as H by lia.
  repeat destruct H as [-> | H]; try subst d; split; reflexivity.
Qed.

Lemma parseInt_pretty (n : Z) : JS.parseInt (pretty n) = JS.Int n.
Proof.
  destruct n as [|p|p]; [reflexivity | |].
  - change (pretty (Z.pos p)) with (pretty_N_go (N.pos p) "").
    destruct (pretty_go_head (N.pos p) "" eq_refl) as (d & r & Hd & Hd1).
    pose proof (digits_pretty_go (N.pos p) "" None eq_refl eq_refl) as G.
    rewrite Hd in *. rewrite (proj1 (parseInt_leading_digit d r Hd1)), G.
    cbn [JS.digits]. f_equal; lia.
  - change (pretty (Z.neg p)) with (String "-" (pretty_N_go (N.pos p) "")).
    destruct (pretty_go_head (N.pos p) "" eq_refl) as (d & r & Hd & Hd1).
    pose proof (digits_pretty_go (N.pos p) "" None eq_refl eq_refl) as G.
    rewrite Hd in *. rewrite (proj2 (parseInt_leading_digit d r Hd1)), G.
    cbn [JS.digits]. f_equal; lia.
Qed.

(** [slice] from a negative index keeps that many elements at the end. *)
Lemma slice_last {A} (a : list A) n :
  0 < n → JS.slice a (JS.Int (- n)) = drop (length a - Z.to_nat n) a.
Proof.
  intros Hn. unfold JS.slice, JS.clampIndex. cbn [JS.toIntegerOrInfinity].
  destruct (Z.ltb_spec (- n) 0) as [_|?]; [|lia].
  f_equal. lia.
Qed.

(** [slice] from an index that is not negative drops that many elements at
    the front. *)
Lemma slice_front {A} (a : list A) k :
  0 <= k → JS.slice a (JS.Int k) = drop (Z.to_nat k) a.
Proof.
  intros Hk. unfold JS.slice, JS.clampIndex. cbn [JS.toIntegerOrInfinity].
  destruct (Z.ltb_spec k 0) as [?|_]; [lia|].
  destruct (Z.le_gt_cases k (Z.of_nat (length a))) as [Hle|Hgt].
  - f_equal. lia.
  - rewrite !drop_ge by lia. reflexivity.
Qed.

Lemma recent_positive {A} limit (ts : list A) n :
  JS.parseInt (JS.toStringArg limit) = JS.Int n → 0 < n →
  recent limit ts = drop (length ts - Z.to_nat n) ts.
Proof.
  intros E Hn. unfold recent, JS.orElse. rewrite E. cbn [JS.toBoolean].
  destruct (Z.eqb_spec n 0) as [?|_]; [lia|]. cbn [negb JS.neg].
  apply slice_last, Hn.
Qed.

Lemma recent_default {A} limit (ts : list A) :
  JS.parseInt (JS.toStringArg limit) = JS.NaN
  ∨ JS.parseInt (JS.toStringArg limit) = JS.Int 0 →
  recent limit ts = drop (length ts - 10) ts.
Proof.
  intros [E | E]; unfold recent, JS.orElse; rewrite E; cbn [JS.toBoolean Z.eqb negb JS.neg];
    exact (slice_last ts 10 eq_refl).
Qed.

(** A negative limit slices from the front. *)
Lemma recent_negative {A} limit (ts : list A) n :
  JS.parseInt (JS.toStringArg limit) = JS.Int n → n < 0 →
  recent limit ts = drop (Z.to_nat (- n)) ts.
Proof.
  intros E Hn. unfold recent, JS.orElse. rewrite E. cbn [JS.toBoolean].
  destruct (Z.eqb_spec n 0) as [?|_]; [lia|]. cbn [negb JS.neg].
  apply slice_front. lia.
Qed.

(** C6, as the code has it.  With the limit [n] written in decimal: for
    [n > 0] the answer is the last [n] transactions, in their order, so all
    of them when [n] is at least their number; the limit 0 counts as 10,
    like a limit that is absent or not a number.  Any other limit that
    [parseInt] reads as [m] does what [m] in decimal does. *)
Theorem recent_transactions {A : Type} (n : Z) (limit : option string)
    (ts : list A) :
  (0 < n → recent (Some (pretty n)) ts = drop (length ts - Z.to_nat n) ts)
  ∧ (Z.of_nat (length ts) <= n → recent (Some (pretty n)) ts = ts)
  ∧ recent (Some (pretty 0)) ts = drop (length ts - 10) ts
  ∧ (limit = None ∨ JS.parseInt (JS.toStringArg limit) = JS.NaN →
     recent limit ts = drop (length ts - 10) ts)
  ∧ (∀ m, JS.parseInt (JS.toStringArg limit) = JS.Int m →
          recent limit ts = recent (Some (pretty m)) ts).
Proof.
  assert (E : JS.parseInt (JS.toStringArg (Some (pretty n))) = JS.Int n)
    by apply parseInt_pretty.
  split; [|split; [|split; [|split]]].
  - apply recent_positive, E.
  - intros Hn.
    destruct (Z.lt_trichotomy n 0) as [?|[->|Hpos]]; [lia| |].
    + destruct ts; [|cbn in Hn; lia].
      rewrite recent_default by (right; exact E). reflexivity.
    + rewrite (recent_positive _ _ _ E Hpos).
      replace (length ts - Z.to_nat n)%nat with 0%nat by lia. apply drop_0.
  - apply recent_default. right. reflexivity.
  - intros [-> | H]; apply recent_default; left; [reflexivity | exact H].
  - intros m Hm. unfold recent. rewrite Hm.
    change (JS.toStringArg (Some (pretty m))) with (pretty m).
    rewrite parseInt_pretty. reflexivity.
Qed.

Lemma recent_transactions_witness :
  recent (Some "2") (ledgerOf 3) = drop 1 (ledgerOf 3)
  ∧ recent (Some "7") (ledgerOf 3) = ledgerOf 3
  ∧ recent None (ledgerOf 12) = drop 2 (ledgerOf 12)
  ∧ recent (Some "many") (ledgerOf 12) = drop 2 (ledgerOf 12)
  ∧ recent (Some " 2 or so") (ledgerOf 3) = recent (Some "2") (ledgerOf 3).
Proof.
  split; [|split; [|split; [|split]]].
  - exact (proj1 (recent_transactions 2 None (ledgerOf 3)) eq_refl).
  - refine (proj1 (proj2 (recent_transactions 7 None (ledgerOf 3))) _).
    vm_compute. discriminate.
  - exact (proj1 (proj2 (proj2 (proj2
             (recent_transactions 0 None (ledgerOf 12)))))
             (or_introl eq_refl)).
  - exact (proj1 (proj2 (proj2 (proj2
             (recent_transactions 0 (Some "many") (ledgerOf 12)))))
             (or_intror eq_refl)).
  - exact (proj2 (proj2 (proj2 (proj2
             (recent_transactions 0 (Some " 2 or so") (ledgerOf 3)))))
             2 eq_refl).
Defined.

(** C6, as the specification states it, fails for [n <= 0]: with the limit
    0 a ledger of three comes back whole, and with the limit -1 it comes
    back without its first record. *)
Lemma recent_is_not_empty_for_nonpositive_limit :
  JS.parseInt "0" = JS.Int 0
  ∧ recent (Some "0") (ledgerOf 3) = ledgerOf 3
  ∧ JS.parseInt "-1" = JS.Int (-1)
  ∧ recent (Some "-1") (ledgerOf 3) = drop 1 (ledgerOf 3)
  ∧ length (ledgerOf 3) = 3%nat
  ∧ recent (Some "0") (ledgerOf 3) ≠ []
  ∧ recent (Some "-1") (ledgerOf 3) ≠ [].
Proof.
  split; [reflexivity|]. split; [vm_compute; reflexivity|].
  split; [reflexivity|]. split; [vm_compute; reflexivity|].
  split; [reflexivity|].
  split; intros E; apply (f_equal length) in E; vm_compute in E; discriminate E.
Qed.

(* ================================================================== *)
(** * Searching the descriptions *)
(* ================================================================== *)

Section Strings.

Lemma append_assoc (a b c : string) : (a +:+ b) +:+ c = a +:+ b +:+ c.
Proof. induction a as [|x a IH]; [reflexivity | exact (f_equal (String x) IH)]. Qed.

Lemma startsWith_spec q : ∀ s,
  JS.startsWith s q = true ↔ ∃ post, s = q +:+ post.
Proof.
  induction q as [|a q IH]; intros s.
  - destruct s; cbn; (split; [intros _; eexists; reflexivity | reflexivity]).
  - destruct s as [|b s]; cbn.
    + split; [discriminate | intros [post E]; discriminate E].
    + rewrite andb_true_iff, Ascii.eqb_eq, IH. split.
      * intros [-> [post ->]]. exists post. reflexivity.
      * intros [post E]. injection E as -> ->. split; [reflexivity | eauto].
Qed.

Lemma includes_spec q : ∀ s,
  JS.includes s q = true ↔ ∃ pre post, s = pre +:+ q +:+ post.
Proof.
  induction s as [|c s IH]; cbn [JS.includes]; rewrite orb_true_iff, startsWith_spec.
  - split.
    + intros [[post E] | F]; [|discriminate F]. exists EmptyString, post. exact E.
    + intros (pre & post & E). left. destruct pre; [|discriminate E].
      exists post. exact E.
  - rewrite IH. split.
    + intros [[post E] | (pre & post & ->)].
      * exists EmptyString, post. exact E.
      * exists (String c pre), post. reflexivity.
    + intros ([|x pre] & post & E).
      * left. exists post. exact E.
      * right. injection E as -> ->. exists pre, post. reflexivity.
Qed.

Lemma toLowerCase_app a b :
  JS.toLowerCase (a +:+ b) = JS.toLowerCase a +:+ JS.toLowerCase b.
Proof.
  induction a as [|x a IH]; [reflexivity|].
  exact (f_equal (String (JS.lowerChar x)) IH).
Qed.

(** A lower-cased text splits where the text splits. *)
Lemma toLowerCase_app_inv x : ∀ s y,
  JS.toLowerCase s = x +:+ y →
  ∃ a b, s = a +:+ b ∧ JS.toLowerCase a = x ∧ JS.toLowerCase b = y.
Proof.
  induction x as [|c x IH]; intros s y E.
  - exists EmptyString, s. repeat split. exact E.
  - destruct s as [|d s]; [discriminate E|]. cbn in E. injection E as Hc E.
    destruct (IH _ _ E) as (a & b & -> & Ha & Hb).
    exists (String d a), b. cbn. rewrite Ha, Hc. repeat split. exact Hb.
Qed.

Lemma code_inj a b : JS.code a = JS.code b → a = b.
Proof.
  unfold JS.code. intros E%Z2N.inj_iff%(f_equal ascii_of_N); try lia.
  rewrite !N2Z.id, !ascii_N_embedding in E. exact E.
Qed.

Lemma code_bound a : 0 <= JS.code a < 256.
Proof.
  unfold JS.code. pose proof (N_ascii_bounded a). lia.
Qed.

Lemma code_lowerChar c :
  JS.code (JS.lowerChar c) = if JS.isUpper c then JS.code c + 32 else JS.code c.
Proof.
  unfold JS.lowerChar. destruct (JS.isUpper c) eqn:Hc; [|reflexivity].
  unfold JS.code at 1. rewrite N_ascii_embedding; [pose proof (code_bound c); lia|].
  unfold JS.isUpper, JS.inRange in Hc. pose proof (code_bound c). lia.
Qed.

End Strings.

(** The table of the letters against [lowerChar].  The two are written
    apart: the table pair by pair, [lowerChar] by ranges of codes. *)
Lemma allAscii_all (a : ascii) : In a allAscii.
Proof.
  unfold allAscii. apply in_map_iff. exists (nat_of_ascii a).
  split; [apply ascii_nat_embedding|].
  apply in_seq. pose proof (nat_ascii_bounded a). lia.
Qed.

Lemma in_letterPairs a b :
  existsb (fun p => Ascii.eqb p.1 a && Ascii.eqb p.2 b) letterPairs = true
  ↔ In (a, b) letterPairs.
Proof.
  rewrite existsb_exists. split.
  - intros ([x y] & Hin & H). cbn [fst snd] in H.
    apply andb_true_iff in H as [->%Ascii.eqb_eq ->%Ascii.eqb_eq]. exact Hin.
  - intros Hin. exists (a, b). split; [exact Hin|]. cbn [fst snd].
    rewrite !Ascii.eqb_refl. reflexivity.
Qed.

Lemma sameLetterb_spec a b : sameLetterb a b = true ↔ sameLetter a b.
Proof.
  unfold sameLetterb, sameLetter.
  rewrite !orb_true_iff, Ascii.eqb_eq, !in_letterPairs. tauto.
Qed.

(** The table against [lowerChar], on every pair of code units. *)
Lemma sameLetterb_lowerChar a b :
  sameLetterb a b = Ascii.eqb (JS.lowerChar a) (JS.lowerChar b).
Proof.
  assert (H : forallb (fun a => forallb (fun b =>
                Bool.eqb (sameLetterb a b)
                  (Ascii.eqb (JS.lowerChar a) (JS.lowerChar b))) allAscii)
                allAscii = true) by (vm_compute; reflexivity).
  rewrite forallb_forall in H. specialize (H a (allAscii_all a)).
  rewrite forallb_forall in H. specialize (H b (allAscii_all b)).
  apply Bool.eqb_prop, H.
Qed.

(** Lower-casing identifies exactly the code units that are the same
    letter. *)
Lemma sameLetter_lowerChar a b :
  sameLetter a b ↔ JS.lowerChar a = JS.lowerChar b.
Proof.
  rewrite <- sameLetterb_spec, sameLetterb_lowerChar. apply Ascii.eqb_eq.
Qed.

Lemma sameText_toLowerCase s : ∀ t,
  sameText s t ↔ JS.toLowerCase s = JS.toLowerCase t.
Proof.
  induction s as [|a s IH]; intros [|b t]; cbn;
    try (split; [intros [] | discriminate]).
  - split; reflexivity.
  - rewrite sameLetter_lowerChar, IH. split.
    + intros [-> ->]. reflexivity.
    + intros E. injection E as -> ->. split; reflexivity.
Qed.

(** The test of [searchTransactions] decides [occursIgnoringCase]. *)
Lemma search_test q d :
  JS.includes (JS.toLowerCase d) (JS.toLowerCase q) = true
  ↔ occursIgnoringCase q d.
Proof.
  rewrite includes_spec. unfold occursIgnoringCase. split.
  - intros (x & z & E).
    destruct (toLowerCase_app_inv _ _ _ E) as (pre & r & -> & _ & Er).
    destruct (toLowerCase_app_inv _ _ _ Er) as (mid & post & -> & Em & _).
    exists pre, mid, post. split; [reflexivity|].
    apply sameText_toLowerCase, Em.
  - intros (pre & mid & post & -> & Hm%sameText_toLowerCase).
    exists (JS.toLowerCase pre), (JS.toLowerCase post).
    rewrite !toLowerCase_app, Hm. reflexivity.
Qed.

Lemma search_test_false q d :
  JS.includes (JS.toLowerCase d) (JS.toLowerCase q) = false
  ↔ ¬ occursIgnoringCase q d.
Proof.
  rewrite <- search_test.
  destruct (JS.includes (JS.toLowerCase d) (JS.toLowerCase q));
    split; congruence.
Qed.

Section Search.
Context {num : Type}.
Implicit Types (t : transaction num) (ts : list (transaction num)).

Lemma search_keeps q t ts :
  occursIgnoringCase q (description t) →
  Cli.searchTransactions q (t :: ts) = t :: Cli.searchTransactions q ts.
Proof.
  intros H%search_test. unfold Cli.searchTransactions. cbn [List.filter].
  rewrite H. reflexivity.
Qed.

Lemma search_skips q t ts :
  ¬ occursIgnoringCase q (description t) →
  Cli.searchTransactions q (t :: ts) = Cli.searchTransactions q ts.
Proof.
  intros H%search_test_false. unfold Cli.searchTransactions. cbn [List.filter].
  rewrite H. reflexivity.
Qed.

Lemma search_sublist q ts : Cli.searchTransactions q ts `sublist_of` ts.
Proof.
  induction ts as [|t ts IH]; [constructor|].
  unfold Cli.searchTransactions in *. cbn [List.filter].
  destruct (JS.includes _ _); [apply sublist_skip | apply sublist_cons]; exact IH.
Qed.

Lemma search_elem q t ts :
  t ∈ Cli.searchTransactions q ts
  ↔ t ∈ ts ∧ occursIgnoringCase q (description t).
Proof.
  unfold Cli.searchTransactions.
  rewrite !list_elem_of_In, filter_In, search_test. reflexivity.
Qed.

Lemma search_everything ts : Cli.searchTransactions EmptyString ts = ts.
Proof.
  induction ts as [|t ts IH]; [reflexivity|].
  rewrite search_keeps, IH; [reflexivity|].
  exists EmptyString, EmptyString, (description t). split; [reflexivity|exact I].
Qed.

Lemma search_nothing q ts :
  Forall (fun t => ¬ occursIgnoringCase q (description t)) ts →
  Cli.searchTransactions q ts = [].
Proof.
  induction 1 as [|t ts Ht _ IH]; [reflexivity|].
  rewrite search_skips by exact Ht. exact IH.
Qed.
End Search.

(** ** The Latin-1 model is the one of the language on its texts *)

Lemma units_covered s : forallb Utf16.covered (Utf16.units s) = true.
Proof.
  induction s as [|c s IH]; [reflexivity|]. cbn [Utf16.units forallb].
  rewrite IH, andb_true_r. unfold Utf16.covered.
  pose proof (N_ascii_bounded c) as Hc. apply N.ltb_lt in Hc. rewrite Hc.
  reflexivity.
Qed.

Lemma lowerAt_latin1 before c after :
  Utf16.lowerAt before (N_of_ascii c) after = N_of_ascii (JS.lowerChar c).
Proof.
  assert (H : forallb (fun c =>
                N.eqb (Utf16.lowerAt [] (N_of_ascii c) [])
                      (N_of_ascii (JS.lowerChar c))) allAscii = true)
    by (vm_compute; reflexivity).
  rewrite forallb_forall in H. specialize (H c (allAscii_all c)).
  apply N.eqb_eq in H. rewrite <- H. unfold Utf16.lowerAt.
  pose proof (N_ascii_bounded c) as Hc.
  destruct (N.eqb_spec (N_of_ascii c) Utf16.Sigma) as [E|_]; [|reflexivity].
  unfold Utf16.Sigma in E. lia.
Qed.

Lemma lowerFrom_latin1 s : ∀ before,
  Utf16.lowerFrom before (Utf16.units s) = Utf16.units (JS.toLowerCase s).
Proof.
  induction s as [|c s IH]; intros before; [reflexivity|].
  cbn [Utf16.units Utf16.lowerFrom JS.toLowerCase].
  rewrite lowerAt_latin1, IH. reflexivity.
Qed.

Lemma toLowerCase_latin1 s :
  Utf16.toLowerCase (Utf16.units s) = Some (Utf16.units (JS.toLowerCase s)).
Proof.
  unfold Utf16.toLowerCase. rewrite units_covered, lowerFrom_latin1.
  reflexivity.
Qed.

Lemma startsWith_latin1 q : ∀ s,
  Utf16.startsWith (Utf16.units s) (Utf16.units q) = JS.startsWith s q.
Proof.
  induction q as [|a q IH]; intros [|b s]; try reflexivity.
  cbn [Utf16.units Utf16.startsWith JS.startsWith]. rewrite IH. f_equal.
  destruct (Ascii.eqb_spec a b) as [->|Hne]; [apply N.eqb_refl|].
  apply N.eqb_neq. intros E. apply Hne.
  rewrite <- (ascii_N_embedding a), <- (ascii_N_embedding b), E. reflexivity.
Qed.

Lemma includes_latin1 q : ∀ s,
  Utf16.includes (Utf16.units s) (Utf16.units q) = JS.includes s q.
Proof.
  induction s as [|c s IH].
  - cbn [Utf16.units Utf16.includes JS.includes].
    rewrite <- (startsWith_latin1 q EmptyString). reflexivity.
  - cbn [Utf16.units Utf16.includes JS.includes].
    rewrite <- IH, <- (startsWith_latin1 q (String c s)). reflexivity.
Qed.

Lemma matchesQuery_latin1 {num} (q : string) (t : transaction num) :
  Utf16.matchesQuery Utf16.toLowerCase (fun t => Utf16.units (description t))
    (Utf16.units q) t
  = Some (JS.includes (JS.toLowerCase (description t)) (JS.toLowerCase q)).
Proof.
  unfold Utf16.matchesQuery. rewrite !toLowerCase_latin1. cbn.
  rewrite includes_latin1. reflexivity.
Qed.

(** On descriptions and queries of Latin-1, the search on 16-bit texts is
    the search of [Cli]. *)
Lemma search_latin1 {num} (q : string) (ts : list (transaction num)) :
  Utf16.searchTransactions Utf16.toLowerCase
    (fun t => Utf16.units (description t)) (Utf16.units q) ts
  = Some (Cli.searchTransactions q ts).
Proof.
  induction ts as [|t ts IH]; [reflexivity|].
  cbn [Utf16.searchTransactions]. rewrite matchesQuery_latin1, IH.
  unfold Cli.searchTransactions. cbn. reflexivity.
Qed.

(** ** The search on 16-bit texts, whatever the lower case is *)

Section WideSearch.
Context {T : Type}.
Variable lower : Utf16.text → option Utf16.text.
Variable descriptionOf : T → Utf16.text.

Lemma wide_search_cons query t file results :
  Utf16.searchTransactions lower descriptionOf query (t :: file) = Some results →
  ∃ keep rest,
    Utf16.matchesQuery lower descriptionOf query t = Some keep
    ∧ Utf16.searchTransactions lower descriptionOf query file = Some rest
    ∧ results = if keep then t :: rest else rest.
Proof.
  cbn [Utf16.searchTransactions]. intros H.
  destruct (Utf16.matchesQuery lower descriptionOf query t) as [keep|];
    [|discriminate H].
  destruct (Utf16.searchTransactions lower descriptionOf query file) as [rest|];
    [|discriminate H].
  injection H as <-. eauto.
Qed.

(** The results are the transactions that pass the test, in the order of
    the file. *)
Lemma wide_search_spec query file : ∀ results,
  Utf16.searchTransactions lower descriptionOf query file = Some results →
  results `sublist_of` file
  ∧ ∀ t, t ∈ results
         ↔ t ∈ file ∧ Utf16.matchesQuery lower descriptionOf query t = Some true.
Proof.
  induction file as [|u file IH]; intros results H.
  - injection H as <-. split; [constructor|].
    intros t. split; [intros Ht | intros [Ht _]]; inversion Ht.
  - destruct (wide_search_cons _ _ _ _ H) as (keep & rest & Hk & Hr & ->).
    destruct (IH rest Hr) as [Hsub Hmem]. split.
    + destruct keep; [apply sublist_skip | apply sublist_cons]; exact Hsub.
    + intros t. destruct keep.
      * rewrite !elem_of_cons, Hmem. split.
        -- intros [-> | [Ht Hm]]; [split; [left; reflexivity | exact Hk]|].
           split; [right; exact Ht | exact Hm].
        -- intros [[-> | Ht] Hm]; [left; reflexivity | right; split; assumption].
      * rewrite elem_of_cons, Hmem. split.
        -- intros [Ht Hm]. split; [right; exact Ht | exact Hm].
        -- intros [[-> | Ht] Hm]; [congruence | split; assumption].
Qed.

(** The test with the two lower cases in hand. *)
Lemma matchesQuery_lowered query lq t :
  lower query = Some lq →
  Utf16.matchesQuery lower descriptionOf query t
  = (d ← lower (descriptionOf t); Some (Utf16.includes d lq)).
Proof.
  intros E. unfold Utf16.matchesQuery.
  destruct (lower (descriptionOf t)); cbn; [rewrite E|]; reflexivity.
Qed.

End WideSearch.

Lemma wide_startsWith_spec q : ∀ s,
  Utf16.startsWith s q = true ↔ ∃ post, s = q ++ post.
Proof.
  induction q as [|a q IH]; intros s.
  - destruct s; cbn; (split; [intros _; eexists; reflexivity | reflexivity]).
  - destruct s as [|b s]; cbn.
    + split; [discriminate | intros [post E]; discriminate E].
    + rewrite andb_true_iff, N.eqb_eq, IH. split.
      * intros [-> [post ->]]. exists post. reflexivity.
      * intros [post E]. injection E as -> ->. split; [reflexivity | eauto].
Qed.

Lemma wide_includes_spec q : ∀ s,
  Utf16.includes s q = true ↔ ∃ pre post, s = pre ++ q ++ post.
Proof.
  induction s as [|c s IH]; cbn [Utf16.includes];
    rewrite orb_true_iff, wide_startsWith_spec.
  - split.
    + intros [[post E] | F]; [|discriminate F]. exists [], post. exact E.
    + intros (pre & post & E). left. destruct pre; [|discriminate E].
      exists post. exact E.
  - rewrite IH. split.
    + intros [[post E] | (pre & post & ->)].
      * exists [], post. exact E.
      * exists (c :: pre), post. reflexivity.
    + intros ([|x pre] & post & E).
      * left. exists post. exact E.
      * right. injection E as -> ->. exists pre, post. reflexivity.
Qed.

Lemma wide_includes_trans a b c :
  Utf16.includes a b = true → Utf16.includes b c = true →
  Utf16.includes a c = true.
Proof.
  rewrite !wide_includes_spec.
  intros (p1 & s1 & ->) (p2 & s2 & ->).
  exists (p1 ++ p2), (s2 ++ s1). rewrite <- !app_assoc. reflexivity.
Qed.

(** C7.  On descriptions and queries of Latin-1, [searchTransactions] goes
    through the ledger in its order and keeps exactly the transactions in
    whose description the query occurs, case aside: it keeps a transaction
    that matches and skips one that does not.  So the result is a sublist
    of the ledger with exactly the matching transactions, the empty query
    gives the whole ledger, and a query that matches nothing gives the
    empty array.  These are the results of the search on 16-bit texts, whose
    test is that the lower case of the description contains the lower case
    of the query. *)
Theorem search_keeps_the_matches_in_order {num : Type}
    (q : string) (ts : list (transaction num)) :
  Cli.searchTransactions q (@nil (transaction num)) = []
  ∧ (∀ t, occursIgnoringCase q (description t) →
          Cli.searchTransactions q (t :: ts)
          = t :: Cli.searchTransactions q ts)
  ∧ (∀ t, ¬ occursIgnoringCase q (description t) →
          Cli.searchTransactions q (t :: ts) = Cli.searchTransactions q ts)
  ∧ Cli.searchTransactions q ts `sublist_of` ts
  ∧ (∀ t, t ∈ Cli.searchTransactions q ts
          ↔ t ∈ ts ∧ occursIgnoringCase q (description t))
  ∧ Cli.searchTransactions EmptyString ts = ts
  ∧ (Forall (fun t => ¬ occursIgnoringCase q (description t)) ts →
     Cli.searchTransactions q ts = [])
  ∧ Utf16.searchTransactions Utf16.toLowerCase
      (fun t => Utf16.units (description t)) (Utf16.units q) ts
    = Some (Cli.searchTransactions q ts)
  ∧ (∀ t : transaction num,
       Utf16.matchesQuery Utf16.toLowerCase
         (fun t => Utf16.units (description t)) (Utf16.units q) t
       = Some true
       ↔ occursIgnoringCase q (description t)).
Proof.
  split; [reflexivity|].
  split; [intros t; apply search_keeps|].
  split; [intros t; apply search_skips|].
  split; [apply search_sublist|].
  split; [intros t; apply search_elem|].
  split; [apply search_everything|].
  split; [apply search_nothing|].
  split; [apply search_latin1|].
  intros t. rewrite matchesQuery_latin1, <- search_test.
  split; [intros [= E]; exact E | intros E; rewrite E; reflexivity].
Qed.

Lemma search_keeps_the_matches_in_order_witness :
  Cli.searchTransactions "RENT" salaryAndRent = [expense 2 "Rent" 400]
  ∧ Cli.searchTransactions "a" salaryAndRent = [income 1 "Salary" 1000]
  ∧ Cli.searchTransactions "" salaryAndRent = salaryAndRent
  ∧ Cli.searchTransactions "tax" salaryAndRent = []
  ∧ Utf16.searchTransactions Utf16.toLowerCase
      (fun t : transaction Z => Utf16.units (description t))
      (Utf16.units "RENT") salaryAndRent
    = Some [expense 2 "Rent" 400].
Proof.
  split; [reflexivity|]. split; [reflexivity|]. split; [reflexivity|].
  split.
  - apply (proj1 (proj2 (proj2 (proj2 (proj2 (proj2 (proj2
             (search_keeps_the_matches_in_order "tax" salaryAndRent)))))))).
    repeat constructor; rewrite <- search_test_false; reflexivity.
  - exact (proj1 (proj2 (proj2 (proj2 (proj2 (proj2 (proj2 (proj2
             (search_keeps_the_matches_in_order "RENT" salaryAndRent))))))))).
Defined.

(** The lower case of some texts: a capital sigma after a letter and at
    the end of the word, at the start of a word, before a letter, with a
    full stop or a space in between, after the feminine ordinal indicator;
    letters of Latin-1 with the multiplication sign and the sharp s; and a
    text that the tables do not have (the capital I with a dot). *)
Lemma toLowerCase_samples :
  Utf16.toLowerCase [Utf16.Alpha; Utf16.Sigma]
  = Some [Utf16.alpha; Utf16.finalSigma]
  ∧ Utf16.toLowerCase [Utf16.Sigma; Utf16.Alpha]
    = Some [Utf16.sigma; Utf16.alpha]
  ∧ Utf16.toLowerCase [Utf16.Alpha; Utf16.Sigma; Utf16.Alpha]
    = Some [Utf16.alpha; Utf16.sigma; Utf16.alpha]
  ∧ Utf16.toLowerCase [Utf16.Alpha; 46; Utf16.Sigma]%N
    = Some [Utf16.alpha; 46; Utf16.finalSigma]%N
  ∧ Utf16.toLowerCase [Utf16.Alpha; Utf16.Sigma; 46; Utf16.Alpha]%N
    = Some [Utf16.alpha; Utf16.sigma; 46; Utf16.alpha]%N
  ∧ Utf16.toLowerCase [Utf16.Alpha; 32; Utf16.Sigma]%N
    = Some [Utf16.alpha; 32; Utf16.sigma]%N
  ∧ Utf16.toLowerCase [170; Utf16.Sigma]%N = Some [170; Utf16.finalSigma]%N
  ∧ Utf16.toLowerCase [192; 66; 215; 222; 223]%N
    = Some [224; 98; 215; 254; 223]%N
  ∧ Utf16.toLowerCase [304]%N = None.
Proof. repeat split. Qed.

(** C7, as the specification states it, fails outside Latin-1.  The
    description of two capital letters, alpha and sigma, holds the query
    of one capital sigma, letter for letter; but the lower case of the
    description ends in the final sigma and the lower case of the query is
    the other small sigma, so the search does not find it. *)
Lemma search_misses_a_final_sigma :
  [Utf16.Alpha; Utf16.Sigma] = [Utf16.Alpha] ++ [Utf16.Sigma] ++ []
  ∧ Utf16.toLowerCase [Utf16.Alpha; Utf16.Sigma]
    = Some [Utf16.alpha; Utf16.finalSigma]
  ∧ Utf16.toLowerCase [Utf16.Sigma] = Some [Utf16.sigma]
  ∧ Utf16.searchTransactions Utf16.toLowerCase (fun d : Utf16.text => d)
      [Utf16.Sigma] [[Utf16.Alpha; Utf16.Sigma]] = Some [].
Proof. repeat split. Qed.

(* ================================================================== *)
(** * Ids along a run *)
(* ================================================================== *)

Lemma increasing_NoDup (l : list Z) : StronglySorted Z.lt l → NoDup l.
Proof.
  induction 1 as [|x l _ IH Hx]; constructor; [|exact IH].
  intros Hin. rewrite Forall_forall in Hx. specialize (Hx x Hin). lia.
Qed.

Lemma run_snoc rs r ts : run (rs ++ [r]) ts = (handle r (run rs ts)).1.
Proof. unfold run. rewrite fold_left_app. reflexivity. Qed.

(** One request keeps the ids of the ledger among the ids it had and the
    one it may give out. *)
Lemma handle_ids r ts :
  keepsIds [r] →
  idsOf (handle r ts).1
    `sublist_of` idsOf ts ++ ((fun s => Some (VStr s)) <$> issued [r]).
Proof.
  unfold keepsIds. rewrite Forall_singleton. intros Hr. unfold idsOf, issued.
  destruct r as [now reqBody | id reqBody | id]; cbn [handle stamps omap].
  - cbn. rewrite fmap_app. cbn. rewrite lookup_insert_eq. reflexivity.
  - cbn. rewrite app_nil_r.
    destruct (carried_or_not id ts) as [H | (pre & old & post & -> & Hpre & Hold)].
    + rewrite put_absent by exact H. reflexivity.
    + rewrite put_present by assumption. cbn [fst].
      rewrite !fmap_app, !fmap_cons, lookup_union_r by exact Hr. reflexivity.
  - cbn. rewrite app_nil_r.
    destruct (carried_or_not id ts) as [H | (pre & t & post & -> & Hpre & Ht)].
    + rewrite delete_absent by exact H. reflexivity.
    + rewrite delete_present by assumption. cbn [fst].
      rewrite !fmap_app, fmap_cons.
      apply sublist_app; [reflexivity | apply sublist_cons; reflexivity].
Qed.

(** The ids of the ledger after a run are, in their order, among the ids
    the run gave out. *)
Lemma run_ids rs :
  keepsIds rs →
  idsOf (run rs []) `sublist_of` ((fun s => Some (VStr s)) <$> issued rs).
Proof.
  induction rs as [|r rs IH] using rev_ind; intros Hk; [reflexivity|].
  apply Forall_app in Hk as [Hrs Hr].
  rewrite run_snoc. etransitivity; [apply handle_ids, Hr|].
  unfold issued, stamps in *. rewrite omap_app, !fmap_app.
  apply sublist_app; [apply IH, Hrs | reflexivity].
Qed.

Lemma splice_sublist {A} (a : list A) start dc :
  (JS.splice a start dc).2 `sublist_of` a.
Proof.
  unfold JS.splice. cbn [snd].
  set (k := Z.to_nat (JS.clampIndex _ _)).
  set (k' := Z.to_nat (_ + _)).
  rewrite <- (take_drop k a) at 3.
  apply sublist_app; [reflexivity|].
  destruct (Nat.le_gt_cases k k') as [Hle|Hgt].
  - replace k' with (k + (k' - k))%nat by lia. rewrite <- drop_drop.
    apply sublist_drop.
  - exfalso. subst k k'. unfold JS.clampIndex in Hgt.
    destruct (Z.ltb_spec (JS.toIntegerOrInfinity start) 0); lia.
Qed.

Lemma act_readings a file :
  primeId <$> act a file `sublist_of` (primeId <$> file) ++ readings [a].
Proof.
  destruct a as [ty description amountStr now | idStr]; cbn [act readings omap].
  - unfold Cli.addTransaction. destruct (_ || _); cbn [fst].
    + apply sublist_inserts_r. reflexivity.
    + rewrite fmap_app. reflexivity.
  - cbn. rewrite app_nil_r. apply fmap_sublist.
    unfold Cli.deleteAnswer.
    destruct (JS.strictEq _ _); [reflexivity|].
    destruct (_ || _); [reflexivity|].
    pose proof (splice_sublist file (JS.minus (JS.parseInt idStr) 1) 1) as Hs.
    destruct (JS.splice _ _ _) as [removed left]. cbn [snd] in Hs.
    destruct removed; exact Hs.
Qed.

Lemma session_readings acts :
  primeId <$> session acts [] `sublist_of` readings acts.
Proof.
  induction acts as [|a acts IH] using rev_ind; [reflexivity|].
  unfold session in *. rewrite fold_left_app. cbn [fold_left].
  etransitivity; [apply act_readings|].
  unfold readings. rewrite omap_app. apply sublist_app; [exact IH | reflexivity].
Qed.

(** C5, as the code has it.  The id of a record is the clock reading of its
    POST, in decimal, and nothing looks for a record that has it already.
    Along a run from the empty ledger in which the clock reads more at
    every POST than at the POSTs before, and no PUT has an [id] field in
    its body, no id is given out twice, so none comes back after a delete;
    the ids of the ledger are, in their order, among the ids given out, and
    no two records share one.  The same holds for [primeId] along a session
    at the menu. *)
Theorem ids_are_distinct_while_the_clock_advances
    (rs : list request) (acts : list action) :
  clockAdvances rs → keepsIds rs →
  StronglySorted Z.lt (readings acts) →
  NoDup (issued rs)
  ∧ idsOf (run rs []) `sublist_of` ((fun s => Some (VStr s)) <$> issued rs)
  ∧ NoDup (idsOf (run rs []))
  ∧ NoDup (primeId <$> session acts []).
Proof.
  intros Hclock Hkeep Hcli.
  assert (Hissued : NoDup (issued rs)).
  { apply (NoDup_fmap_2 _), increasing_NoDup, Hclock. }
  split; [exact Hissued|]. split; [apply run_ids, Hkeep|]. split.
  - eapply sublist_NoDup; [|apply run_ids, Hkeep].
    apply NoDup_fmap_2; [|exact Hissued]. intros s1 s2 E. congruence.
  - eapply sublist_NoDup; [|apply session_readings].
    apply increasing_NoDup, Hcli.
Qed.

Lemma ids_are_distinct_while_the_clock_advances_witness :
  idsOf (run sampleRun [])
  = [Some (VStr "1700000000001"); Some (VStr "1700000000002")]
  ∧ NoDup (issued sampleRun)
  ∧ NoDup (idsOf (run sampleRun []))
  ∧ NoDup (primeId <$> session sampleSession []).
Proof.
  split; [vm_compute; reflexivity|].
  assert (Hclock : clockAdvances sampleRun).
  { unfold clockAdvances. cbn. repeat constructor. }
  assert (Hkeep : keepsIds sampleRun).
  { repeat constructor. }
  assert (Hcli : StronglySorted Z.lt (readings sampleSession)).
  { cbn. repeat constructor. }
  destruct (ids_are_distinct_while_the_clock_advances sampleRun sampleSession
              Hclock Hkeep Hcli) as (H1 & _ & H2 & H3).
  repeat split; assumption.
Defined.

(** C5, as the specification states it, fails: two POSTs within the same
    millisecond get the same id, and so do two adds at the menu. *)
Lemma successive_adds_share_an_id :
  idsOf (run [POST 1700000000000 rentBody; POST 1700000000000 ∅] [])
  = [Some (VStr "1700000000000"); Some (VStr "1700000000000")]
  ∧ ¬ NoDup (idsOf (run [POST 1700000000000 rentBody;
                         POST 1700000000000 ∅] []))
  ∧ ¬ NoDup (primeId <$> session [Add "income" "Salary" "1000" 1700000000000;
                                  Add "expense" "Rent" "400" 1700000000000] []).
Proof.
  split; [vm_compute; reflexivity|]. split.
  - intros H. vm_compute in H. apply NoDup_cons in H as [H _].
    apply H. left.
  - intros H. vm_compute in H. apply NoDup_cons in H as [H _].
    apply H. left.
Qed.

(* ================================================================== *)
(** * The CSV export *)
(* ================================================================== *)

Section CsvFacts.
Context {num : Type}.
Variable toLocaleDateString : Z → string.
Variable numberToString : num → string.

(** The description of a row reads back when it has no double quote. *)
Lemma readQuoted_plain (d rest : string) :
  quoteFree d = true →
  readQuoted (d +:+ dq +:+ "," +:+ rest) = Some (d, "," +:+ rest).
Proof.
  induction d as [|c d IH]; intros Hd; [reflexivity|].
  cbn in Hd. apply andb_true_iff in Hd as [Hc Hd].
  apply negb_true_iff in Hc.
  change (String c d +:+ ?x) with (String c (d +:+ x)).
  cbn [readQuoted]. rewrite Hc, (IH Hd). reflexivity.
Qed.

(** One transaction whose description has a line break in it and two
    transactions give the same file. *)
Lemma rows_collide (p1 p2 : Z) (d1 d2 : string) (a1 a2 : num) (ty1 ty2 : string) :
  Cli.csvContent toLocaleDateString numberToString
    [{| primeId := p1;
        description :=
          d1 +:+ dq +:+ "," +:+ numberToString a1 +:+ "," +:+ ty1 +:+ lf
             +:+ toLocaleDateString p2 +:+ "," +:+ dq +:+ d2;
        amount := a2; type := ty2 |}]
  = Cli.csvContent toLocaleDateString numberToString
      [{| primeId := p1; description := d1; amount := a1; type := ty1 |};
       {| primeId := p2; description := d2; amount := a2; type := ty2 |}].
Proof.
  unfold Cli.csvContent, Cli.csvRow. cbn [map JS.join primeId description amount type].
  f_equal. f_equal. rewrite !append_assoc. reflexivity.
Qed.

(** So no reader at all gives back the contents of every ledger. *)
Lemma no_reader_inverts_the_export (a : num) :
  ¬ ∃ read : string → list (string * num * string),
      ∀ ts, read (Cli.csvContent toLocaleDateString numberToString ts)
            = contents ts.
Proof.
  intros [read Hread].
  pose proof (rows_collide 1 2 "x" "y" a a "income" "expense") as E.
  apply (f_equal read) in E. rewrite !Hread in E.
  apply (f_equal length) in E. discriminate E.
Qed.
End CsvFacts.

(** C8 fails on the code.  In the row of the export the double quote of a
    description is written as it is, between the two that enclose the
    field.  For the 5-inch nails the quoted field that a reader takes from
    the row is 5, not the description, and the text that follows it is no
    separator. *)
Theorem export_does_not_escape_quotes
    (toLocaleDateString : Z → string) (numberToString : float → string) :
  Cli.exportToCSV toLocaleDateString numberToString [nails]
  = Some ("Date,Description,Amount,Type" +:+ lf
          +:+ toLocaleDateString 1700000000000 +:+ "," +:+ dq
          +:+ "5" +:+ dq +:+ " nails" +:+ dq
          +:+ "," +:+ numberToString 12%float +:+ ",expense")
  ∧ readQuoted ("5" +:+ dq +:+ " nails" +:+ dq
                +:+ "," +:+ numberToString 12%float +:+ ",expense")
    = Some ("5", " nails" +:+ dq +:+ "," +:+ numberToString 12%float
                 +:+ ",expense")
  ∧ "5" ≠ description nails.
Proof.
  split; [|split].
  - unfold Cli.exportToCSV, Cli.csvContent, Cli.csvRow, nails, expense.
    cbn [length Nat.eqb map JS.join primeId description amount type].
    rewrite !append_assoc. reflexivity.
  - reflexivity.
  - discriminate.
Qed.

(* ================================================================== *)
(** * Further properties of [server.js] *)
(* ================================================================== *)

(** X1.  POST then DELETE of the id just given.  When no record had that id,
    the ledger is back as it was; when one had it already, that older
    record is the one removed, and the new record stays. *)
Theorem post_then_delete (now : Z) (reqBody : gmap string value)
    (ts : list (gmap string value)) :
  (Forall (fun t => ¬ carries (pretty now) t) ts →
   deleteTransaction (pretty now) (postTransaction now reqBody ts).1
   = (ts, {| status := 204; body := None |}))
  ∧ (∀ pre old post,
       ts = pre ++ old :: post →
       Forall (fun t => ¬ carries (pretty now) t) pre →
       carries (pretty now) old →
       deleteTransaction (pretty now) (postTransaction now reqBody ts).1
       = (pre ++ post ++ [<["id" := VStr (pretty now)]> reqBody],
          {| status := 204; body := None |})).
Proof.
  split.
  - intros Hts. cbn [postTransaction fst].
    rewrite (delete_present (pretty now) ts _ []); [|exact Hts|].
    + rewrite app_nil_r. reflexivity.
    + unfold carries. apply lookup_insert_eq.
  - intros pre old post -> Hpre Hold. cbn [postTransaction fst].
    rewrite <- app_assoc. cbn [app].
    rewrite (delete_present (pretty now) pre old) by assumption.
    reflexivity.
Qed.

Lemma post_then_delete_witness :
  deleteTransaction "1700000000001"
    (postTransaction 1700000000001 ∅ rentLedger).1
  = (rentLedger, {| status := 204; body := None |})
  ∧ deleteTransaction "1700000000000"
      (postTransaction 1700000000000 ∅ rentLedger).1
    = ([<["id" := VStr "1700000000000"]> ∅],
       {| status := 204; body := None |}).
Proof.
  split.
  - refine (proj1 (post_then_delete 1700000000001 ∅ rentLedger) _).
    repeat constructor. intros H. vm_compute in H. discriminate H.
  - refine (proj2 (post_then_delete 1700000000000 ∅ rentLedger)
              [] rentRecord [] eq_refl _ _).
    + constructor.
    + vm_compute. reflexivity.
Defined.

(** X2.  Two PUTs on the same id are one PUT of the second body merged over the
    first, as long as the first body leaves the id alone; so a PUT repeated
    changes nothing more. *)
Theorem put_then_put (id : string) (b1 b2 : gmap string value)
    (pre : list (gmap string value)) (old : gmap string value)
    (post : list (gmap string value)) :
  Forall (fun u => ¬ carries id u) pre → carries id old →
  b1 !! "id" = None →
  putTransaction id b2 (putTransaction id b1 (pre ++ old :: post)).1
  = putTransaction id (b2 ∪ b1) (pre ++ old :: post)
  ∧ (putTransaction id b1 (putTransaction id b1 (pre ++ old :: post)).1).1
    = (putTransaction id b1 (pre ++ old :: post)).1.
Proof.
  intros Hpre Hold Hb1.
  assert (Hmerged : carries id (b1 ∪ old)).
  { unfold carries. rewrite lookup_union_r by exact Hb1. exact Hold. }
  rewrite !(put_present id _ pre old post) by assumption. cbn [fst].
  rewrite !(put_present id _ pre (b1 ∪ old) post) by assumption.
  rewrite (assoc_L (∪) b2 b1 old), (assoc_L (∪) b1 b1 old), (idemp_L (∪) b1).
  split; reflexivity.
Qed.

Lemma put_then_put_witness :
  putTransaction "1700000000000" {[ "type" := VStr "income" ]}
    (putTransaction "1700000000000" {[ "amount" := VNum 450%float ]}
       rentLedger).1
  = putTransaction "1700000000000"
      ({[ "type" := VStr "income" ]} ∪ {[ "amount" := VNum 450%float ]})
      rentLedger.
Proof.
  refine (proj1 (put_then_put "1700000000000"
                   {[ "amount" := VNum 450%float ]} {[ "type" := VStr "income" ]}
                   [] rentRecord [] _ _ _)).
  - constructor.
  - vm_compute. reflexivity.
  - vm_compute. reflexivity.
Defined.

(** X3.  A PUT whose body has another id moves the record to that id: when no
    other record had the old id, the record answers to the new id and the
    old id is not found any more, by PUT or by DELETE. *)
Theorem put_moves_the_record (id id' : string) (reqBody : gmap string value)
    (pre : list (gmap string value)) (old : gmap string value)
    (post : list (gmap string value)) :
  Forall (fun u => ¬ carries id u) pre → carries id old →
  Forall (fun u => ¬ carries id u) post →
  reqBody !! "id" = Some (VStr id') → id' ≠ id →
  ∃ moved,
    (putTransaction id reqBody (pre ++ old :: post)).1 = pre ++ moved :: post
    ∧ carries id' moved
    ∧ ∀ b, putTransaction id b (pre ++ moved :: post)
           = (pre ++ moved :: post, notFound)
           ∧ deleteTransaction id (pre ++ moved :: post)
             = (pre ++ moved :: post, notFound).
Proof.
  intros Hpre Hold Hpost Hb Hne.
  exists (reqBody ∪ old).
  assert (Hmoved : carries id' (reqBody ∪ old)).
  { unfold carries. apply lookup_union_Some_l, Hb. }
  assert (Hall : Forall (fun u => ¬ carries id u) (pre ++ (reqBody ∪ old) :: post)).
  { apply Forall_app. split; [exact Hpre|]. constructor; [|exact Hpost].
    unfold carries in *. rewrite Hmoved. congruence. }
  split; [rewrite put_present by assumption; reflexivity|].
  split; [exact Hmoved|].
  intros b. split; [apply put_absent | apply delete_absent]; exact Hall.
Qed.

Lemma put_moves_the_record_witness :
  ∃ moved,
    (putTransaction "1700000000000" {[ "id" := VStr "42" ]} rentLedger).1
    = [moved]
    ∧ carries "42" moved
    ∧ ∀ b, putTransaction "1700000000000" b [moved] = ([moved], notFound)
           ∧ deleteTransaction "1700000000000" [moved] = ([moved], notFound).
Proof.
  refine (put_moves_the_record "1700000000000" "42" {[ "id" := VStr "42" ]}
            [] rentRecord [] _ _ _ _ _).
  - constructor.
  - vm_compute. reflexivity.
  - constructor.
  - vm_compute. reflexivity.
  - discriminate.
Defined.
(** X4.  After the DELETE of an id that one record carried, the id is not
    found any more, by DELETE or by PUT. *)
Theorem delete_then_not_found (id : string)
    (pre : list (gmap string value)) (old : gmap string value)
    (post : list (gmap string value)) :
  Forall (fun u => ¬ carries id u) pre → carries id old →
  Forall (fun u => ¬ carries id u) post →
  (deleteTransaction id (pre ++ old :: post)).1 = pre ++ post
  ∧ deleteTransaction id (deleteTransaction id (pre ++ old :: post)).1
    = (pre ++ post, notFound)
  ∧ ∀ reqBody,
      putTransaction id reqBody (deleteTransaction id (pre ++ old :: post)).1
      = (pre ++ post, notFound).
Proof.
  intros Hpre Hold Hpost.
  assert (Hall : Forall (fun u => ¬ carries id u) (pre ++ post))
    by (apply Forall_app; split; assumption).
  rewrite delete_present by assumption. cbn [fst].
  split; [reflexivity|]. split; [apply delete_absent, Hall|].
  intros reqBody. apply put_absent, Hall.
Qed.

Lemma delete_then_not_found_witness :
  (deleteTransaction "1700000000000" rentLedger).1 = []
  ∧ deleteTransaction "1700000000000"
      (deleteTransaction "1700000000000" rentLedger).1
    = ([], notFound).
Proof.
  destruct (delete_then_not_found "1700000000000" [] rentRecord [])
    as (H1 & H2 & _).
  - constructor.
  - vm_compute. reflexivity.
  - constructor.
  - split; [exact H1 | exact H2].
Defined.

(** X5.  Whatever the limit, the recent transactions are an end piece of the
    ledger, in its order; with no limit they are 10, or all when there are
    fewer; and with the limit 1 after a POST, the record just stored. *)
Theorem recent_is_an_end_piece {A : Type} (limit : option string)
    (ts : list A) (now : Z) (reqBody : gmap string value)
    (records : list (gmap string value)) :
  recent limit ts `suffix_of` ts
  ∧ length (recent None ts) = Nat.min 10 (length ts)
  ∧ recent (Some "1") (postTransaction now reqBody records).1
    = [<["id" := VStr (pretty now)]> reqBody].
Proof.
  split; [|split].
  - unfold recent, JS.slice. apply suffix_drop.
  - rewrite recent_default by (left; reflexivity).
    rewrite length_drop. lia.
  - rewrite (recent_positive _ _ 1) by reflexivity.
    cbn [postTransaction fst]. rewrite length_app. cbn [length].
    replace (length records + 1 - Z.to_nat 1)%nat with (length records) by lia.
    apply drop_app_length.
Qed.

(* ================================================================== *)
(** * Further properties of the balance *)
(* ================================================================== *)

(** ** Transactions that are neither income nor expense *)

Section OtherTypes.
Context {num : Type} `{Exact num}.

Lemma sub_sub_swap x a b : sub (sub x a) b = sub (sub x b) a.
Proof.
  rewrite !sub_add_opp, <- !add_assoc. f_equal. apply add_comm.
Qed.

(** The fold of the balance keeps pace with three folds: over the incomes,
    over the expenses, and over the transactions that are neither. *)
Lemma balance_fold_any (ts : list (transaction num)) : ∀ i e o,
  fold_left
    (fun balance t =>
       if String.eqb (type t) "income" then add balance (amount t)
       else sub balance (amount t))
    ts (sub (sub i e) o)
  = sub
      (sub
         (fold_left (fun sum t => add sum (amount t)) (List.filter isIncome ts) i)
         (fold_left (fun sum t => add sum (amount t)) (List.filter isExpense ts) e))
      (fold_left (fun sum t => add sum (amount t)) (List.filter isOther ts) o).
Proof.
  induction ts as [|t ts IH]; intros i e o; [reflexivity|].
  cbn [fold_left List.filter].
  change (isOther t) with (negb (isIncome t) && negb (isExpense t)).
  change (isIncome t) with (String.eqb (type t) "income").
  change (isExpense t) with (String.eqb (type t) "expense").
  destruct (String.eqb_spec (type t) "income") as [E | Ni].
  - rewrite E. cbn [String.eqb Ascii.eqb Bool.eqb negb andb fold_left].
    rewrite credit_income, (credit_income i e). apply IH.
  - destruct (String.eqb_spec (type t) "expense") as [E | Ne];
      cbn [negb andb fold_left].
    + rewrite sub_sub_swap, (debit_expense i e). apply IH.
    + rewrite debit_expense. apply IH.
Qed.
End OtherTypes.

(** X6.  A transaction whose type is neither income nor expense is subtracted
    from the balance of [calculateBalance] and of GET /api/balance, and is
    in none of the two totals: in an exact arithmetic the balance is the
    income total minus the expense total minus the total of those
    transactions, for the route and for [viewBalance]. *)
Theorem other_types_count_as_expenses {num : Type} `{Exact num}
    (ts : list (transaction num)) :
  Server.getBalance ts
  = sub (Server.balance (Server.getSummary ts)) (totalOf isOther ts)
  ∧ Cli.shownBalance (Cli.viewBalance ts)
    = sub (sub (Cli.shownIncome (Cli.viewBalance ts))
               (Cli.shownExpenses (Cli.viewBalance ts)))
          (totalOf isOther ts).
Proof.
  pose proof (balance_fold_any ts zero zero zero) as E.
  rewrite !sub_zero_zero in E. split; exact E.
Qed.

(** ** The balance of whole amounts in binary64 *)

Lemma sumUnits_nonneg keep ts : Forall wholeAmount ts → 0 <= sumUnits keep ts.
Proof.
  induction 1 as [|t ts [_ Ht] _ IH]; [reflexivity|].
  cbn [sumUnits foldr]. fold (sumUnits keep ts). destruct (keep t); lia.
Qed.

Lemma sumUnits_Permutation keep ts us :
  ts ≡ₚ us → sumUnits keep ts = sumUnits keep us.
Proof.
  induction 1 as [|t ts us _ IH|t u ts|ts us vs _ IH1 _ IH2];
    cbn [sumUnits foldr] in *; unfold sumUnits in *; cbn [foldr]; lia.
Qed.

(** The fold of the balance on whole amounts, from a whole balance [b]:
    nothing rounds while the sizes stay below 2^53. *)
Lemma whole_balance_fold ts :
  Forall wholeAmount ts →
  ∀ xb b, whole xb b →
    Z.abs b + sumUnits (fun _ => true) ts < 2 ^ 53 →
    whole
      (fold_left
         (fun balance t =>
            if String.eqb (type t) "income" then add balance (amount t)
            else sub balance (amount t)) ts xb)
      (b + sumUnits isIncome ts - sumUnits (fun t => negb (isIncome t)) ts).
Proof.
  induction 1 as [|t ts [Hw Ht] Hts IH]; intros xb b Hb Hsum.
  - cbn. replace (b + 0 - 0) with b by lia. exact Hb.
  - pose proof (sumUnits_nonneg (fun _ => true) ts Hts) as Hnn.
    cbn [sumUnits foldr] in *.
    fold (sumUnits isIncome ts) (sumUnits (fun t => negb (isIncome t)) ts)
         (sumUnits (fun _ => true) ts) in *.
    cbn [fold_left]. unfold isIncome at 1 3.
    destruct (String.eqb (type t) "income"); cbn [negb].
    + replace (b + (unitsOf (amount t) + sumUnits isIncome ts)
               - (0 + sumUnits (fun t => negb (isIncome t)) ts))
        with (b + unitsOf (amount t) + sumUnits isIncome ts
              - sumUnits (fun t => negb (isIncome t)) ts) by lia.
      apply IH; [apply whole_add; try assumption; lia | lia].
    + replace (b + (0 + sumUnits isIncome ts)
               - (unitsOf (amount t) + sumUnits (fun t => negb (isIncome t)) ts))
        with (b - unitsOf (amount t) + sumUnits isIncome ts
              - sumUnits (fun t => negb (isIncome t)) ts) by lia.
      apply IH; [apply whole_sub; try assumption; lia | lia].
Qed.

(** X7.  In binary64, on amounts that are whole numbers, none negative, with a
    sum below 2^53: the balance is the whole number that the incomes make
    minus the one that the other transactions make, and it does not depend
    on the order of the transactions. *)
Theorem whole_balance_is_exact (ts us : list (transaction float)) :
  Forall wholeAmount ts → sumUnits (fun _ => true) ts < 2 ^ 53 →
  whole (Cli.calculateBalance ts)
    (sumUnits isIncome ts - sumUnits (fun t => negb (isIncome t)) ts)
  ∧ (ts ≡ₚ us →
     Cli.calculateBalance us = Cli.calculateBalance ts
     ∧ Server.getBalance us = Server.getBalance ts).
Proof.
  intros Hts Hsum.
  assert (Hbal : ∀ vs, Forall wholeAmount vs →
            sumUnits (fun _ => true) vs < 2 ^ 53 →
            whole (Cli.calculateBalance vs)
              (sumUnits isIncome vs - sumUnits (fun t => negb (isIncome t)) vs)).
  { intros vs Hvs Hb.
    pose proof (whole_balance_fold vs Hvs 0%float 0 eq_refl) as W.
    cbn [Z.abs Z.add] in W. apply W, Hb. }
  split; [apply Hbal; assumption|].
  intros Hp.
  assert (E : Cli.calculateBalance us = Cli.calculateBalance ts).
  { eapply whole_inj; [|apply Hbal; assumption].
    rewrite (sumUnits_Permutation isIncome ts us Hp),
            (sumUnits_Permutation (fun t => negb (isIncome t)) ts us Hp).
    apply Hbal.
    - rewrite <- Hp. exact Hts.
    - rewrite <- (sumUnits_Permutation _ ts us Hp). exact Hsum. }
  split; exact E.
Qed.

Lemma whole_balance_is_exact_witness :
  whole (Cli.calculateBalance salaryAndRent64) 600
  ∧ Cli.calculateBalance (reverse salaryAndRent64)
    = Cli.calculateBalance salaryAndRent64.
Proof.
  assert (Hts : Forall wholeAmount salaryAndRent64).
  { repeat constructor; vm_compute; first [reflexivity | discriminate]. }
  assert (Hsum : sumUnits (fun _ => true) salaryAndRent64 < 2 ^ 53)
    by (vm_compute; reflexivity).
  destruct (whole_balance_is_exact salaryAndRent64 (reverse salaryAndRent64)
              Hts Hsum) as [W P].
  split; [exact W|]. apply P. apply Permutation_sym, reverse_Permutation.
Defined.

(* ================================================================== *)
(** * Further properties of [cli.js] *)
(* ================================================================== *)

(** ** The callback of the delete, by position *)

Lemma deleteAnswer_position {num : Type} (idStr : string)
    (pre : list (transaction num)) (t : transaction num)
    (post : list (transaction num)) :
  JS.parseInt idStr = JS.Int (Z.of_nat (length pre) + 1) →
  Cli.deleteAnswer idStr (pre ++ t :: post)
  = (pre ++ post, Cli.Deleted t).
Proof.
  intros E. unfold Cli.deleteAnswer. rewrite E.
  cbn [JS.strictEq JS.lt JS.gt JS.minus].
  destruct (Z.eqb_spec (Z.of_nat (length pre) + 1) 0) as [?|_]; [lia|].
  destruct (Z.ltb_spec (Z.of_nat (length pre) + 1) 1) as [?|_]; [lia|].
  rewrite length_app. cbn [length].
  destruct (Z.ltb_spec (Z.of_nat (length pre + S (length post)))
              (Z.of_nat (length pre) + 1)) as [?|_]; [lia|].
  cbn [orb].
  replace (Z.of_nat (length pre) + 1 - 1) with (Z.of_nat (length pre)) by lia.
  rewrite splice_one. reflexivity.
Qed.

Lemma splice_nil {A} start deleteCount :
  JS.splice (@nil A) start deleteCount = ([], []).
Proof.
  unfold JS.splice. rewrite !drop_nil, !take_nil. reflexivity.
Qed.

Lemma deleteAnswer_nan {num : Type} (idStr : string)
    (file : list (transaction num)) :
  JS.parseInt idStr = JS.NaN →
  Cli.deleteAnswer idStr file
  = match file with
    | [] => ([], Cli.TypeError)
    | t :: ts => (ts, Cli.Deleted t)
    end.
Proof.
  intros E. unfold Cli.deleteAnswer. rewrite E.
  cbn [JS.strictEq JS.lt JS.gt JS.minus orb].
  destruct file as [|t ts]; [rewrite splice_nil | rewrite splice_first];
    reflexivity.
Qed.

(** The answer reads as an integer: the delete cancels, refuses, or removes
    the transaction at that position. *)
Lemma deleteAnswer_int {num : Type} (idStr : string) (n : Z)
    (file : list (transaction num)) :
  JS.parseInt idStr = JS.Int n →
  (n = 0 ∧ Cli.deleteAnswer idStr file = (file, Cli.Cancelled))
  ∨ ((n < 0 ∨ Z.of_nat (length file) < n)
     ∧ Cli.deleteAnswer idStr file = (file, Cli.InvalidId))
  ∨ (∃ pre t post,
       file = pre ++ t :: post ∧ n = Z.of_nat (length pre) + 1
       ∧ Cli.deleteAnswer idStr file = (pre ++ post, Cli.Deleted t)).
Proof.
  intros E.
  destruct (Z.eq_dec n 0) as [-> | Hn0].
  { left. split; [reflexivity|]. unfold Cli.deleteAnswer. rewrite E.
    reflexivity. }
  right.
  destruct (Z_lt_le_dec n 0) as [Hneg | Hpos];
    [|destruct (Z_lt_le_dec (Z.of_nat (length file)) n) as [Hbig | Hin]].
  - left. split; [left; exact Hneg|].
    unfold Cli.deleteAnswer. rewrite E. cbn [JS.strictEq JS.lt JS.gt].
    destruct (Z.eqb_spec n 0) as [?|_]; [lia|].
    destruct (Z.ltb_spec n 1) as [_|?]; [reflexivity | lia].
  - left. split; [right; exact Hbig|].
    unfold Cli.deleteAnswer. rewrite E. cbn [JS.strictEq JS.lt JS.gt].
    destruct (Z.eqb_spec n 0) as [?|_]; [lia|].
    destruct (Z.ltb_spec (Z.of_nat (length file)) n) as [_|?]; [|lia].
    rewrite orb_true_r. reflexivity.
  - right.
    destruct (lookup_lt_is_Some_2 file (Z.to_nat (n - 1)) ltac:(lia)) as [t Ht].
    exists (take (Z.to_nat (n - 1)) file), t, (drop (S (Z.to_nat (n - 1))) file).
    assert (Hlen : length (take (Z.to_nat (n - 1)) file) = Z.to_nat (n - 1)).
    { rewrite length_take. lia. }
    assert (Hfile : file = take (Z.to_nat (n - 1)) file
                           ++ t :: drop (S (Z.to_nat (n - 1))) file).
    { symmetry. apply take_drop_middle, Ht. }
    split; [exact Hfile|]. split; [lia|].
    rewrite Hfile at 1. apply deleteAnswer_position.
    rewrite E, Hlen. f_equal. lia.
Qed.

(** The file after a delete is the file with at most one transaction
    taken out. *)
Lemma deleteAnswer_sublist {num : Type} (idStr : string)
    (file : list (transaction num)) :
  (Cli.deleteAnswer idStr file).1 `sublist_of` file.
Proof.
  destruct (JS.parseInt idStr) as [|n] eqn:E.
  - rewrite (deleteAnswer_nan _ _ E).
    destruct file; [reflexivity | apply sublist_cons; reflexivity].
  - destruct (deleteAnswer_int idStr n file E)
      as [[_ ->] | [[_ ->] | (pre & t & post & -> & _ & ->)]];
      [reflexivity | reflexivity |].
    apply sublist_app; [reflexivity | apply sublist_cons; reflexivity].
Qed.

Lemma deleteAnswer_throws {num : Type} (idStr : string)
    (file : list (transaction num)) :
  (Cli.deleteAnswer idStr file).2 = Cli.TypeError
  ↔ JS.parseInt idStr = JS.NaN ∧ file = [].
Proof.
  split.
  - destruct (JS.parseInt idStr) as [|n] eqn:E.
    + rewrite (deleteAnswer_nan _ _ E).
      destruct file; [split; reflexivity | discriminate].
    + destruct (deleteAnswer_int idStr n file E)
        as [[_ ->] | [[_ ->] | (pre & t & post & -> & _ & ->)]]; discriminate.
  - intros [E ->]. rewrite (deleteAnswer_nan _ _ E). reflexivity.
Qed.
Lemma deleteAnswer_lookup {num : Type} (idStr : string) (k : nat)
    (file : list (transaction num)) (t : transaction num) :
  JS.parseInt idStr = JS.Int (Z.of_nat k + 1) → file !! k = Some t →
  Cli.deleteAnswer idStr file = (delete k file, Cli.Deleted t).
Proof.
  intros E Ht.
  pose proof (lookup_lt_Some _ _ _ Ht) as Hk.
  rewrite <- (take_drop_middle file k t Ht) at 1.
  rewrite deleteAnswer_position
    by (rewrite E, length_take; f_equal; lia).
  rewrite delete_take_drop. reflexivity.
Qed.

(** ** Amounts typed as whole numbers *)

Lemma digit_char (d : N) :
  (d < 10)%N →
  JS.inRange 48 57 (pretty_N_char d) = true
  ∧ JS.code (pretty_N_char d) - 48 = Z.of_N d
  ∧ JS.isWhiteSpace (pretty_N_char d) = false
  ∧ Ascii.eqb "I" (pretty_N_char d) = false
  ∧ pretty_N_char d ≠ "-"%char ∧ pretty_N_char d ≠ "+"%char.
Proof.
  intros Hd.
  assert (d = 0 ∨ d = 1 ∨ d = 2 ∨ d = 3 ∨ d = 4 ∨ d = 5 ∨ d = 6 ∨ d = 7
          ∨ d = 8 ∨ d = 9)%N as H by lia.
  repeat destruct H as [-> | H]; try subst d;
    repeat split; try reflexivity; discriminate.
Qed.

(** [readDigits] on the decimal of [x]: it reads [x], and at least one
    digit. *)
Lemma readDigits_pretty_go (x : N) : ∀ s,
  (0 < x)%N →
  ∃ k, 0 < k ∧ ∀ cnt,
    JS.readDigits (pretty_N_go x s) 0 cnt
    = JS.readDigits s (Z.of_N x) (cnt + k).
Proof.
  induction (N.lt_wf_0 x) as [x _ IH]. intros s Hx.
  rewrite pretty_N_go_step by exact Hx.
  assert (Hm : (x `mod` 10 < 10)%N) by (apply N.mod_lt; lia).
  destruct (digit_char _ Hm) as (Hr & Hv & _).
  pose proof (N.div_mod x 10%N ltac:(lia)) as K.
  destruct (N.eq_dec (x `div` 10)%N 0%N) as [E | E].
  - exists 1. split; [lia|]. intros cnt.
    rewrite E, pretty_N_go_0. cbn [JS.readDigits]. rewrite Hr, Hv.
    f_equal. rewrite E in K.
    set (m := (x `mod` 10)%N) in *. clearbody m. lia.
  - assert (Hq : (0 < x `div` 10)%N) by (apply N.neq_0_lt_0, E).
    assert (Hlt : (x `div` 10 < x)%N) by (apply N.div_lt; [exact Hx | reflexivity]).
    destruct (IH _ Hlt (String (pretty_N_char (x `mod` 10)) s) Hq) as (k & Hk & G).
    exists (k + 1). split; [lia|]. intros cnt.
    rewrite G. cbn [JS.readDigits]. rewrite Hr, Hv.
    f_equal; [|lia].
    set (m := (x `mod` 10)%N) in *. set (q := (x `div` 10)%N) in *.
    clearbody m q. lia.
Qed.

Lemma finite53_valid s (q : positive) :
  Z.pos q < 2 ^ 53 →
  valid_binary (S754_finite s (mantissa53 q) (Z.pos (digits2_pos q) - 53)) = true.
Proof.
  intros Hn. pose proof (digits_le_53 q Hn) as Hd.
  pose proof (mantissa53_digits q Hd) as Hm.
  cbn [SpecFloat.valid_binary]. unfold bounded, canonical_mantissa.
  rewrite Hm, fexp64. change (emax - prec) with 971.
  apply andb_true_iff. split; [apply Z.eqb_eq | apply Z.leb_le]; lia.
Qed.

Lemma wholeSF_valid n : Z.abs n < 2 ^ 53 → valid_binary (wholeSF n) = true.
Proof.
  intros Hn. destruct n as [|q|q]; [reflexivity| |].
  - destruct (wholeSF_pos q Hn) as [-> _]. apply finite53_valid, Hn.
  - destruct (wholeSF_pos q Hn) as [_ ->]. apply finite53_valid, Hn.
Qed.

Lemma ofDecimal_whole (sgn : bool) (p : positive) :
  Z.pos p < 2 ^ 53 →
  whole (JS.ofDecimal sgn (Z.pos p) 0) (cond_Zopp sgn (Z.pos p)).
Proof.
  intros Hp. unfold whole, JS.ofDecimal. cbn [Z.leb Z.compare Z.pow].
  rewrite Z.mul_1_r.
  assert (E : binary_normalize prec emax (cond_Zopp sgn (Z.pos p)) 0 sgn
              = wholeSF (cond_Zopp sgn (Z.pos p))).
  { destruct sgn; reflexivity. }
  rewrite E. apply Prim2SF_SF2Prim, wholeSF_valid.
  destruct sgn; cbn [cond_Zopp Z.opp Z.abs]; exact Hp.
Qed.

Lemma parseFloat_digits (sgn : bool) (S1 : string) (x : N) :
  (0 < x)%N →
  S1 = pretty_N_go x EmptyString →
  (if JS.startsWith S1 "Infinity" then (if sgn then neg_infinity else infinity)
   else
    let '(mi, ni, S2) := JS.readDigits S1 0 0 in
    let '(m, nf, S3) :=
      match S2 with
      | String "." r => JS.readDigits r mi 0
      | _ => (mi, 0, S2)
      end in
    if ni + nf =? 0 then nan
    else
      let exponentOf r :=
        let '(eneg, r') :=
          match r with
          | String "-" t => (true, t)
          | String "+" t => (false, t)
          | _ => (false, r)
          end in
        let '(ev, en, _) := JS.readDigits r' 0 0 in
        if en =? 0 then 0 else if eneg then - ev else ev in
      let e :=
        match S3 with
        | String "e" r => exponentOf r
        | String "E" r => exponentOf r
        | _ => 0
        end in
      JS.ofDecimal sgn m (e - nf))
  = JS.ofDecimal sgn (Z.of_N x) 0.
Proof.
  intros Hx ->.
  destruct (pretty_go_head x EmptyString Hx) as (d & r & Hd & Hd1).
  destruct (digit_char d ltac:(lia)) as (_ & _ & _ & HI & _).
  destruct (readDigits_pretty_go x EmptyString Hx) as (k & Hk & G).
  rewrite (G 0). rewrite Hd. cbn [JS.startsWith]. rewrite HI. cbn [andb].
  cbn [JS.readDigits]. rewrite Z.add_0_r.
  destruct (Z.eqb_spec (0 + k) 0) as [?|_]; [lia|]. reflexivity.
Qed.

(** An integer below 2^53 in size, typed in decimal, is read as that
    integer. *)
Lemma parseFloat_pretty (n : Z) :
  Z.abs n < 2 ^ 53 → whole (JS.parseFloat (pretty n)) n.
Proof.
  intros Hn. destruct n as [|p|p]; [reflexivity| |].
  - change (pretty (Z.pos p)) with (pretty_N_go (N.pos p) EmptyString).
    destruct (pretty_go_head (N.pos p) EmptyString eq_refl) as (d & r & Hd & Hd1).
    destruct (digit_char d ltac:(lia)) as (_ & _ & Hws & _ & Hm & Hp).
    unfold JS.parseFloat. rewrite Hd. cbn [JS.trimStart]. rewrite Hws.
    assert (E : match String (pretty_N_char d) r with
                | String "-" r0 => (true, r0)
                | String "+" r0 => (false, r0)
                | _ => (false, String (pretty_N_char d) r)
                end = (false, String (pretty_N_char d) r)).
    { clear -Hd1. 
      assert (d = 1 ∨ d = 2 ∨ d = 3 ∨ d = 4 ∨ d = 5 ∨ d = 6 ∨ d = 7
              ∨ d = 8 ∨ d = 9)%N as H by lia.
      repeat destruct H as [-> | H]; try subst d; reflexivity. }
    rewrite E.
    refine (eq_ind_r (fun x => whole x (Z.pos p)) (ofDecimal_whole false p Hn)
              (parseFloat_digits false _ (N.pos p) eq_refl (eq_sym Hd))).
  - change (pretty (Z.neg p))
      with (String "-" (pretty_N_go (N.pos p) EmptyString)).
    unfold JS.parseFloat.
    change (JS.trimStart (String "-" ?s)) with (String "-" s).
    refine (eq_ind_r (fun x => whole x (Z.neg p)) (ofDecimal_whole true p Hn)
              (parseFloat_digits true _ (N.pos p) eq_refl eq_refl)).
Qed.

Lemma unitsOf_whole x n : whole x n → Z.abs n < 2 ^ 53 → unitsOf x = n.
Proof.
  unfold whole, unitsOf. intros -> Hn.
  destruct n as [|q|q]; [reflexivity| |];
    [destruct (wholeSF_pos q Hn) as [-> _] | destruct (wholeSF_pos q Hn) as [_ ->]].
  - pose proof (digits_le_53 q Hn) as Hd.
    rewrite mantissa53_val by exact Hd.
    cbn [cond_Zopp].
    replace (Z.pos (digits2_pos q) - 53) with (- (53 - Z.pos (digits2_pos q))) by lia.
    rewrite Z.shiftl_opp_r, Z.shiftr_div_pow2 by lia.
    apply Z.div_mul. apply Z.pow_nonzero; lia.
  - pose proof (digits_le_53 q Hn) as Hd.
    rewrite mantissa53_val by exact Hd.
    cbn [cond_Zopp].
    replace (Z.pos (digits2_pos q) - 53) with (- (53 - Z.pos (digits2_pos q))) by lia.
    rewrite Z.shiftl_opp_r, Z.shiftr_div_pow2 by lia.
    rewrite Z.div_mul by (apply Z.pow_nonzero; lia). reflexivity.
Qed.

(** The guard of [addTransaction] on a double that is an integer. *)
Lemma guard_whole x n :
  whole x n → Z.abs n < 2 ^ 53 → rejectedAmount x = negb (0 <? n).
Proof.
  unfold whole, rejectedAmount, is_nan. intros Hx Hn.
  rewrite FloatAxioms.eqb_spec, FloatAxioms.leb_spec, Hx.
  change (Prim2SF 0) with (S754_zero false).
  destruct n as [|q|q]; [reflexivity| |];
    [destruct (wholeSF_pos q Hn) as [-> _] | destruct (wholeSF_pos q Hn) as [_ ->]];
    unfold SFeqb, SFleb; cbn [SFcompare];
    rewrite Z.compare_refl, Pos.compare_cont_refl; reflexivity.
Qed.

(** X12.  An amount typed as a whole number below 2^53 in size: when it is
    positive the transaction is added, with the amount that is this number
    exactly; when it is zero or negative the add is refused and the file
    stays as it is. *)
Theorem whole_amount_at_the_prompt (ty answer : string) (now n : Z)
    (file : list (transaction float)) :
  Z.abs n < 2 ^ 53 →
  (0 < n →
   ∃ t, Cli.addTransaction ty answer (pretty n) now file
        = (file ++ [t], Cli.Added)
        ∧ primeId t = now ∧ type t = ty
        ∧ description t = JS.trim answer
        ∧ wholeAmount t ∧ unitsOf (amount t) = n)
  ∧ (n <= 0 →
     Cli.addTransaction ty answer (pretty n) now file
     = (file, Cli.InvalidAmount)).
Proof.
  intros Hn. pose proof (parseFloat_pretty n Hn) as Hw.
  pose proof (guard_whole _ _ Hw Hn) as Hg.
  pose proof (unitsOf_whole _ _ Hw Hn) as Hu. split.
  - intros Hpos. eexists. split; [|split; [|split; [|split; [|split]]]].
    + apply addTransaction_accepted. rewrite Hg.
      destruct (Z.ltb_spec 0 n); [reflexivity | lia].
    + reflexivity.
    + reflexivity.
    + reflexivity.
    + unfold wholeAmount. cbn [amount]. rewrite Hu. split; [exact Hw | lia].
    + exact Hu.
  - intros Hle. apply addTransaction_rejected. rewrite Hg.
    destruct (Z.ltb_spec 0 n); [lia | reflexivity].
Qed.

Lemma whole_amount_at_the_prompt_witness :
  (∃ t, Cli.addTransaction "income" "Salary" "1000" 1700000000000 []
        = ([] ++ [t], Cli.Added)
        ∧ primeId t = 1700000000000 ∧ type t = "income"
        ∧ description t = JS.trim "Salary"
        ∧ wholeAmount t ∧ unitsOf (amount t) = 1000)
  ∧ Cli.addTransaction "expense" "Rent" "-400" 1700000000000 []
    = ([], Cli.InvalidAmount).
Proof.
  split.
  - refine (proj1 (whole_amount_at_the_prompt "income" "Salary" 1700000000000
                     1000 [] _) _); reflexivity.
  - refine (proj2 (whole_amount_at_the_prompt "expense" "Rent" 1700000000000
                     (-400) [] _) _); [reflexivity | discriminate].
Defined.

(** ** Searching within a search *)

Lemma includes_trans a b c :
  JS.includes a b = true → JS.includes b c = true → JS.includes a c = true.
Proof.
  rewrite !includes_spec. intros (p & q & ->) (p' & q' & ->).
  exists (p +:+ p'), (q' +:+ q). rewrite !append_assoc. reflexivity.
Qed.

Lemma filter_narrow {A} (f g : A → bool) (l : list A) :
  (∀ x, f x = true → g x = true) →
  List.filter f (List.filter g l) = List.filter f l
  ∧ List.filter g (List.filter f l) = List.filter f l.
Proof.
  intros Hfg. induction l as [|x l [IH1 IH2]]; [split; reflexivity|].
  cbn [List.filter].
  destruct (f x) eqn:Hf.
  - rewrite (Hfg x Hf). cbn [List.filter]. rewrite Hf, (Hfg x Hf), IH1, IH2.
    split; reflexivity.
  - destruct (g x); cbn [List.filter]; rewrite ?Hf, IH1, IH2; split; reflexivity.
Qed.

Section WideNarrow.
Context {T : Type}.
Variable lower : Utf16.text → option Utf16.text.
Variable descriptionOf : T → Utf16.text.

(** A query whose lower case contains the lower case of another finds no
    more than the other, on 16-bit texts. *)
Lemma wide_search_narrow query query' lowered lowered' :
  lower query = Some lowered → lower query' = Some lowered' →
  Utf16.includes lowered lowered' = true →
  ∀ file results results',
    Utf16.searchTransactions lower descriptionOf query file = Some results →
    Utf16.searchTransactions lower descriptionOf query' file = Some results' →
    Utf16.searchTransactions lower descriptionOf query results' = Some results
    ∧ Utf16.searchTransactions lower descriptionOf query' results = Some results
    ∧ results `sublist_of` results'.
Proof.
  intros Eq Eq' Hin. induction file as [|u file IH]; intros r r' Hr Hr'.
  - injection Hr as <-. injection Hr' as <-. repeat split. constructor.
  - destruct (wide_search_cons _ _ _ _ _ _ Hr) as (keep & rest & Hk & Hrest & ->).
    destruct (wide_search_cons _ _ _ _ _ _ Hr') as (keep' & rest' & Hk' & Hrest' & ->).
    destruct (IH _ _ Hrest Hrest') as (IH1 & IH2 & IH3).
    assert (Hkk : keep = true → keep' = true).
    { rewrite (matchesQuery_lowered _ _ _ _ _ Eq) in Hk.
      rewrite (matchesQuery_lowered _ _ _ _ _ Eq') in Hk'.
      destruct (lower (descriptionOf u)) as [d|]; [|discriminate Hk].
      cbn in Hk, Hk'. injection Hk as <-. injection Hk' as <-.
      intros Hd. exact (wide_includes_trans _ _ _ Hd Hin). }
    destruct keep.
    + rewrite (Hkk eq_refl) in *. cbn [Utf16.searchTransactions].
      rewrite Hk, Hk', IH1, IH2. repeat split. apply sublist_skip, IH3.
    + destruct keep'.
      * cbn [Utf16.searchTransactions]. rewrite Hk, IH1.
        repeat split; [exact IH2 | apply sublist_cons, IH3].
      * repeat split; assumption.
Qed.
End WideNarrow.

(** X13.  When the lower case of the query [q] contains the lower case
    of the query [q'], what [q] finds is among what [q'] finds: searching
    [q] in the results of [q'], or [q'] in the results of [q], gives the
    results of [q].  So a search repeated on its own results changes
    nothing.  This holds on the strings of Latin-1 and on 16-bit texts,
    there whatever [toLowerCase] does. *)
Theorem search_narrows {num T : Type} (q q' : string)
    (ts : list (transaction num))
    (toLowerCase : Utf16.text → option Utf16.text)
    (descriptionOf : T → Utf16.text)
    (query query' lowered lowered' : Utf16.text)
    (file results results' : list T) :
  (JS.includes (JS.toLowerCase q) (JS.toLowerCase q') = true →
   Cli.searchTransactions q (Cli.searchTransactions q' ts)
   = Cli.searchTransactions q ts
   ∧ Cli.searchTransactions q' (Cli.searchTransactions q ts)
     = Cli.searchTransactions q ts
   ∧ Cli.searchTransactions q ts `sublist_of` Cli.searchTransactions q' ts)
  ∧ (toLowerCase query = Some lowered → toLowerCase query' = Some lowered' →
     Utf16.includes lowered lowered' = true →
     Utf16.searchTransactions toLowerCase descriptionOf query file
     = Some results →
     Utf16.searchTransactions toLowerCase descriptionOf query' file
     = Some results' →
     Utf16.searchTransactions toLowerCase descriptionOf query results'
     = Some results
     ∧ Utf16.searchTransactions toLowerCase descriptionOf query' results
       = Some results
     ∧ results `sublist_of` results').
Proof.
  split.
  - intros Hq.
    assert (Hn : ∀ t : transaction num,
              JS.includes (JS.toLowerCase (description t)) (JS.toLowerCase q) = true →
              JS.includes (JS.toLowerCase (description t)) (JS.toLowerCase q') = true).
    { intros t Ht. exact (includes_trans _ _ _ Ht Hq). }
    destruct (filter_narrow _ _ ts Hn) as [E1 E2].
    split; [exact E1|]. split; [exact E2|].
    unfold Cli.searchTransactions in *. rewrite <- E1. apply search_sublist.
  - intros Eq Eq' Hin Hr Hr'.
    exact (wide_search_narrow toLowerCase descriptionOf _ _ _ _ Eq Eq' Hin
             _ _ _ Hr Hr').
Qed.

Lemma search_narrows_witness :
  (Cli.searchTransactions "Rent" (Cli.searchTransactions "e" salaryAndRent)
   = Cli.searchTransactions "Rent" salaryAndRent
   ∧ Cli.searchTransactions "rent" (Cli.searchTransactions "rent" salaryAndRent)
     = Cli.searchTransactions "rent" salaryAndRent)
  ∧ Utf16.searchTransactions Utf16.toLowerCase (fun d : Utf16.text => d)
      [Utf16.Sigma; Utf16.Alpha]
      [[Utf16.Sigma; Utf16.alpha]; [Utf16.sigma]; [Utf16.Alpha; Utf16.Sigma]]
    = Some [[Utf16.Sigma; Utf16.alpha]]
  ∧ Utf16.searchTransactions Utf16.toLowerCase (fun d : Utf16.text => d)
      [Utf16.Alpha]
      [[Utf16.Sigma; Utf16.alpha]; [Utf16.sigma]; [Utf16.Alpha; Utf16.Sigma]]
    = Some [[Utf16.Sigma; Utf16.alpha]; [Utf16.Alpha; Utf16.Sigma]]
  ∧ Utf16.searchTransactions Utf16.toLowerCase (fun d : Utf16.text => d)
      [Utf16.Sigma; Utf16.Alpha]
      [[Utf16.Sigma; Utf16.alpha]; [Utf16.Alpha; Utf16.Sigma]]
    = Some [[Utf16.Sigma; Utf16.alpha]]
  ∧ Utf16.searchTransactions Utf16.toLowerCase (fun d : Utf16.text => d)
      [Utf16.Alpha] [[Utf16.Sigma; Utf16.alpha]]
    = Some [[Utf16.Sigma; Utf16.alpha]].
Proof.
  split; [split|].
  - exact (proj1 (proj1 (search_narrows (T := Utf16.text) "Rent" "e"
                           salaryAndRent (fun _ => None) (fun d => d)
                           [] [] [] [] [] [] []) eq_refl)).
  - exact (proj1 (proj1 (search_narrows (T := Utf16.text) "rent" "rent"
                           salaryAndRent (fun _ => None) (fun d => d)
                           [] [] [] [] [] [] []) eq_refl)).
  - split; [reflexivity|]. split; [reflexivity|].
    destruct (proj2 (search_narrows (num := Z) "" "" []
                       Utf16.toLowerCase (fun d : Utf16.text => d)
                       [Utf16.Sigma; Utf16.Alpha] [Utf16.Alpha]
                       [Utf16.sigma; Utf16.alpha] [Utf16.alpha]
                       [[Utf16.Sigma; Utf16.alpha]; [Utf16.sigma];
                        [Utf16.Alpha; Utf16.Sigma]]
                       [[Utf16.Sigma; Utf16.alpha]]
                       [[Utf16.Sigma; Utf16.alpha]; [Utf16.Alpha; Utf16.Sigma]])
                eq_refl eq_refl eq_refl eq_refl eq_refl) as (E1 & E2 & _).
    split; [exact E1 | exact E2].
Defined.

(** ** The table and the ids it shows *)

Lemma length_append (a b : string) :
  String.length (a +:+ b) = (String.length a + String.length b)%nat.
Proof. induction a as [|c a IH]; [reflexivity | exact (f_equal S IH)]. Qed.

Lemma length_spaces n : String.length (spaces n) = n.
Proof. induction n as [|n IH]; [reflexivity | exact (f_equal S IH)]. Qed.

Lemma length_padEnd n s :
  String.length (padEnd n s) = Nat.max n (String.length s).
Proof. unfold padEnd. rewrite length_append, length_spaces. lia. Qed.

Lemma substring_front n : ∀ s,
  ∃ rest, s = String.substring 0 n s +:+ rest
          ∧ String.length (String.substring 0 n s) = Nat.min n (String.length s).
Proof.
  induction n as [|n IH]; intros [|c s]; cbn.
  - exists EmptyString. split; reflexivity.
  - exists (String c s). split; reflexivity.
  - exists EmptyString. split; reflexivity.
  - destruct (IH s) as (rest & E & L). exists rest.
    split; [exact (f_equal (String c) E) | rewrite L; reflexivity].
Qed.

(** Digits followed by something that is no digit. *)
Lemma digits_spaces n acc : JS.digits 10 (spaces n) (Some acc) = Some acc.
Proof. destruct n; reflexivity. Qed.

Lemma pretty_go_append (x : N) : ∀ s t,
  pretty_N_go x s +:+ t = pretty_N_go x (s +:+ t).
Proof.
  induction (N.lt_wf_0 x) as [x _ IH]. intros s t.
  destruct (N.eq_dec x 0%N) as [-> | Hx].
  - rewrite !pretty_N_go_0. reflexivity.
  - rewrite (pretty_N_go_step x s), (pretty_N_go_step x (s +:+ t)) by lia.
    rewrite IH by (apply N.div_lt; lia). reflexivity.
Qed.

(** The decimal of a positive number, then text that starts with no
    digit, reads as the number. *)
Lemma parseInt_pretty_then (n : nat) (rest : string) :
  JS.digits 10 rest (Some (Z.of_nat (S n))) = Some (Z.of_nat (S n)) →
  JS.parseInt (pretty (S n) +:+ rest) = JS.Int (Z.of_nat (S n)).
Proof.
  intros Hrest.
  change (pretty (S n)) with (pretty_N_go (N.pos (Pos.of_succ_nat n)) EmptyString).
  change (Z.of_nat (S n)) with (Z.of_N (N.pos (Pos.of_succ_nat n))) in *.
  set (x := N.pos (Pos.of_succ_nat n)) in *.
  rewrite pretty_go_append. change (EmptyString +:+ rest) with rest.
  destruct (pretty_go_head x rest eq_refl) as (d & r & Hd & Hd1).
  pose proof (digits_pretty_go x rest None eq_refl eq_refl) as G.
  rewrite Hd in *. rewrite (proj1 (parseInt_leading_digit d r Hd1)), G, Hrest.
  destruct (Z.of_N x); reflexivity.
Qed.

Lemma parseInt_idCell k : JS.parseInt (idCell k) = JS.Int (Z.of_nat k + 1).
Proof.
  unfold idCell, padEnd. replace (k + 1)%nat with (S k) by lia.
  rewrite parseInt_pretty_then by apply digits_spaces. f_equal. lia.
Qed.
Lemma printEach_throws {A} (line : nat → A → option string) (bad : A → bool) :
  (∀ i x, line i x = None ↔ bad x = true) →
  ∀ l i, (printEach line i l).2 = existsb bad l.
Proof.
  intros Hline. induction l as [|x l IH]; intros i; [reflexivity|].
  cbn [printEach existsb]. destruct (line i x) as [text|] eqn:E.
  - specialize (IH (S i)). destruct (printEach line (S i) l) as [texts threw].
    cbn [snd] in *. rewrite IH.
    destruct (bad x) eqn:Hb; [|reflexivity].
    apply (Hline i) in Hb. congruence.
  - apply (Hline i) in E. rewrite E. reflexivity.
Qed.

Lemma printEach_lines {A} (line : nat → A → option string) :
  ∀ l i, (printEach line i l).2 = false →
  ∀ j x, l !! j = Some x → (printEach line i l).1 !! j = line (i + j)%nat x.
Proof.
  induction l as [|x l IH]; intros i Hok j y Hj; [discriminate Hj|].
  cbn [printEach] in *. destruct (line i x) as [text|] eqn:E; [|discriminate Hok].
  specialize (IH (S i)). destruct (printEach line (S i) l) as [texts threw].
  cbn [fst snd] in *. destruct j as [|j].
  - injection Hj as <-. rewrite Nat.add_0_r, E. reflexivity.
  - change ((text :: texts) !! S j) with (texts !! j).
    rewrite (IH Hok j y Hj). f_equal. lia.
Qed.

Section Printing.
Variable toLocaleDateString : Z → string.
Variable formatCurrency : float → string.

Lemma tableRow_throws i t :
  tableRow toLocaleDateString formatCurrency i t = None ↔ nullAmount t = true.
Proof.
  unfold tableRow, nullAmount. destruct (amount t); split; congruence.
Qed.

Lemma resultLine_throws i t :
  resultLine toLocaleDateString formatCurrency i t = None ↔ nullAmount t = true.
Proof.
  unfold resultLine, nullAmount. destruct (amount t); split; congruence.
Qed.

(** The table throws exactly when some amount in the file is [null]. *)
Lemma viewTransactions_throws file :
  (viewTransactions toLocaleDateString formatCurrency file).2
  = existsb nullAmount file.
Proof.
  unfold viewTransactions. destruct file as [|t file]; [reflexivity|].
  cbn [length Nat.eqb].
  pose proof (printEach_throws _ _ tableRow_throws (t :: file) 0%nat) as E.
  destruct (printEach _ 0%nat (t :: file)) as [rows threw]. cbn [snd] in E.
  rewrite <- E. destruct threw; reflexivity.
Qed.

(** The search throws exactly when some result has the amount [null]. *)
Lemma searchPrinted_throws query file :
  (searchPrinted toLocaleDateString formatCurrency query file).2
  = existsb nullAmount (Cli.searchTransactions query file).
Proof.
  unfold searchPrinted.
  destruct (Cli.searchTransactions query file) as [|t results]; [reflexivity|].
  cbn [length Nat.eqb].
  pose proof (printEach_throws _ _ resultLine_throws (t :: results) 0%nat) as E.
  destruct (printEach _ 0%nat (t :: results)) as [rows threw]. cbn [snd] in E.
  rewrite <- E. reflexivity.
Qed.
End Printing.

Lemma existsb_nullAmount {A} (ts : list (transaction (option A))) :
  existsb nullAmount ts = true ↔ ∃ t, t ∈ ts ∧ amount t = None.
Proof.
  rewrite existsb_exists. split.
  - intros (t & Hin & Hn). exists t. rewrite list_elem_of_In. split; [exact Hin|].
    unfold nullAmount in Hn. destruct (amount t); [discriminate Hn | reflexivity].
  - intros (t & Hin & Hn). exists t. rewrite <- list_elem_of_In.
    split; [exact Hin|]. unfold nullAmount. rewrite Hn. reflexivity.
Qed.

Lemma append_empty_r (s : string) : s +:+ EmptyString = s.
Proof. induction s as [|c s IH]; [reflexivity | exact (f_equal (String c) IH)]. Qed.

Lemma length_printEach {A} (line : nat → A → option string) : ∀ l i,
  (printEach line i l).2 = false → length (printEach line i l).1 = length l.
Proof.
  induction l as [|x l IH]; intros i Hok; [reflexivity|].
  cbn [printEach] in *. destruct (line i x) as [text|]; [|discriminate Hok].
  specialize (IH (S i)). destruct (printEach line (S i) l) as [texts threw].
  cbn [fst snd length] in *. rewrite (IH Hok). reflexivity.
Qed.

(** [deleteTransaction] with its table: it throws when the table does,
    and does what its callback does when the table is shown. *)
Section DeleteWithTable.
Variable toLocaleDateString : Z → string.
Variable formatCurrency : float → string.

(** The table is shown without exception exactly when no amount in the
    file is [null]. *)
Lemma viewTransactions_shown file :
  (viewTransactions toLocaleDateString formatCurrency file).2 = false
  ↔ Forall (fun t => nullAmount t = false) file.
Proof.
  rewrite viewTransactions_throws, <- not_true_iff_false, existsb_exists,
    Forall_forall.
  split.
  - intros H t Ht. destruct (nullAmount t) eqn:E; [|reflexivity].
    exfalso. apply H. exists t. split; [apply list_elem_of_In, Ht | exact E].
  - intros H (t & Ht & E). rewrite (H t) in E by (apply list_elem_of_In, Ht).
    discriminate E.
Qed.

Lemma deleteTransaction_thrown idStr file :
  (viewTransactions toLocaleDateString formatCurrency file).2 = true →
  File.deleteTransaction toLocaleDateString formatCurrency idStr file
  = (file, File.ThrownByView).
Proof. unfold File.deleteTransaction. intros ->. reflexivity. Qed.

Lemma deleteTransaction_deleted idStr file transactions t :
  Forall (fun t => nullAmount t = false) file →
  Cli.deleteAnswer idStr file = (transactions, Cli.Deleted t) →
  File.deleteTransaction toLocaleDateString formatCurrency idStr file
  = (saveTransactions transactions, File.Answered (Cli.Deleted t)).
Proof.
  intros Hfile%viewTransactions_shown E. unfold File.deleteTransaction.
  rewrite Hfile, E. reflexivity.
Qed.

Lemma deleteTransaction_kept idStr file outcome :
  Forall (fun t => nullAmount t = false) file →
  outcome = Cli.Cancelled ∨ outcome = Cli.InvalidId →
  Cli.deleteAnswer idStr file = (file, outcome) →
  File.deleteTransaction toLocaleDateString formatCurrency idStr file
  = (file, File.Answered outcome).
Proof.
  intros Hfile%viewTransactions_shown Ho E. unfold File.deleteTransaction.
  rewrite Hfile, E. destruct Ho as [-> | ->]; reflexivity.
Qed.
End DeleteWithTable.

(** X14.  The table of a file without [null] amount has a line for each
    transaction, in the order of the file; the line starts with the
    position of the transaction, counted from 1, and that position, typed
    as it is shown or without the spaces, is the answer that makes
    [deleteTransaction] remove this transaction and no other, in its
    callback and as a whole: the table is shown and the array without the
    transaction is saved. *)
Theorem shown_id_deletes_its_row
    (toLocaleDateString : Z → string) (formatCurrency : float → string)
    (file : list (transaction (option float))) (k : nat)
    (t : transaction (option float)) :
  Forall (fun t => nullAmount t = false) file →
  file !! k = Some t →
  (viewTransactions toLocaleDateString formatCurrency file).2 = false
  ∧ length (viewTransactions toLocaleDateString formatCurrency file).1
    = (length file + 4)%nat
  ∧ (∃ cellsAfter,
       (viewTransactions toLocaleDateString formatCurrency file).1 !! (3 + k)%nat
       = Some (idCell k +:+ " " +:+ cellsAfter)
       ∧ tableRow toLocaleDateString formatCurrency k t
         = Some (idCell k +:+ " " +:+ cellsAfter))
  ∧ Cli.deleteAnswer (idCell k) file = (delete k file, Cli.Deleted t)
  ∧ Cli.deleteAnswer (pretty (k + 1)%nat) file
    = (delete k file, Cli.Deleted t)
  ∧ File.deleteTransaction toLocaleDateString formatCurrency (idCell k) file
    = (saveTransactions (delete k file), File.Answered (Cli.Deleted t))
  ∧ File.deleteTransaction toLocaleDateString formatCurrency
      (pretty (k + 1)%nat) file
    = (saveTransactions (delete k file), File.Answered (Cli.Deleted t)).
Proof.
  intros Hfile Ht.
  assert (Hbare : Cli.deleteAnswer (pretty (k + 1)%nat) file
                  = (delete k file, Cli.Deleted t)).
  { apply deleteAnswer_lookup; [|exact Ht].
    replace (k + 1)%nat with (S k) by lia.
    pose proof (parseInt_pretty_then k EmptyString eq_refl) as E.
    rewrite append_empty_r in E. rewrite E. f_equal. lia. }
  assert (Hcell : Cli.deleteAnswer (idCell k) file
                  = (delete k file, Cli.Deleted t))
    by (apply deleteAnswer_lookup; [apply parseInt_idCell | exact Ht]).
  pose proof (deleteTransaction_deleted toLocaleDateString formatCurrency
                _ _ _ _ Hfile Hcell) as Hrun.
  pose proof (deleteTransaction_deleted toLocaleDateString formatCurrency
                _ _ _ _ Hfile Hbare) as Hrun'.
  assert (Hview : (viewTransactions toLocaleDateString formatCurrency file).2
                  = false).
  { rewrite viewTransactions_throws. apply not_true_iff_false.
    intros (u & Hu & Hnull)%existsb_nullAmount.
    rewrite Forall_forall in Hfile. specialize (Hfile u Hu).
    unfold nullAmount in Hfile. rewrite Hnull in Hfile. discriminate Hfile. }
  assert (Hnull : nullAmount t = false).
  { rewrite Forall_forall in Hfile. apply Hfile.
    apply (list_elem_of_lookup_2 _ k), Ht. }
  split; [exact Hview|].
  unfold viewTransactions in *. destruct file as [|t0 file]; [discriminate Ht|].
  cbn [length Nat.eqb] in *.
  pose proof (printEach_lines (tableRow toLocaleDateString formatCurrency)
                (t0 :: file) 0%nat) as Hlines.
  pose proof (length_printEach (tableRow toLocaleDateString formatCurrency)
                (t0 :: file) 0%nat) as Hlen.
  destruct (printEach _ 0%nat (t0 :: file)) as [rows threw].
  cbn [fst snd] in *. destruct threw; [discriminate Hview|].
  specialize (Hlines eq_refl k t Ht). specialize (Hlen eq_refl).
  cbn [fst]. split; [|split; [|split; [|split; [|split]]]].
  - rewrite !length_app, Hlen. cbn [length]. lia.
  - unfold tableRow, nullAmount in *.
    destruct (amount t) as [number|]; [|discriminate Hnull].
    eexists. split; [|unfold logged; cbn [JS.join]; reflexivity].
    rewrite lookup_app_r by (cbn [length]; lia).
    replace (3 + k - _)%nat with k by (cbn [length]; lia).
    rewrite lookup_app_l by (rewrite Hlen; apply (lookup_lt_Some _ _ _ Ht)).
    rewrite Hlines. reflexivity.
  - exact Hcell.
  - exact Hbare.
  - exact Hrun.
  - exact Hrun'.
Qed.

Lemma shown_id_deletes_its_row_witness :
  Cli.deleteAnswer "2    "
    [income 1 "Salary" (Some 1000%float); expense 2 "Rent" (Some 400%float)]
  = ([income 1 "Salary" (Some 1000%float)],
     Cli.Deleted (expense 2 "Rent" (Some 400%float)))
  ∧ File.deleteTransaction (fun _ => "3/11/2026") (fun _ => "$") "2    "
      [income 1 "Salary" (Some 1000%float); expense 2 "Rent" (Some 400%float)]
    = ([income 1 "Salary" (Some 1000%float)],
       File.Answered (Cli.Deleted (expense 2 "Rent" (Some 400%float)))).
Proof.
  assert (H : Forall (fun t : transaction (option float) => nullAmount t = false)
                [income 1 "Salary" (Some 1000%float);
                 expense 2 "Rent" (Some 400%float)]) by repeat constructor.
  destruct (shown_id_deletes_its_row (fun _ => "3/11/2026") (fun _ => "$")
              [income 1 "Salary" (Some 1000%float);
               expense 2 "Rent" (Some 400%float)]
              1 (expense 2 "Rent" (Some 400%float)) H eq_refl)
    as (_ & _ & _ & E & _ & F & _).
  split; [exact E | exact F].
Defined.

(** X15.  The description cell of the table is 20 code units wide whatever the
    description: its first 18 code units at most, then spaces. *)
Theorem description_cell_is_20_wide {num : Type}
    (transaction : transaction num) :
  String.length (descriptionCell transaction) = 20%nat
  ∧ ∃ shown cut,
      description transaction = shown +:+ cut
      ∧ String.length shown
        = Nat.min 18 (String.length (description transaction))
      ∧ descriptionCell transaction
        = shown +:+ spaces (20 - String.length shown).
Proof.
  unfold descriptionCell.
  destruct (substring_front 18 (description transaction)) as (cut & E & L).
  split.
  - rewrite length_padEnd, L. lia.
  - exists (String.substring 0 18 (description transaction)), cut.
    split; [exact E|]. split; [exact L | reflexivity].
Qed.

(** ** The file and the menu *)

Lemma trimStart_idem s : JS.trimStart (JS.trimStart s) = JS.trimStart s.
Proof.
  induction s as [|c s IH]; [reflexivity|]. cbn.
  destruct (JS.isWhiteSpace c) eqn:Hc; [exact IH|]. cbn. rewrite Hc. reflexivity.
Qed.

Lemma trimEnd_idem s : JS.trimEnd (JS.trimEnd s) = JS.trimEnd s.
Proof.
  induction s as [|c s IH]; [reflexivity|]. cbn [JS.trimEnd].
  destruct (JS.trimEnd s) as [|d r] eqn:E.
  - destruct (JS.isWhiteSpace c) eqn:Hc; [reflexivity|]. cbn. rewrite Hc. reflexivity.
  - cbn [JS.trimEnd] in *. rewrite IH. reflexivity.
Qed.

Lemma trimStart_trimEnd s :
  JS.trimStart (JS.trimEnd s) = JS.trimEnd (JS.trimStart s).
Proof.
  induction s as [|c s IH]; [reflexivity|]. cbn [JS.trimEnd JS.trimStart].
  destruct (JS.isWhiteSpace c) eqn:Hc.
  - rewrite <- IH. destruct (JS.trimEnd s) as [|d r]; [reflexivity|].
    cbn [JS.trimStart]. rewrite Hc. reflexivity.
  - cbn [JS.trimEnd]. destruct (JS.trimEnd s) as [|d r]; cbn [JS.trimStart]; rewrite Hc; reflexivity.
Qed.

Lemma trim_idem s : JS.trim (JS.trim s) = JS.trim s.
Proof.
  unfold JS.trim. rewrite trimStart_trimEnd, trimStart_idem. apply trimEnd_idem.
Qed.
Lemma eqb_leb (x y : float) : (x =? y)%float = true → (x <=? y)%float = true.
Proof.
  rewrite FloatAxioms.eqb_spec, FloatAxioms.leb_spec. unfold SFeqb, SFleb.
  destruct (SFcompare (Prim2SF x) (Prim2SF y)) as [[| |]|];
    first [reflexivity | discriminate].
Qed.

(** An amount that passed the guard is written as it is, or as [null] when
    it is infinite. *)
Lemma toJSON_accepted (x : float) :
  rejectedAmount x = false →
  toJSON (Some x) = if is_infinity x then None else Some x.
Proof.
  unfold rejectedAmount, toJSON. intros H.
  apply orb_false_iff in H as [Hnan Hle]. rewrite Hnan. cbn [orb].
  destruct (is_infinity x); [reflexivity|].
  destruct (is_zero x) eqn:Hz; [|reflexivity].
  unfold is_zero in Hz. apply eqb_leb in Hz.
  change PrimFloat.zero with 0%float in Hz. congruence.
Qed.

Lemma saved_promptMade (t : transaction (option float)) :
  promptMade t →
  {| primeId := primeId t; description := description t;
     amount := toJSON (amount t); type := type t |} = t.
Proof.
  intros (_ & _ & Ha).
  destruct t as [p d [x|] ty]; cbn [amount primeId description type] in *;
    [|reflexivity].
  destruct Ha as [Hr Hi]. rewrite toJSON_accepted, Hi by exact Hr. reflexivity.
Qed.

Lemma saveTransactions_promptMade ts :
  Forall promptMade ts → saveTransactions ts = ts.
Proof.
  induction 1 as [|t ts Ht _ IH]; [reflexivity|].
  unfold saveTransactions in *. cbn [fmap list_fmap].
  rewrite saved_promptMade by exact Ht. f_equal. exact IH.
Qed.

Lemma addToFile_rejected ty description amountStr now file :
  rejectedAmount (JS.parseFloat amountStr) = true →
  addToFile ty description amountStr now file = file.
Proof.
  intros H. unfold addToFile. rewrite addTransaction_rejected by exact H.
  reflexivity.
Qed.

Lemma addToFile_accepted ty description amountStr now file :
  rejectedAmount (JS.parseFloat amountStr) = false →
  addToFile ty description amountStr now file
  = saveTransactions
      (file ++ [{| primeId := now; description := JS.trim description;
                   amount := Some (JS.parseFloat amountStr); type := ty |}]).
Proof.
  intros H. unfold addToFile. rewrite addTransaction_accepted by exact H.
  reflexivity.
Qed.

Lemma addToFile_promptMade ty answer amountStr now file :
  ty = "income" ∨ ty = "expense" →
  Forall promptMade file →
  Forall promptMade (addToFile ty answer amountStr now file).
Proof.
  intros Hty Hfile.
  destruct (rejectedAmount (JS.parseFloat amountStr)) eqn:Hr.
  - rewrite addToFile_rejected by exact Hr. exact Hfile.
  - rewrite addToFile_accepted by exact Hr.
    unfold saveTransactions. rewrite fmap_app. apply Forall_app. split.
    + fold (saveTransactions file).
      rewrite saveTransactions_promptMade by exact Hfile. exact Hfile.
    + apply Forall_singleton. cbn [primeId description amount type].
      split; [exact Hty|]. split; [apply trim_idem|].
      cbn [amount]. rewrite toJSON_accepted by exact Hr.
      destruct (is_infinity (JS.parseFloat amountStr)) eqn:Hi;
        [exact I | split; [exact Hr | exact Hi]].
Qed.
Lemma Forall_sublist_of {A} (P : A → Prop) (l k : list A) :
  l `sublist_of` k → Forall P k → Forall P l.
Proof.
  induction 1 as [|x l k _ IH|x l k _ IH]; intros H; [constructor| |].
  - apply Forall_cons in H as [Hx H]. constructor; [exact Hx | apply IH, H].
  - apply Forall_cons in H as [_ H]. apply IH, H.
Qed.

Section MenuCourse.
Variable toLocaleDateString : Z → string.
Variable formatCurrency : float → string.
Variable numberToString : option float → string.

(** [mainMenu] follows its course. *)
Lemma mainMenu_course inputs : ∀ file out,
  course toLocaleDateString formatCurrency numberToString inputs file out
    (mainMenu toLocaleDateString formatCurrency numberToString inputs file out).
Proof.
  remember (length inputs) as n eqn:Hn. revert inputs Hn.
  induction n as [n IH] using lt_wf_ind. intros inputs Hn file out.
  destruct inputs as [|[choice at_] rest]; [apply course_waits|].
  cbn [mainMenu]. cbn [length] in Hn.
  assert (Hrest : ∀ file out,
            course toLocaleDateString formatCurrency numberToString rest file out
              (mainMenu toLocaleDateString formatCurrency numberToString
                 rest file out)).
  { apply (IH (length rest)); [lia | reflexivity]. }
  destruct (String.eqb_spec choice "1") as [->|N1].
  { destruct (viewTransactions _ _ file).2 eqn:Hv.
    - apply course_view_throws; [left; reflexivity | exact Hv].
    - apply course_views; [exact Hv | apply Hrest]. }
  destruct (String.eqb_spec choice "2") as [->|N2].
  { destruct rest as [|[description at1] [|[amountStr now] rest]].
    - apply course_waits_add; [left; reflexivity | cbn; lia].
    - apply course_waits_add; [left; reflexivity | cbn; lia].
    - apply (course_adds _ _ _ "2" "income"); [left; split; reflexivity|].
      apply (IH (length rest)); [cbn in Hn; lia | reflexivity]. }
  destruct (String.eqb_spec choice "3") as [->|N3].
  { destruct rest as [|[description at1] [|[amountStr now] rest]].
    - apply course_waits_add; [right; reflexivity | cbn; lia].
    - apply course_waits_add; [right; reflexivity | cbn; lia].
    - apply (course_adds _ _ _ "3" "expense"); [right; split; reflexivity|].
      apply (IH (length rest)); [cbn in Hn; lia | reflexivity]. }
  destruct (String.eqb_spec choice "4") as [->|N4].
  { apply course_passes; [|apply Hrest].
    intros H. repeat (apply elem_of_cons in H as [H|H]; [discriminate H|]).
    inversion H. }
  destruct (String.eqb_spec choice "5") as [->|N5].
  { destruct rest as [|[query at1] rest].
    - apply course_waits_ask. left. reflexivity.
    - destruct (searchPrinted _ _ query file).2 eqn:Hs.
      + apply course_search_throws, Hs.
      + apply course_searches; [exact Hs|].
        apply (IH (length rest)); [cbn in Hn; lia | reflexivity]. }
  destruct (String.eqb_spec choice "6") as [->|N6].
  { destruct (viewTransactions _ _ file).2 eqn:Hv.
    { apply course_view_throws; [right; reflexivity | exact Hv]. }
    destruct rest as [|[idStr at1] rest].
    - apply course_waits_ask. right. split; [reflexivity | exact Hv].
    - assert (Hnext : ∀ file out,
                course toLocaleDateString formatCurrency numberToString rest
                  file out
                  (mainMenu toLocaleDateString formatCurrency numberToString
                     rest file out)).
      { apply (IH (length rest)); [cbn in Hn; lia | reflexivity]. }
      destruct (Cli.deleteAnswer idStr file) as [file' outcome] eqn:E.
      assert (E1 : file' = (Cli.deleteAnswer idStr file).1)
        by (rewrite E; reflexivity).
      assert (E2 : outcome = (Cli.deleteAnswer idStr file).2)
        by (rewrite E; reflexivity).
      destruct outcome as [| |deleted|]; rewrite ?E1.
      + apply course_keeps; [exact Hv | left; symmetry; exact E2 | apply Hnext].
      + apply course_keeps; [exact Hv | right; symmetry; exact E2 | apply Hnext].
      + apply (course_deletes _ _ _ _ _ _ _ _ _ deleted);
          [exact Hv | symmetry; exact E2 | apply Hnext].
      + apply course_delete_throws; [exact Hv | symmetry; exact E2]. }
  destruct (String.eqb_spec choice "7") as [->|N7].
  { destruct (Cli.exportToCSV _ _ file) as [text|] eqn:E.
    - apply (course_exports _ _ _ _ _ _ _ text); [exact E | apply Hrest].
    - apply course_exports_nothing; [exact E | apply Hrest]. }
  destruct (String.eqb_spec choice "8") as [->|N8]; [apply course_exits|].
  apply course_passes; [|apply Hrest].
  intros H. repeat (apply elem_of_cons in H as [H|H]; [congruence|]).
  inversion H.
Qed.
End MenuCourse.

Section MenuFacts.
Variable toLocaleDateString : Z → string.
Variable formatCurrency : float → string.
Variable numberToString : option float → string.

Ltac by_course H :=
  induction H as
    [ file out
    | choice at_ rest file out Hchoice Hshort
    | choice at_ file out Hchoice
    | choice at_ rest file out d Hchoice Hrest IH
    | at_ rest file out d Hview Hrest IH
    | choice at_ rest file out Hchoice Hview
    | choice ty at_ answer at1 amountStr now rest file out d Hty Hrest IH
    | at_ query at1 rest file out d Hsearch Hrest IH
    | at_ query at1 rest file out Hsearch
    | at_ idStr at1 rest file out deleted d Hview Hdel Hrest IH
    | at_ idStr at1 rest file out d Hview Hkept Hrest IH
    | at_ idStr at1 rest file out Hview Hthrows
    | at_ rest file out text d Hexp Hrest IH
    | at_ rest file out d Hexp Hrest IH
    | at_ rest file out ].

Lemma deleted_promptMade idStr file :
  Forall promptMade file →
  Forall promptMade (saveTransactions (Cli.deleteAnswer idStr file).1).
Proof.
  intros Hfile.
  assert (H : Forall promptMade (Cli.deleteAnswer idStr file).1).
  { eapply Forall_sublist_of; [apply deleteAnswer_sublist | exact Hfile]. }
  rewrite saveTransactions_promptMade by exact H. exact H.
Qed.

Lemma course_invariant inputs file out d :
  course toLocaleDateString formatCurrency numberToString inputs file out d →
  Forall promptMade file →
  Forall (exportOf toLocaleDateString numberToString) out →
  Forall promptMade (ledger d)
  ∧ Forall (exportOf toLocaleDateString numberToString) (written d)
  ∧ out `prefix_of` written d.
Proof.
  intros H. by_course H; intros Hfile Hout; cbn [ledger written];
    try (split; [assumption | split; [assumption | reflexivity]]);
    try (apply IH; assumption).
  - apply IH; [|exact Hout]. apply addToFile_promptMade; [|exact Hfile].
    destruct Hty as [[_ ->] | [_ ->]]; [left | right]; reflexivity.
  - apply IH; [|exact Hout]. apply deleted_promptMade, Hfile.
  - split; [|split; [exact Hout | reflexivity]].
    apply deleted_promptMade, Hfile.
  - destruct IH as (H1 & H2 & H3); [exact Hfile| |].
    + apply Forall_app. split; [exact Hout|]. apply Forall_singleton.
      unfold Cli.exportToCSV in Hexp. exists file.
      destruct file; [discriminate Hexp|]. cbn in Hexp.
      split; [discriminate|]. split; [exact Hfile | congruence].
    + split; [exact H1|]. split; [exact H2|].
      etransitivity; [|exact H3]. apply prefix_app_r. reflexivity.
Qed.

Lemma course_crash inputs file out d :
  course toLocaleDateString formatCurrency numberToString inputs file out d →
  standing d = Crashed →
  (ledger d = [] ∧ ∃ line, line ∈ inputs ∧ JS.parseInt line.1 = JS.NaN)
  ∨ (∃ t, t ∈ ledger d ∧ amount t = None).
Proof.
  intros H. by_course H; intros Hd; cbn [standing ledger] in *;
    try discriminate Hd;
    try (destruct (IH Hd) as [(Hl & line & Hin & Hnan) | Hnull];
         [left; split; [exact Hl|]; exists line; split; [|exact Hnan];
          repeat apply list_elem_of_further; exact Hin
         | right; exact Hnull]).
  - right. rewrite viewTransactions_throws in Hview.
    apply existsb_nullAmount, Hview.
  - right. rewrite searchPrinted_throws in Hsearch.
    apply existsb_nullAmount in Hsearch as (t & Hin & Hnull).
    exists t. split; [|exact Hnull]. apply search_elem in Hin as [Hin _].
    exact Hin.
  - left. apply deleteAnswer_throws in Hthrows as [Hnan ->].
    rewrite (deleteAnswer_nan _ _ Hnan). split; [reflexivity|].
    exists (idStr, at1). split; [|exact Hnan].
    apply list_elem_of_further, list_elem_of_here.
Qed.

Lemma course_leaves_file inputs file out d :
  course toLocaleDateString formatCurrency numberToString inputs file out d →
  Forall (fun line : string * Z => line.1 ∉ ["2"; "3"; "6"]) inputs →
  ledger d = file.
Proof.
  intros H. by_course H; intros Hin; cbn [ledger];
    try reflexivity;
    try (apply IH; repeat (apply Forall_cons in Hin as [_ Hin]); exact Hin);
    apply Forall_cons in Hin as [Hc _]; cbn [fst] in Hc; exfalso; apply Hc.
  - destruct Hty as [[-> _] | [-> _]]; set_solver.
  - set_solver.
  - set_solver.
Qed.

Lemma course_stopped inputs file out d more :
  course toLocaleDateString formatCurrency numberToString inputs file out d →
  standing d ≠ Prompting →
  mainMenu toLocaleDateString formatCurrency numberToString
    (inputs ++ more) file out = d.
Proof.
  intros H. by_course H; intros Hd; cbn [standing] in *; try congruence;
    try specialize (IH Hd).
  - cbn [app mainMenu].
    repeat match goal with
    | |- context [String.eqb choice ?k] =>
        destruct (String.eqb_spec choice k) as [->|?]
    end; try exact IH; exfalso; apply Hchoice; set_solver.
  - cbn [app mainMenu String.eqb Ascii.eqb Bool.eqb]. rewrite Hview. exact IH.
  - destruct Hchoice as [-> | ->];
      cbn [app mainMenu String.eqb Ascii.eqb Bool.eqb]; rewrite Hview;
      reflexivity.
  - destruct Hty as [[-> ->] | [-> ->]]; exact IH.
  - cbn [app mainMenu String.eqb Ascii.eqb Bool.eqb]. rewrite Hsearch. exact IH.
  - cbn [app mainMenu String.eqb Ascii.eqb Bool.eqb]. rewrite Hsearch.
    reflexivity.
  - cbn [app mainMenu String.eqb Ascii.eqb Bool.eqb]. rewrite Hview.
    destruct (Cli.deleteAnswer idStr file) as [file' outcome].
    cbn [fst snd] in *. rewrite Hdel. exact IH.
  - cbn [app mainMenu String.eqb Ascii.eqb Bool.eqb]. rewrite Hview.
    destruct (Cli.deleteAnswer idStr file) as [file' outcome].
    cbn [fst snd] in *. destruct Hkept as [-> | ->]; exact IH.
  - cbn [app mainMenu String.eqb Ascii.eqb Bool.eqb]. rewrite Hview.
    destruct (Cli.deleteAnswer idStr file) as [file' outcome].
    cbn [fst snd] in *. rewrite Hthrows. reflexivity.
  - cbn [app mainMenu String.eqb Ascii.eqb Bool.eqb]. rewrite Hexp. exact IH.
  - cbn [app mainMenu String.eqb Ascii.eqb Bool.eqb]. rewrite Hexp. exact IH.
  - reflexivity.
Qed.

(** A file of the prompt in which no amount is [null]. *)
Lemma addToFile_numbered ty answer amountStr now file :
  ty = "income" ∨ ty = "expense" →
  is_infinity (JS.parseFloat amountStr) = false →
  Forall (fun t => promptMade t ∧ nullAmount t = false) file →
  Forall (fun t => promptMade t ∧ nullAmount t = false)
    (addToFile ty answer amountStr now file).
Proof.
  intros Hty Hfin Hfile.
  assert (Hp : Forall promptMade file)
    by (eapply Forall_impl; [exact Hfile | intros t [Ht _]; exact Ht]).
  assert (Hn : Forall (fun t => nullAmount t = false) file)
    by (eapply Forall_impl; [exact Hfile | intros t [_ Ht]; exact Ht]).
  apply Forall_and. split; [apply addToFile_promptMade; assumption|].
  destruct (rejectedAmount (JS.parseFloat amountStr)) eqn:Hr.
  - rewrite addToFile_rejected by exact Hr. exact Hn.
  - rewrite addToFile_accepted by exact Hr.
    unfold saveTransactions. rewrite fmap_app. apply Forall_app. split.
    + fold (saveTransactions file).
      rewrite saveTransactions_promptMade by exact Hp. exact Hn.
    + apply Forall_singleton. unfold nullAmount. cbn [amount].
      rewrite toJSON_accepted, Hfin by exact Hr. reflexivity.
Qed.

Lemma course_safe inputs file out d :
  course toLocaleDateString formatCurrency numberToString inputs file out d →
  Forall (fun t => promptMade t ∧ nullAmount t = false) file →
  Forall (fun line : string * Z => is_infinity (JS.parseFloat line.1) = false)
    inputs →
  Forall (fun t => promptMade t ∧ nullAmount t = false) (ledger d).
Proof.
  intros H. by_course H; intros Hfile Hin; cbn [ledger];
    try exact Hfile;
    try (apply IH; [exact Hfile|];
         repeat (apply Forall_cons in Hin as [_ Hin]); exact Hin).
  - apply IH.
    + apply addToFile_numbered; [|  |exact Hfile].
      * destruct Hty as [[_ ->] | [_ ->]]; [left | right]; reflexivity.
      * apply Forall_cons in Hin as [_ Hin]. apply Forall_cons in Hin as [_ Hin].
        apply Forall_cons in Hin as [Hfin _]. exact Hfin.
    + repeat (apply Forall_cons in Hin as [_ Hin]). exact Hin.
  - apply IH.
    + apply Forall_and in Hfile as [Hp Hn].
      rewrite saveTransactions_promptMade
        by (eapply Forall_sublist_of; [apply deleteAnswer_sublist | exact Hp]).
      eapply Forall_sublist_of; [apply deleteAnswer_sublist|].
      apply Forall_and. split; assumption.
    + repeat (apply Forall_cons in Hin as [_ Hin]). exact Hin.
  - apply Forall_and in Hfile as [Hp Hn].
    rewrite saveTransactions_promptMade
      by (eapply Forall_sublist_of; [apply deleteAnswer_sublist | exact Hp]).
    eapply Forall_sublist_of; [apply deleteAnswer_sublist|].
    apply Forall_and. split; assumption.
Qed.
End MenuFacts.

(** X16.  The file never leaves what the prompt makes.  From a file in which
    every transaction is an income or an expense, with a trimmed description
    and an amount that is [null] or a finite number above zero, whatever is
    typed at the menu: the file keeps that form, it comes back from JSON as
    it was saved, and every text that an export wrote is the CSV content of
    a file of that form that is not empty. *)
Theorem menu_keeps_the_file_of_the_prompt
    (toLocaleDateString : Z → string) (formatCurrency : float → string)
    (numberToString : option float → string)
    (inputs : list (string * Z)) (file : list (transaction (option float))) :
  Forall promptMade file →
  Forall promptMade
    (ledger (mainMenu toLocaleDateString formatCurrency numberToString
               inputs file []))
  ∧ saveTransactions
      (ledger (mainMenu toLocaleDateString formatCurrency numberToString
                 inputs file []))
    = ledger (mainMenu toLocaleDateString formatCurrency numberToString
                inputs file [])
  ∧ Forall (exportOf toLocaleDateString numberToString)
      (written (mainMenu toLocaleDateString formatCurrency numberToString
                  inputs file [])).
Proof.
  intros Hfile.
  destruct (course_invariant _ _ _ _ _ _ _
              (mainMenu_course toLocaleDateString formatCurrency
                 numberToString inputs file [])
              Hfile (List.Forall_nil _)) as (H1 & H2 & _).
  split; [exact H1|]. split; [apply saveTransactions_promptMade, H1 | exact H2].
Qed.

Lemma menu_keeps_the_file_of_the_prompt_witness :
  ledger (mainMenu (fun _ => "3/11/2026") (fun _ => "$") (fun _ => "0")
            sampleInputs [] [])
  = [ {| primeId := 1700000000001; description := "Rent";
         amount := Some 400%float; type := "expense" |} ]
  ∧ Forall promptMade
      (ledger (mainMenu (fun _ => "3/11/2026") (fun _ => "$") (fun _ => "0")
                 sampleInputs [] [])).
Proof.
  split; [vm_compute; reflexivity|].
  refine (proj1 (menu_keeps_the_file_of_the_prompt _ _ _ sampleInputs [] _)).
  constructor.
Defined.

(** X17.  Where the program stops on an exception: either the file is empty
    then and some line typed was no number for [parseInt] (the delete on an
    empty file), or the file holds a transaction whose amount is [null]
    ([formatCurrency(null)], in the table or in the results of a search). *)
Theorem menu_throws_on_null_or_on_nothing
    (toLocaleDateString : Z → string) (formatCurrency : float → string)
    (numberToString : option float → string)
    (inputs : list (string * Z)) (file : list (transaction (option float)))
    (out : list string) :
  standing (mainMenu toLocaleDateString formatCurrency numberToString
              inputs file out) = Crashed →
  (ledger (mainMenu toLocaleDateString formatCurrency numberToString
             inputs file out) = []
   ∧ ∃ line, line ∈ inputs ∧ JS.parseInt line.1 = JS.NaN)
  ∨ (∃ t, t ∈ ledger (mainMenu toLocaleDateString formatCurrency
                        numberToString inputs file out)
          ∧ amount t = None).
Proof.
  apply course_crash with (1 := mainMenu_course _ _ _ inputs file out).
Qed.

Lemma menu_throws_on_null_or_on_nothing_witness :
  standing (mainMenu (fun _ => "3/11/2026") (fun _ => "$") (fun _ => "0")
              [("6", 1); ("the first", 2)] [] []) = Crashed
  ∧ ((ledger (mainMenu (fun _ => "3/11/2026") (fun _ => "$") (fun _ => "0")
                [("6", 1); ("the first", 2)] [] []) = []
      ∧ ∃ line, line ∈ [("6", 1); ("the first", 2)]
                ∧ JS.parseInt line.1 = JS.NaN)
     ∨ (∃ t, t ∈ ledger (mainMenu (fun _ => "3/11/2026") (fun _ => "$")
                           (fun _ => "0") [("6", 1); ("the first", 2)] [] [])
             ∧ amount t = None)).
Proof.
  split; [reflexivity|].
  apply (menu_throws_on_null_or_on_nothing _ _ _ [("6", 1); ("the first", 2)]).
  reflexivity.
Defined.

(** X18.  From a file of the prompt without [null] amount, when no line
    typed reads as an infinite number for [parseFloat]: no amount in the
    file becomes [null], and the program stops on an exception in one case
    only, the delete with an answer that is no number on an empty file. *)
Theorem menu_without_infinite_amounts
    (toLocaleDateString : Z → string) (formatCurrency : float → string)
    (numberToString : option float → string)
    (inputs : list (string * Z)) (file : list (transaction (option float)))
    (out : list string) :
  Forall (fun t => promptMade t ∧ nullAmount t = false) file →
  Forall (fun line : string * Z => is_infinity (JS.parseFloat line.1) = false)
    inputs →
  Forall (fun t => nullAmount t = false)
    (ledger (mainMenu toLocaleDateString formatCurrency numberToString
               inputs file out))
  ∧ (standing (mainMenu toLocaleDateString formatCurrency numberToString
                 inputs file out) = Crashed →
     ledger (mainMenu toLocaleDateString formatCurrency numberToString
               inputs file out) = []
     ∧ ∃ line, line ∈ inputs ∧ JS.parseInt line.1 = JS.NaN).
Proof.
  intros Hfile Hin.
  pose proof (mainMenu_course toLocaleDateString formatCurrency numberToString
                inputs file out) as Hc.
  pose proof (course_safe _ _ _ _ _ _ _ Hc Hfile Hin) as Hsafe.
  apply Forall_and in Hsafe as [_ Hn]. split; [exact Hn|].
  intros Hd. destruct (course_crash _ _ _ _ _ _ _ Hc Hd)
    as [H | (t & Ht & Hnull)]; [exact H|].
  rewrite Forall_forall in Hn. specialize (Hn t Ht).
  unfold nullAmount in Hn. rewrite Hnull in Hn. discriminate Hn.
Qed.

Lemma menu_without_infinite_amounts_witness :
  Forall (fun t => nullAmount t = false)
    (ledger (mainMenu (fun _ => "3/11/2026") (fun _ => "$") (fun _ => "0")
               sampleInputs [] []))
  ∧ standing (mainMenu (fun _ => "3/11/2026") (fun _ => "$") (fun _ => "0")
                sampleInputs [] []) = Closed.
Proof.
  split; [|vm_compute; reflexivity].
  refine (proj1 (menu_without_infinite_amounts _ _ _ sampleInputs [] [] _ _)).
  - constructor.
  - repeat constructor.
Defined.

(** X19.  An amount that [parseFloat] reads as Infinity passes the guard of
    [addTransaction]; the transaction is saved with the amount [null], and
    the choice 1, or the choice 6, which shows the table first, then stops
    the program on an exception, the file as it was saved. *)
Theorem infinite_amount_breaks_the_table
    (toLocaleDateString : Z → string) (formatCurrency : float → string)
    (numberToString : option float → string)
    (choice ty answer amountStr next : string) (at0 at1 now at2 : Z)
    (rest : list (string * Z)) (file : list (transaction (option float)))
    (out : list string) :
  (choice = "2" ∧ ty = "income") ∨ (choice = "3" ∧ ty = "expense") →
  next = "1" ∨ next = "6" →
  JS.parseFloat amountStr = infinity →
  mainMenu toLocaleDateString formatCurrency numberToString
    ((choice, at0) :: (answer, at1) :: (amountStr, now) :: (next, at2) :: rest)
    file out
  = {| ledger :=
         saveTransactions file
         ++ [{| primeId := now; description := JS.trim answer;
                amount := None; type := ty |}];
       written := out; standing := Crashed |}.
Proof.
  intros Hchoice Hnext Hinf.
  assert (Hfile : addToFile ty answer amountStr now file
                  = saveTransactions file
                    ++ [{| primeId := now; description := JS.trim answer;
                           amount := None; type := ty |}]).
  { rewrite addToFile_accepted by (rewrite Hinf; reflexivity).
    unfold saveTransactions. rewrite fmap_app, Hinf. reflexivity. }
  assert (Hview : (viewTransactions toLocaleDateString formatCurrency
                     (addToFile ty answer amountStr now file)).2 = true).
  { rewrite viewTransactions_throws, Hfile, existsb_app.
    apply orb_true_iff. right. reflexivity. }
  destruct Hchoice as [[-> ->] | [-> ->]], Hnext as [-> | ->];
    cbn [mainMenu String.eqb Ascii.eqb Bool.eqb]; rewrite Hview, Hfile;
    reflexivity.
Qed.

Lemma infinite_amount_breaks_the_table_witness :
  mainMenu (fun _ => "3/11/2026") (fun _ => "$") (fun _ => "0")
    [("2", 1); ("Prize", 2); ("1e999", 1700000000000); ("1", 4); ("8", 5)]
    [] []
  = {| ledger := [{| primeId := 1700000000000; description := "Prize";
                     amount := None; type := "income" |}];
       written := []; standing := Crashed |}.
Proof.
  refine (infinite_amount_breaks_the_table _ _ _ "2" "income" "Prize" "1e999"
            "1" 1 2 1700000000000 4 [("8", 5)] [] [] _ _ _).
  - left. split; reflexivity.
  - left. reflexivity.
  - vm_compute. reflexivity.
Defined.

(** X20.  The file changes through the choices 2, 3 and 6 only: when no
    line typed is one of them, the file at the end is the file at the
    start, whatever else was chosen. *)
Theorem menu_changes_the_file_by_2_3_6_only
    (toLocaleDateString : Z → string) (formatCurrency : float → string)
    (numberToString : option float → string)
    (inputs : list (string * Z)) (file : list (transaction (option float)))
    (out : list string) :
  Forall (fun line : string * Z => line.1 ∉ ["2"; "3"; "6"]) inputs →
  ledger (mainMenu toLocaleDateString formatCurrency numberToString
            inputs file out) = file.
Proof.
  apply course_leaves_file with (1 := mainMenu_course _ _ _ inputs file out).
Qed.

Lemma menu_changes_the_file_by_2_3_6_only_witness :
  ledger (mainMenu (fun _ => "3/11/2026") (fun _ => "$") (fun _ => "0")
            [("1", 1); ("5", 2); ("rent", 3); ("7", 4); ("4", 5); ("9", 6)]
            [expense 1 "Rent" (Some 400%float)] [])
  = [expense 1 "Rent" (Some 400%float)].
Proof.
  apply (menu_changes_the_file_by_2_3_6_only _ _ _
           [("1", 1); ("5", 2); ("rent", 3); ("7", 4); ("4", 5); ("9", 6)]).
  repeat (constructor;
    [cbn [fst]; intros H;
     repeat (apply elem_of_cons in H as [H|H]; [discriminate H|]);
     inversion H|]).
  constructor.
Defined.

(** X21.  Once the program has exited by the choice 8, or stopped on an
    exception, what is typed after that changes nothing: the file, the
    texts written and the state are the same with any further lines. *)
Theorem menu_reads_nothing_once_it_stopped
    (toLocaleDateString : Z → string) (formatCurrency : float → string)
    (numberToString : option float → string)
    (inputs more : list (string * Z))
    (file : list (transaction (option float))) (out : list string) :
  standing (mainMenu toLocaleDateString formatCurrency numberToString
              inputs file out) ≠ Prompting →
  mainMenu toLocaleDateString formatCurrency numberToString
    (inputs ++ more) file out
  = mainMenu toLocaleDateString formatCurrency numberToString inputs file out.
Proof.
  apply course_stopped, mainMenu_course.
Qed.

Lemma menu_reads_nothing_once_it_stopped_witness :
  mainMenu (fun _ => "3/11/2026") (fun _ => "$") (fun _ => "0")
    ([("8", 1)] ++ [("2", 2); ("Salary", 3); ("1000", 4)]) [] []
  = mainMenu (fun _ => "3/11/2026") (fun _ => "$") (fun _ => "0")
      [("8", 1)] [] [].
Proof.
  apply (menu_reads_nothing_once_it_stopped _ _ _ [("8", 1)]).
  discriminate.
Defined.

(** ** The delete, with the table first *)

(** The choice 6 of the menu is [deleteTransaction]: the menu stops when
    it throws, and goes on with the file it leaves otherwise. *)
Lemma mainMenu_delete (toLocaleDateString : Z → string)
    (formatCurrency : float → string) (numberToString : option float → string)
    (at_ at1 : Z) (idStr : string) (rest : list (string * Z))
    (file : list (transaction (option float))) (out : list string) :
  mainMenu toLocaleDateString formatCurrency numberToString
    (("6", at_) :: (idStr, at1) :: rest) file out
  = match File.deleteTransaction toLocaleDateString formatCurrency idStr file with
    | (file', File.ThrownByView) | (file', File.Answered Cli.TypeError) =>
        {| ledger := file'; written := out; standing := Crashed |}
    | (file', File.Answered _) =>
        mainMenu toLocaleDateString formatCurrency numberToString rest file' out
    end.
Proof.
  cbn [mainMenu String.eqb Ascii.eqb Bool.eqb]. unfold File.deleteTransaction.
  destruct (viewTransactions toLocaleDateString formatCurrency file).2;
    [reflexivity|].
  destruct (Cli.deleteAnswer idStr file) as [transactions [| |deleted|]];
    reflexivity.
Qed.

(** C10, as the code has it.  An answer that [parseInt] turns into NaN
    passes the test for 0 and both bounds tests, and [splice(NaN - 1, 1)]
    then removes the first transaction of a file that has one, provided
    that no amount in the file is [null]: [deleteTransaction] shows the
    table before it asks, and the array without the first transaction is
    saved. *)
Theorem nan_index_deletes_first
    (toLocaleDateString : Z → string) (formatCurrency : float → string)
    (idStr : string) (t : transaction (option float))
    (ts : list (transaction (option float))) :
  JS.parseInt idStr = JS.NaN →
  Forall (fun u => nullAmount u = false) (t :: ts) →
  JS.strictEq (JS.parseInt idStr) 0 = false
  ∧ JS.lt (JS.parseInt idStr) 1 = false
  ∧ JS.gt (JS.parseInt idStr) (Z.of_nat (length (t :: ts))) = false
  ∧ Cli.deleteAnswer idStr (t :: ts) = (ts, Cli.Deleted t)
  ∧ File.deleteTransaction toLocaleDateString formatCurrency idStr (t :: ts)
    = (saveTransactions ts, File.Answered (Cli.Deleted t))
  ∧ (saveTransactions (t :: ts) = t :: ts →
     File.deleteTransaction toLocaleDateString formatCurrency idStr (t :: ts)
     = (ts, File.Answered (Cli.Deleted t))).
Proof.
  intros E Hfile.
  assert (Hcb : Cli.deleteAnswer idStr (t :: ts) = (ts, Cli.Deleted t))
    by (rewrite (deleteAnswer_nan _ _ E); reflexivity).
  pose proof (deleteTransaction_deleted toLocaleDateString formatCurrency
                _ _ _ _ Hfile Hcb) as Hrun.
  rewrite E. cbn [JS.strictEq JS.lt JS.gt].
  repeat split; try assumption.
  intros Hsaved. rewrite Hrun. f_equal.
  unfold saveTransactions in *. cbn [fmap list_fmap] in Hsaved.
  injection Hsaved as _ Hsaved. exact Hsaved.
Qed.

Lemma nan_index_deletes_first_witness :
  JS.parseInt "abc" = JS.NaN
  ∧ File.deleteTransaction (fun _ => "3/11/2026") (fun _ => "$") "abc"
      [income 1 "Salary" (Some 1000%float); expense 2 "Rent" (Some 400%float)]
    = ([expense 2 "Rent" (Some 400%float)],
       File.Answered (Cli.Deleted (income 1 "Salary" (Some 1000%float)))).
Proof.
  split; [reflexivity|].
  refine (proj2 (proj2 (proj2 (proj2 (proj2
    (nan_index_deletes_first (fun _ => "3/11/2026") (fun _ => "$") "abc"
       (income 1 "Salary" (Some 1000%float))
       [expense 2 "Rent" (Some 400%float)] eq_refl _))))) _).
  - repeat constructor.
  - vm_compute. reflexivity.
Defined.

(** C10, as it is stated, fails on a file with a [null] amount, which the
    prompt makes of an amount typed as 1e999: the table throws before the
    question, nothing is removed, and the program stops. *)
Lemma nan_index_deletes_nothing_after_infinity :
  ledger (mainMenu (fun _ => "3/11/2026") (fun _ => "$") (fun _ => "null")
            [("2", 1); ("Prize", 2); ("1e999", 1700000000000)] [] [])
  = [{| primeId := 1700000000000; description := "Prize"; amount := None;
        type := "income" |}]
  ∧ JS.parseInt "abc" = JS.NaN
  ∧ File.deleteTransaction (fun _ => "3/11/2026") (fun _ => "$") "abc"
      [{| primeId := 1700000000000; description := "Prize"; amount := None;
          type := "income" |}]
    = ([{| primeId := 1700000000000; description := "Prize"; amount := None;
           type := "income" |}], File.ThrownByView)
  ∧ standing (mainMenu (fun _ => "3/11/2026") (fun _ => "$") (fun _ => "null")
                [("2", 1); ("Prize", 2); ("1e999", 1700000000000);
                 ("6", 4); ("abc", 5)] [] []) = Crashed
  ∧ ledger (mainMenu (fun _ => "3/11/2026") (fun _ => "$") (fun _ => "null")
              [("2", 1); ("Prize", 2); ("1e999", 1700000000000);
               ("6", 4); ("abc", 5)] [] [])
    = [{| primeId := 1700000000000; description := "Prize"; amount := None;
          type := "income" |}].
Proof.
  repeat split; vm_compute; reflexivity.
Qed.

(** X8.  What a delete removes.  On a file without [null] amount, an
    answer that reads as [k + 1] removes the transaction at the index [k]
    and nothing else, the others keeping their order, and the rest is
    saved; and a transaction is removed in this way only, or as the first
    one by an answer that is no number, and only from a file without
    [null] amount. *)
Theorem delete_at_position
    (toLocaleDateString : Z → string) (formatCurrency : float → string)
    (idStr : string) (file : list (transaction (option float)))
    (t : transaction (option float)) :
  (∀ k : nat,
     Forall (fun u => nullAmount u = false) file →
     JS.parseInt idStr = JS.Int (Z.of_nat k + 1) → file !! k = Some t →
     File.deleteTransaction toLocaleDateString formatCurrency idStr file
     = (saveTransactions (delete k file), File.Answered (Cli.Deleted t)))
  ∧ ((File.deleteTransaction toLocaleDateString formatCurrency idStr file).2
     = File.Answered (Cli.Deleted t) →
     Forall (fun u => nullAmount u = false) file
     ∧ ((∃ k : nat,
           JS.parseInt idStr = JS.Int (Z.of_nat k + 1) ∧ file !! k = Some t
           ∧ (File.deleteTransaction toLocaleDateString formatCurrency
                idStr file).1 = saveTransactions (delete k file))
        ∨ (JS.parseInt idStr = JS.NaN ∧ file !! 0%nat = Some t
           ∧ (File.deleteTransaction toLocaleDateString formatCurrency
                idStr file).1 = saveTransactions (delete 0%nat file)))).
Proof.
  split.
  - intros k Hfile E Ht.
    apply deleteTransaction_deleted; [exact Hfile|].
    apply deleteAnswer_lookup; assumption.
  - unfold File.deleteTransaction.
    destruct (viewTransactions _ _ file).2 eqn:Hview; [discriminate|].
    apply viewTransactions_shown in Hview. intros Hrun.
    split; [exact Hview|].
    destruct (JS.parseInt idStr) as [|n] eqn:E.
    + rewrite (deleteAnswer_nan _ _ E) in *.
      destruct file as [|t0 ts]; [discriminate Hrun|].
      cbn [snd fst] in *. injection Hrun as ->. right. repeat split.
    + destruct (deleteAnswer_int idStr n file E)
        as [[_ R] | [[_ R] | (pre & u & post & -> & -> & R)]];
        rewrite R in *; cbn [snd fst] in *; try discriminate Hrun.
      injection Hrun as ->. left. exists (length pre).
      split; [reflexivity|]. split.
      * rewrite lookup_app_r, Nat.sub_diag by lia. reflexivity.
      * rewrite delete_middle. reflexivity.
Qed.

Lemma delete_at_position_witness :
  File.deleteTransaction (fun _ => "3/11/2026") (fun _ => "$") "2"
    [income 1 "Salary" (Some 1000%float); expense 2 "Rent" (Some 400%float)]
  = ([income 1 "Salary" (Some 1000%float)],
     File.Answered (Cli.Deleted (expense 2 "Rent" (Some 400%float)))).
Proof.
  refine (proj1 (delete_at_position (fun _ => "3/11/2026") (fun _ => "$") "2"
                   [income 1 "Salary" (Some 1000%float);
                    expense 2 "Rent" (Some 400%float)]
                   (expense 2 "Rent" (Some 400%float)))
            1%nat _ eq_refl eq_refl).
  repeat constructor.
Defined.

(** X9.  On a file without [null] amount, an answer that reads as 0
    cancels, and one that reads as a number below 1 or above the number of
    transactions is refused; the file stays as it is in both cases. *)
Theorem delete_out_of_range
    (toLocaleDateString : Z → string) (formatCurrency : float → string)
    (idStr : string) (n : Z) (file : list (transaction (option float))) :
  JS.parseInt idStr = JS.Int n →
  Forall (fun u => nullAmount u = false) file →
  (n = 0 →
   File.deleteTransaction toLocaleDateString formatCurrency idStr file
   = (file, File.Answered Cli.Cancelled))
  ∧ (n < 0 ∨ Z.of_nat (length file) < n →
     File.deleteTransaction toLocaleDateString formatCurrency idStr file
     = (file, File.Answered Cli.InvalidId)).
Proof.
  intros E Hfile.
  destruct (deleteAnswer_int idStr n file E)
    as [[Hn R] | [[Hn R] | (pre & u & post & -> & -> & R)]]; split.
  - intros _. apply deleteTransaction_kept; [exact Hfile | left; reflexivity | exact R].
  - lia.
  - intros ->. destruct file; cbn [length] in Hn; lia.
  - intros _. apply deleteTransaction_kept; [exact Hfile | right; reflexivity | exact R].
  - lia.
  - rewrite length_app. cbn [length]. lia.
Qed.

Lemma delete_out_of_range_witness :
  File.deleteTransaction (fun _ => "3/11/2026") (fun _ => "$") "0"
    [income 1 "Salary" (Some 1000%float)]
  = ([income 1 "Salary" (Some 1000%float)], File.Answered Cli.Cancelled)
  ∧ File.deleteTransaction (fun _ => "3/11/2026") (fun _ => "$") "3"
      [income 1 "Salary" (Some 1000%float)]
    = ([income 1 "Salary" (Some 1000%float)], File.Answered Cli.InvalidId)
  ∧ File.deleteTransaction (fun _ => "3/11/2026") (fun _ => "$") "-1"
      [income 1 "Salary" (Some 1000%float)]
    = ([income 1 "Salary" (Some 1000%float)], File.Answered Cli.InvalidId).
Proof.
  assert (H : Forall (fun u : transaction (option float) => nullAmount u = false)
                [income 1 "Salary" (Some 1000%float)]) by repeat constructor.
  split; [|split].
  - exact (proj1 (delete_out_of_range _ _ "0" 0 _ eq_refl H) eq_refl).
  - exact (proj2 (delete_out_of_range _ _ "3" 3 _ eq_refl H) (or_intror eq_refl)).
  - exact (proj2 (delete_out_of_range _ _ "-1" (-1) _ eq_refl H)
             (or_introl eq_refl)).
Defined.


(** X11.  An add that passes, then the delete of the last position, gives
    the file back and names the transaction just added, on a file of the
    prompt without [null] amount and for an amount that is not infinite.  An
    infinite amount is saved as [null], and after it every delete throws in
    its table. *)
Theorem add_then_delete_last
    (toLocaleDateString : Z → string) (formatCurrency : float → string)
    (ty answer amountStr : string) (now : Z)
    (file : list (transaction (option float))) :
  Forall (fun t => promptMade t ∧ nullAmount t = false) file →
  rejectedAmount (JS.parseFloat amountStr) = false →
  (is_infinity (JS.parseFloat amountStr) = false →
   File.deleteTransaction toLocaleDateString formatCurrency
     (pretty (Z.of_nat (length file) + 1))
     (addToFile ty answer amountStr now file)
   = (file,
      File.Answered
        (Cli.Deleted {| primeId := now; description := JS.trim answer;
                        amount := Some (JS.parseFloat amountStr);
                        type := ty |})))
  ∧ (is_infinity (JS.parseFloat amountStr) = true →
     ∀ idStr,
       File.deleteTransaction toLocaleDateString formatCurrency idStr
         (addToFile ty answer amountStr now file)
       = (file ++ [{| primeId := now; description := JS.trim answer;
                      amount := None; type := ty |}],
          File.ThrownByView)).
Proof.
  intros Hfile Hok.
  apply Forall_and in Hfile as [Hp Hn].
  assert (Hadd : addToFile ty answer amountStr now file
                 = file ++ [{| primeId := now; description := JS.trim answer;
                               amount := if is_infinity (JS.parseFloat amountStr)
                                         then None
                                         else Some (JS.parseFloat amountStr);
                               type := ty |}]).
  { rewrite addToFile_accepted by exact Hok.
    unfold saveTransactions. rewrite fmap_app. fold (saveTransactions file).
    rewrite saveTransactions_promptMade by exact Hp.
    cbn [fmap list_fmap primeId description amount type].
    rewrite toJSON_accepted by exact Hok. reflexivity. }
  rewrite Hadd. split; intros Hinf; rewrite Hinf.
  - rewrite (deleteTransaction_deleted _ _ _ _ file
               {| primeId := now; description := JS.trim answer;
                  amount := Some (JS.parseFloat amountStr); type := ty |}).
    + rewrite saveTransactions_promptMade by exact Hp. reflexivity.
    + apply Forall_app. split; [exact Hn|]. repeat constructor.
    + rewrite (deleteAnswer_position _ file _ []) by apply parseInt_pretty.
      rewrite app_nil_r. reflexivity.
  - intros idStr. apply deleteTransaction_thrown.
    rewrite viewTransactions_throws, existsb_app.
    apply orb_true_iff. right. reflexivity.
Qed.

Lemma add_then_delete_last_witness :
  File.deleteTransaction (fun _ => "3/11/2026") (fun _ => "$") "1"
    (addToFile "income" "Salary" "1000" 1700000000000 [])
  = ([], File.Answered
           (Cli.Deleted {| primeId := 1700000000000;
                           description := JS.trim "Salary";
                           amount := Some (JS.parseFloat "1000");
                           type := "income" |}))
  ∧ File.deleteTransaction (fun _ => "3/11/2026") (fun _ => "$") "1"
      (addToFile "income" "Prize" "1e999" 1700000000000 [])
    = ([] ++ [{| primeId := 1700000000000; description := JS.trim "Prize";
                 amount := None; type := "income" |}],
       File.ThrownByView).
Proof.
  split.
  - refine (proj1 (add_then_delete_last (fun _ => "3/11/2026") (fun _ => "$")
                     "income" "Salary" "1000" 1700000000000 [] _ _) _).
    + constructor.
    + vm_compute. reflexivity.
    + vm_compute. reflexivity.
  - refine (proj2 (add_then_delete_last (fun _ => "3/11/2026") (fun _ => "$")
                     "income" "Prize" "1e999" 1700000000000 [] _ _) _ "1").
    + constructor.
    + vm_compute. reflexivity.
    + vm_compute. reflexivity.
Defined.

(** ** Reading the export back *)

Section Separators.

Lemma lacks_app c a b : lacks c (a +:+ b) = lacks c a && lacks c b.
Proof.
  induction a as [|d a IH]; [reflexivity|].
  change (String d a +:+ b) with (String d (a +:+ b)). cbn [lacks].
  rewrite IH. apply andb_assoc.
Qed.

Lemma lacks_sep c z : lacks c (String c z) = false.
Proof. cbn [lacks]. rewrite Ascii.eqb_refl. reflexivity. Qed.

Lemma append_inv_head a : ∀ x y, a +:+ x = a +:+ y → x = y.
Proof.
  induction a as [|c a IH]; intros x y E; [exact E|].
  injection E as E. apply IH, E.
Qed.

(** A text is cut in one way at the first separator. *)
Lemma cut_at_first c a : ∀ b x y,
  lacks c a = true → lacks c b = true →
  a +:+ String c x = b +:+ String c y → a = b ∧ x = y.
Proof.
  induction a as [|d a IH]; intros [|e b] x y Ha Hb E.
  - injection E as ->. split; reflexivity.
  - injection E as -> _. rewrite lacks_sep in Hb. discriminate Hb.
  - injection E as -> _. rewrite lacks_sep in Ha. discriminate Ha.
  - injection E as -> E. cbn [lacks] in Ha, Hb.
    apply andb_true_iff in Ha as [_ Ha]. apply andb_true_iff in Hb as [_ Hb].
    destruct (IH _ _ _ Ha Hb E) as [-> ->]. split; reflexivity.
Qed.

(** And in one way at the last separator. *)
Lemma cut_at_last c x : ∀ y a b,
  lacks c a = true → lacks c b = true →
  x +:+ String c a = y +:+ String c b → x = y ∧ a = b.
Proof.
  induction x as [|d x IH]; intros [|e y] a b Ha Hb E.
  - injection E as ->. split; reflexivity.
  - injection E as -> ->. rewrite lacks_app, lacks_sep, andb_false_r in Ha.
    discriminate Ha.
  - injection E as -> <-. rewrite lacks_app, lacks_sep, andb_false_r in Hb.
    discriminate Hb.
  - injection E as -> E. destruct (IH _ _ _ Ha Hb E) as [-> ->].
    split; reflexivity.
Qed.

(** Lines without line feed, none empty, are read back from their join. *)
Lemma join_lines_inj (l1 : list string) : ∀ l2,
  Forall (fun r => lacks "010" r = true ∧ r ≠ EmptyString) l1 →
  Forall (fun r => lacks "010" r = true ∧ r ≠ EmptyString) l2 →
  JS.join lf l1 = JS.join lf l2 → l1 = l2.
Proof.
  induction l1 as [|x l1 IH]; intros [|y l2] H1 H2 E.
  - reflexivity.
  - apply Forall_cons in H2 as [[_ Hy] _]. exfalso. apply Hy.
    destruct l2; cbn [JS.join] in E; [congruence|].
    destruct y; [reflexivity | discriminate E].
  - apply Forall_cons in H1 as [[_ Hx] _]. exfalso. apply Hx.
    destruct l1; cbn [JS.join] in E; [congruence|].
    destruct x; [reflexivity | discriminate E].
  - apply Forall_cons in H1 as [[Hx _] H1].
    apply Forall_cons in H2 as [[Hy _] H2].
    destruct l1 as [|x2 l1], l2 as [|y2 l2].
    + cbn [JS.join] in E. congruence.
    + exfalso. cbn [JS.join] in E. rewrite E in Hx.
      change (lf +:+ ?z) with (String "010" z) in Hx.
      rewrite lacks_app, lacks_sep, andb_false_r in Hx. discriminate Hx.
    + exfalso. cbn [JS.join] in E. rewrite <- E in Hy.
      change (lf +:+ ?z) with (String "010" z) in Hy.
      rewrite lacks_app, lacks_sep, andb_false_r in Hy. discriminate Hy.
    + change (JS.join lf (x :: x2 :: l1))
        with (x +:+ String "010" (JS.join lf (x2 :: l1))) in E.
      change (JS.join lf (y :: y2 :: l2))
        with (y +:+ String "010" (JS.join lf (y2 :: l2))) in E.
      destruct (cut_at_first _ _ _ _ _ Hx Hy E) as [-> EJ].
      f_equal. apply IH; assumption.
Qed.
End Separators.

Section CsvRows.
Context {num : Type}.
Variable toLocaleDateString : Z → string.
Variable numberToString : num → string.

Lemma csvRow_line t :
  tidy toLocaleDateString numberToString t →
  lacks "010" (Cli.csvRow toLocaleDateString numberToString t) = true
  ∧ Cli.csvRow toLocaleDateString numberToString t ≠ EmptyString.
Proof.
  intros (H1 & H2 & H3 & H4 & _). unfold Cli.csvRow. split.
  - rewrite !lacks_app, H1, H2, H3, H4. reflexivity.
  - destruct (toLocaleDateString (primeId t)); discriminate.
Qed.

Lemma csvRow_inj t u :
  tidy toLocaleDateString numberToString t →
  tidy toLocaleDateString numberToString u →
  Cli.csvRow toLocaleDateString numberToString t
  = Cli.csvRow toLocaleDateString numberToString u →
  cells toLocaleDateString numberToString t
  = cells toLocaleDateString numberToString u.
Proof.
  intros (_ & _ & _ & _ & Ht1 & Ht2 & Ht3) (_ & _ & _ & _ & Hu1 & Hu2 & Hu3) E.
  unfold Cli.csvRow, cells in *.
  change ("," +:+ ?z) with (String "," z) in E.
  destruct (cut_at_first _ _ _ _ _ Ht1 Hu1 E) as [Ed E1].
  change (dq +:+ ?z) with (String "034" z) in E1.
  injection E1 as E1.
  assert (R : ∀ d a ty,
            d +:+ dq +:+ "," +:+ a +:+ "," +:+ ty
            = ((d +:+ String "034" EmptyString) +:+ String "," a)
              +:+ String "," ty)
    by (intros; rewrite !append_assoc; reflexivity).
  rewrite !R in E1.
  destruct (cut_at_last "," _ _ _ _ Ht3 Hu3 E1) as [E2 Ety].
  destruct (cut_at_last "," _ _ _ _ Ht2 Hu2 E2) as [E3 Eam].
  destruct (cut_at_last "034" _ _ EmptyString EmptyString eq_refl eq_refl E3)
    as [Ede _].
  rewrite Ed, Ede, Eam, Ety. reflexivity.
Qed.
End CsvRows.

(** X22.  The export tells ledgers apart as long as no text of a row has a line
    feed and the date, the amount and the type have no comma: two such
    ledgers with the same export have the same rows, text by text.  The
    description may hold commas and double quotes. *)
Theorem export_of_tidy_rows_reads_back {num : Type}
    (toLocaleDateString : Z → string) (numberToString : num → string)
    (ts us : list (transaction num)) :
  Forall (tidy toLocaleDateString numberToString) ts →
  Forall (tidy toLocaleDateString numberToString) us →
  Cli.csvContent toLocaleDateString numberToString ts
  = Cli.csvContent toLocaleDateString numberToString us →
  cells toLocaleDateString numberToString <$> ts
  = cells toLocaleDateString numberToString <$> us.
Proof.
  intros Hts Hus E. unfold Cli.csvContent in E.
  apply append_inv_head, append_inv_head in E.
  apply join_lines_inj in E.
  - revert us Hus E. induction Hts as [|t ts Ht _ IH]; intros [|u us] Hus E;
      try discriminate E; [reflexivity|].
    apply Forall_cons in Hus as [Hu Hus]. cbn [map] in E. injection E as E1 E2.
    cbn [fmap list_fmap]. f_equal; [apply csvRow_inj; assumption|].
    apply IH; assumption.
  - rewrite Forall_map. eapply Forall_impl; [exact Hts|].
    intros t Ht. apply csvRow_line, Ht.
  - rewrite Forall_map. eapply Forall_impl; [exact Hus|].
    intros t Ht. apply csvRow_line, Ht.
Qed.

Lemma export_of_tidy_rows_reads_back_witness :
  cells (fun z => pretty (z / 10)) (fun z : Z => pretty z) <$> salaryAndRent
  = cells (fun z => pretty (z / 10)) (fun z : Z => pretty z)
      <$> [income 3 "Salary" 1000; expense 4 "Rent" 400].
Proof.
  apply (export_of_tidy_rows_reads_back (fun z => pretty (z / 10))
           (fun z : Z => pretty z) salaryAndRent
           [income 3 "Salary" 1000; expense 4 "Rent" 400]).
  - repeat constructor.
  - repeat constructor.
  - vm_compute. reflexivity.
Defined.
